(** * Watch-room server: the in-memory room / member / session store

    A shallow embedding of [WatchRoomServer] (watch-room-server.ts) and of
    the process-level fault handling of index.ts.  JavaScript [Map]s are
    insertion-ordered, and the code relies on that order when it iterates
    ([forEach], [Array.from(values())]), so they are kept as association
    lists with the three operations the code uses. *)

From Stdlib Require Import List String Ascii ZArith Bool Arith Lia.
From Stdlib Require Import DecimalString.
From Stdlib Require DecimalPos DecimalZ.
Import ListNotations.
Local Open Scope string_scope.

(** ** JavaScript [Map<string, V>] *)

Module JsMap.

Section Ops.
Context {V : Type}.

Definition t := list (string * V).

Definition empty : t := [].

(** [m.get(k)]: [None] stands for [undefined]. *)
Fixpoint get (k : string) (m : t) : option V :=
  match m with
  | [] => None
  | (k', v) :: rest => if String.eqb k k' then Some v else get k rest
  end.

(** [m.set(k, v)]: an existing key keeps its position, a new key goes
    last. *)
Fixpoint set (k : string) (v : V) (m : t) : t :=
  match m with
  | [] => [(k, v)]
  | (k', v') :: rest =>
      if String.eqb k k' then (k, v) :: rest else (k', v') :: set k v rest
  end.

(** [m.delete(k)]. *)
Fixpoint delete (k : string) (m : t) : t :=
  match m with
  | [] => []
  | (k', v') :: rest =>
      if String.eqb k k' then delete k rest else (k', v') :: delete k rest
  end.

(** [m.size]. *)
Definition size (m : t) : nat := List.length m.

(** [Array.from(m.values())]. *)
Definition values (m : t) : list V := map snd m.

Definition keys (m : t) : list string := map fst m.

(** The entries of a map built by [set] and [delete] carry distinct keys. *)
Definition ok (m : t) : Prop := NoDup (keys m).

End Ops.

Arguments t : clear implicits.

End JsMap.

(** ** Data model

    types.ts is not part of the sources.  The records below carry the
    fields that the object literals of watch-room-server.ts write; that a
    description, a password and a handshake token may be absent is what the
    specification says of them ("optional"). *)

(** Modelled from the spec: the payload types [PlayState], [LiveState], the
    seek position and the WebRTC offer / answer / candidate are declared in
    types.ts, which is absent.  The spec calls them blobs the server relays
    "without interpreting their contents"; they are kept in wire form. *)
Definition Payload : Type := string.

Module Room.
Record t : Type := mk {
  id : string;
  name : string;
  description : option string;
  password : option string;
  isPublic : bool;
  ownerId : string;
  ownerName : string;
  ownerToken : string;
  memberCount : nat;
  currentState : option Payload;
  createdAt : Z;
  lastOwnerHeartbeat : Z
}.

(** [room.memberCount = n] *)
Definition set_memberCount (n : nat) (r : t) : t :=
  mk (id r) (name r) (description r) (password r) (isPublic r) (ownerId r)
     (ownerName r) (ownerToken r) n (currentState r) (createdAt r)
     (lastOwnerHeartbeat r).

(** [room.currentState = s] *)
Definition set_currentState (s : option Payload) (r : t) : t :=
  mk (id r) (name r) (description r) (password r) (isPublic r) (ownerId r)
     (ownerName r) (ownerToken r) (memberCount r) s (createdAt r)
     (lastOwnerHeartbeat r).

(** [room.lastOwnerHeartbeat = z] *)
Definition set_lastOwnerHeartbeat (z : Z) (r : t) : t :=
  mk (id r) (name r) (description r) (password r) (isPublic r) (ownerId r)
     (ownerName r) (ownerToken r) (memberCount r) (currentState r)
     (createdAt r) z.
End Room.

Module Member.
Record t : Type := mk {
  id : string;
  name : string;
  isOwner : bool;
  lastHeartbeat : Z
}.

(** [member.lastHeartbeat = z] *)
Definition set_lastHeartbeat (z : Z) (m : t) : t :=
  mk (id m) (name m) (isOwner m) z.
End Member.

Module RoomMemberInfo.
Record t : Type := mk {
  roomId : string;
  userId : string;
  userName : string;
  isOwner : bool
}.
End RoomMemberInfo.

Module ChatMessage.
Record t : Type := mk {
  id : string;
  userId : string;
  userName : string;
  content : string;
  type : string;
  timestamp : Z
}.
End ChatMessage.

(** The three private maps of [WatchRoomServer]. *)
Record Store : Type := mkStore {
  rooms : JsMap.t Room.t;
  members : JsMap.t (JsMap.t Member.t);
  socketToRoom : JsMap.t RoomMemberInfo.t
}.

Definition emptyStore : Store := mkStore JsMap.empty JsMap.empty JsMap.empty.

Definition with_rooms (f : JsMap.t Room.t -> JsMap.t Room.t) (st : Store)
  : Store :=
  mkStore (f (rooms st)) (members st) (socketToRoom st).

Definition with_members
  (f : JsMap.t (JsMap.t Member.t) -> JsMap.t (JsMap.t Member.t)) (st : Store)
  : Store :=
  mkStore (rooms st) (f (members st)) (socketToRoom st).

Definition with_socketToRoom
  (f : JsMap.t RoomMemberInfo.t -> JsMap.t RoomMemberInfo.t) (st : Store)
  : Store :=
  mkStore (rooms st) (members st) (f (socketToRoom st)).

(** ** Payloads of the client requests *)

Module CreateData.
Record t : Type := mk {
  name : string;
  description : option string;
  password : option string;
  isPublic : bool;
  userName : string
}.
End CreateData.

Module JoinData.
Record t : Type := mk {
  roomId : string;
  password : option string;
  userName : string
}.
End JoinData.

Module ChatData.
Record t : Type := mk {
  content : string;
  type : string
}.
End ChatData.

Module VoiceData.
Record t : Type := mk {
  targetUserId : string;
  payload : Payload
}.
End VoiceData.

(** ** What the server sends *)

(** [ServerToClientEvents]: the event names the code emits. *)
Inductive ServerEvent : Type :=
| error_ (msg : string)
| room_member_joined (m : Member.t)
| room_member_left (userId : string)
| room_deleted
| play_update (state : Payload)
| play_seek (currentTime : Payload)
| play_play
| play_pause
| play_change (state : Payload)
| live_change (state : Payload)
| chat_message (msg : ChatMessage.t)
| voice_offer (userId : string) (offer : Payload)
| voice_answer (userId : string) (answer : Payload)
| voice_ice (userId : string) (candidate : Payload)
| state_cleared
| heartbeat_pong (timestamp : Z).

(** The acknowledgement objects handed to a request's callback. *)
Inductive Ack : Type :=
| CreateOk (room : Room.t)
| CreateFailed (error : string)
| JoinOk (room : Room.t) (members : list Member.t)
| JoinFailed (error : string)
| RoomList (publicRooms : list Room.t)
| ClearOk
| ClearFailed (error : string).

(** The calls a handler makes on the Socket.IO objects, in program order. *)
Inductive Action : Type :=
| SocketEmit (socket : string) (e : ServerEvent)
    (* socket.emit(e): to this connection only *)
| SocketTo (socket : string) (room : string) (e : ServerEvent)
    (* socket.to(room).emit(e): the room's subscribers except the sender *)
| IoTo (room : string) (e : ServerEvent)
    (* io.to(room).emit(e): every subscriber of the room *)
| Callback (socket : string) (a : Ack)
    (* callback(a): the reply to this connection's request *)
| SocketJoin (socket : string) (room : string)
| SocketLeave (socket : string) (room : string)
| SocketDisconnect (socket : string).

(** The error strings of the join and clear-state replies.  The spec's
    names for the first two are [RoomNotFound] and [BadPassword]. *)
Definition RoomNotFound : string := "房间不存在".
Definition BadPassword : string := "密码错误".
Definition NotInRoom : string := "Not in a room".
Definition NotOwner : string := "Not owner".
Definition ClearRoomNotFound : string := "Room not found".

(** ** Identifier generator *)

Definition toUpperCase_ascii (c : ascii) : ascii :=
  let n := nat_of_ascii c in
  if (97 <=? n)%nat && (n <=? 122)%nat then ascii_of_nat (n - 32) else c.

(** [s.toUpperCase()] on the ASCII text the generator handles. *)
Fixpoint toUpperCase (s : string) : string :=
  match s with
  | EmptyString => EmptyString
  | String c rest => String (toUpperCase_ascii c) (toUpperCase rest)
  end.

(** [s.substring(from, to)] for [from <= to]. *)
Definition js_substring (from to : nat) (s : string) : string :=
  String.substring from (to - from) s.

(** [generateRoomId]; [rnd] is the text [Math.random().toString(36)], such
    as ["0.k3x9q2mzab"]. *)
Definition generateRoomId (rnd : string) : string :=
  toUpperCase (js_substring 2 8 rnd).

(** [generateMessageId]; [now] is the reading of [Date.now()]. *)
Definition generateMessageId (now : Z) (rnd : string) : string :=
  NilZero.string_of_int (Z.to_int now) ++ "-" ++ js_substring 2 9 rnd.

(** ** JavaScript tests on optional strings *)

(** Truthiness: [undefined] and the empty string are falsy. *)
Definition truthy (s : option string) : bool :=
  match s with
  | Some p => negb (p =? "")
  | None => false
  end.

(** [a !== b]. *)
Definition strict_neq (a b : option string) : bool :=
  match a, b with
  | Some x, Some y => negb (x =? y)
  | None, None => false
  | _, _ => true
  end.

Definition isSome {A : Type} (o : option A) : bool :=
  match o with
  | Some _ => true
  | None => false
  end.

(** ** Session coordinator: one function per [socket.on] handler.  Each takes
    the store and returns the store after the handler with the Socket.IO
    calls it made.  The readings of [Date.now()] and the texts of
    [Math.random().toString(36)] are arguments, one per call site.  The
    handlers are followed along the calls that return; a Socket.IO call that
    raises is followed in the reconciler only, where the process-level
    handler of index.ts decides what happens next. *)

(** [deleteRoom] *)
Definition deleteRoom (roomId : string) (st : Store) : Store * list Action :=
  (with_members (JsMap.delete roomId) (with_rooms (JsMap.delete roomId) st),
   [IoTo roomId room_deleted]).

(** [socket.on('room:create', ...)] *)
Definition on_room_create (socket : string) (data : CreateData.t)
  (rnd_roomId rnd_ownerToken : string)
  (now_createdAt now_lastOwnerHeartbeat now_lastHeartbeat : Z) (st : Store)
  : Store * list Action :=
  let roomId := generateRoomId rnd_roomId in
  let userId := socket in
  let ownerToken := generateRoomId rnd_ownerToken in
  let room :=
    Room.mk roomId (CreateData.name data) (CreateData.description data)
      (CreateData.password data) (CreateData.isPublic data) userId
      (CreateData.userName data) ownerToken 1 None now_createdAt
      now_lastOwnerHeartbeat in
  let member :=
    Member.mk userId (CreateData.userName data) true now_lastHeartbeat in
  let st1 := with_rooms (JsMap.set roomId room) st in
  let st2 :=
    with_members (JsMap.set roomId (JsMap.set userId member JsMap.empty))
      st1 in
  let st3 :=
    with_socketToRoom
      (JsMap.set socket
         (RoomMemberInfo.mk roomId userId (CreateData.userName data) true))
      st2 in
  (st3, [SocketJoin socket roomId; Callback socket (CreateOk room)]).

(** [socket.on('room:join', ...)] *)
Definition on_room_join (socket : string) (data : JoinData.t) (now : Z)
  (st : Store) : Store * list Action :=
  match JsMap.get (JoinData.roomId data) (rooms st) with
  | None => (st, [Callback socket (JoinFailed RoomNotFound)])
  | Some room =>
      if truthy (Room.password room)
         && strict_neq (Room.password room) (JoinData.password data)
      then (st, [Callback socket (JoinFailed BadPassword)])
      else
        let userId := socket in
        let member := Member.mk userId (JoinData.userName data) false now in
        let roomMembers := JsMap.get (JoinData.roomId data) (members st) in
        let '(st1, room1, roomMembers1) :=
          match roomMembers with
          | Some ms =>
              let ms1 := JsMap.set userId member ms in
              let room1 := Room.set_memberCount (JsMap.size ms1) room in
              (with_rooms (JsMap.set (JoinData.roomId data) room1)
                 (with_members (JsMap.set (JoinData.roomId data) ms1) st),
               room1, Some ms1)
          | None => (st, room, None)
          end in
        let st2 :=
          with_socketToRoom
            (JsMap.set socket
               (RoomMemberInfo.mk (JoinData.roomId data) userId
                  (JoinData.userName data) false))
            st1 in
        let memberList :=
          match roomMembers1 with
          | Some ms1 => JsMap.values ms1
          | None => []
          end in
        (st2,
         [SocketJoin socket (JoinData.roomId data);
          SocketTo socket (JoinData.roomId data) (room_member_joined member);
          Callback socket (JoinOk room1 memberList)])
  end.

(** [handleLeaveRoom], shared by ['room:leave'] and ['disconnect'] *)
Definition handleLeaveRoom (socket : string) (st : Store)
  : Store * list Action :=
  match JsMap.get socket (socketToRoom st) with
  | None => (st, [])
  | Some roomInfo =>
      let roomId := RoomMemberInfo.roomId roomInfo in
      let userId := RoomMemberInfo.userId roomInfo in
      let '(st3, out) :=
        match JsMap.get roomId (members st) with
        | Some roomMembers =>
            let roomMembers1 := JsMap.delete userId roomMembers in
            let st1 := with_members (JsMap.set roomId roomMembers1) st in
            let st2 :=
              match JsMap.get roomId (rooms st1) with
              | Some room =>
                  with_rooms
                    (JsMap.set roomId
                       (Room.set_memberCount (JsMap.size roomMembers1) room))
                    st1
              | None => st1
              end in
            let left := [SocketTo socket roomId (room_member_left userId)] in
            if (JsMap.size roomMembers1 =? 0)%nat
            then
              let '(st3, deleted) := deleteRoom roomId st2 in
              (st3, (left ++ deleted)%list)
            else (st2, left)
        | None => (st, [])
        end in
      (with_socketToRoom (JsMap.delete socket) st3,
       (out ++ [SocketLeave socket roomId])%list)
  end.

(** [socket.on('room:list', ...)] *)
Definition on_room_list (socket : string) (st : Store)
  : Store * list Action :=
  (st, [Callback socket
          (RoomList (filter Room.isPublic (JsMap.values (rooms st))))]).

(** The body shared, word for word, by ['play:update'], ['play:change'] and
    ['live:change']; [ev] is the event name re-emitted. *)
Definition owner_state_change (ev : Payload -> ServerEvent) (socket : string)
  (state : Payload) (st : Store) : Store * list Action :=
  match JsMap.get socket (socketToRoom st) with
  | None => (st, [])
  | Some roomInfo =>
      if negb (RoomMemberInfo.isOwner roomInfo) then (st, [])
      else
        let roomId := RoomMemberInfo.roomId roomInfo in
        match JsMap.get roomId (rooms st) with
        | Some room =>
            (with_rooms
               (JsMap.set roomId (Room.set_currentState (Some state) room))
               st,
             [SocketTo socket roomId (ev state)])
        | None => (st, [])
        end
  end.

Definition on_play_update := owner_state_change play_update.
Definition on_play_change := owner_state_change play_change.
Definition on_live_change := owner_state_change live_change.

(** The body shared by ['play:seek'], ['play:play'] and ['play:pause']. *)
Definition relay (e : ServerEvent) (socket : string) (st : Store)
  : Store * list Action :=
  match JsMap.get socket (socketToRoom st) with
  | None => (st, [])
  | Some roomInfo =>
      (st, [SocketTo socket (RoomMemberInfo.roomId roomInfo) e])
  end.

Definition on_play_seek (socket : string) (currentTime : Payload) :=
  relay (play_seek currentTime) socket.
Definition on_play_play := relay play_play.
Definition on_play_pause := relay play_pause.

(** [socket.on('chat:message', ...)] *)
Definition on_chat_message (socket : string) (data : ChatData.t)
  (now_id : Z) (rnd : string) (now_timestamp : Z) (st : Store)
  : Store * list Action :=
  match JsMap.get socket (socketToRoom st) with
  | None => (st, [])
  | Some roomInfo =>
      let message :=
        ChatMessage.mk (generateMessageId now_id rnd)
          (RoomMemberInfo.userId roomInfo) (RoomMemberInfo.userName roomInfo)
          (ChatData.content data) (ChatData.type data) now_timestamp in
      (st, [IoTo (RoomMemberInfo.roomId roomInfo) (chat_message message)])
  end.

(** The body shared by ['voice:offer'], ['voice:answer'] and ['voice:ice']. *)
Definition signal (ev : string -> Payload -> ServerEvent) (socket : string)
  (data : VoiceData.t) (st : Store) : Store * list Action :=
  match JsMap.get socket (socketToRoom st) with
  | None => (st, [])
  | Some _ =>
      (st, [IoTo (VoiceData.targetUserId data)
              (ev socket (VoiceData.payload data))])
  end.

Definition on_voice_offer := signal voice_offer.
Definition on_voice_answer := signal voice_answer.
Definition on_voice_ice := signal voice_ice.

(** [if (callback) callback(a)] *)
Definition reply_if (has_callback : bool) (socket : string) (a : Ack)
  : list Action :=
  if has_callback then [Callback socket a] else [].

(** [socket.on('state:clear', ...)] *)
Definition on_state_clear (socket : string) (has_callback : bool)
  (st : Store) : Store * list Action :=
  match JsMap.get socket (socketToRoom st) with
  | None => (st, reply_if has_callback socket (ClearFailed NotInRoom))
  | Some roomInfo =>
      if negb (RoomMemberInfo.isOwner roomInfo)
      then (st, reply_if has_callback socket (ClearFailed NotOwner))
      else
        let roomId := RoomMemberInfo.roomId roomInfo in
        match JsMap.get roomId (rooms st) with
        | Some room =>
            (with_rooms (JsMap.set roomId (Room.set_currentState None room))
               st,
             SocketTo socket roomId state_cleared
               :: reply_if has_callback socket ClearOk)
        | None =>
            (st, reply_if has_callback socket (ClearFailed ClearRoomNotFound))
        end
  end.

(** [socket.on('heartbeat', ...)] *)
Definition on_heartbeat (socket : string)
  (now_lastHeartbeat now_lastOwnerHeartbeat now_pong : Z) (st : Store)
  : Store * list Action :=
  match JsMap.get socket (socketToRoom st) with
  | None => (st, [])
  | Some roomInfo =>
      let roomId := RoomMemberInfo.roomId roomInfo in
      let userId := RoomMemberInfo.userId roomInfo in
      let st1 :=
        match JsMap.get roomId (members st) with
        | Some roomMembers =>
            match JsMap.get userId roomMembers with
            | Some member =>
                with_members
                  (JsMap.set roomId
                     (JsMap.set userId
                        (Member.set_lastHeartbeat now_lastHeartbeat member)
                        roomMembers))
                  st
            | None => st
            end
        | None => st
        end in
      let st2 :=
        if RoomMemberInfo.isOwner roomInfo then
          match JsMap.get roomId (rooms st1) with
          | Some room =>
              with_rooms
                (JsMap.set roomId
                   (Room.set_lastOwnerHeartbeat now_lastOwnerHeartbeat room))
                st1
          | None => st1
          end
        else st1 in
      (st2, [SocketEmit socket (heartbeat_pong now_pong)])
  end.

(** ** Liveness reconciler: the callback of [startCleanupTimer] *)

Definition deleteTimeout : Z := 5 * 60 * 1000.
Definition clearStateTimeout : Z := 30 * 1000.

(** How a piece of code ends: normally, or with an exception escaping it.
    Either way it leaves a store and the calls made so far. *)
Inductive Completion : Type :=
| Normal (st : Store) (out : list Action)
| Thrown (st : Store) (out : list Action).

(** The callback given to [this.rooms.forEach].  The only calls that leave
    the class are the two [emit]s; [throws] tells which of them raise. *)
Definition cleanupRoom (throws : Action -> bool) (now : Z) (roomId : string)
  (room : Room.t) (st : Store) : Completion :=
  let timeSinceHeartbeat := (now - Room.lastOwnerHeartbeat room)%Z in
  let cleared :=
    if (timeSinceHeartbeat >? clearStateTimeout)%Z
       && isSome (Room.currentState room)
    then
      let st1 :=
        with_rooms (JsMap.set roomId (Room.set_currentState None room)) st in
      if throws (IoTo roomId state_cleared) then Thrown st1 []
      else Normal st1 [IoTo roomId state_cleared]
    else Normal st [] in
  match cleared with
  | Thrown st1 out1 => Thrown st1 out1
  | Normal st1 out1 =>
      if (timeSinceHeartbeat >? deleteTimeout)%Z then
        if throws (IoTo roomId room_deleted) then Thrown st1 out1
        else
          let '(st2, out2) := deleteRoom roomId st1 in
          Normal st2 (out1 ++ out2)%list
      else Normal st1 out1
  end.

(** [this.rooms.forEach(...)]: the entries in insertion order.  The callback
    writes and deletes only the key it is visiting, so the entries still to
    visit are those of the map when the scan began.  An exception ends the
    scan. *)
Fixpoint forEachRoom (throws : Action -> bool) (now : Z)
  (entries : list (string * Room.t)) (st : Store) (out : list Action)
  : Completion :=
  match entries with
  | [] => Normal st out
  | (roomId, room) :: rest =>
      match cleanupRoom throws now roomId room st with
      | Thrown st1 out1 => Thrown st1 (out ++ out1)%list
      | Normal st1 out1 => forEachRoom throws now rest st1 (out ++ out1)%list
      end
  end.

(** One firing of the interval callback. *)
Definition cleanupTick (throws : Action -> bool) (now : Z) (st : Store)
  : Completion :=
  forEachRoom throws now (rooms st) st [].

Definition never (_ : Action) : bool := false.

Definition completionStore (c : Completion) : Store :=
  match c with
  | Normal st _ => st
  | Thrown st _ => st
  end.

Definition completionOut (c : Completion) : list Action :=
  match c with
  | Normal _ out => out
  | Thrown _ out => out
  end.

Definition isThrown (c : Completion) : bool :=
  match c with
  | Normal _ _ => false
  | Thrown _ _ => true
  end.

(** ** The process (index.ts) *)

(** [io.on('connection', ...)] up to the point where the handlers are
    registered: [true] when they are. *)
Definition on_connection (authKey socket : string) (token : option string)
  : bool * list Action :=
  if negb (truthy token) || strict_neq token (Some authKey)
  then (false, [SocketEmit socket (error_ "Unauthorized");
                SocketDisconnect socket])
  else (true, []).

Inductive Lifecycle : Type :=
| Running
| ShuttingDown   (* [shutdown] ran: [process.exit] is scheduled *)
| Exited (code : Z).

Record Process : Type := mkProcess {
  authKey : string;
  server : Store;
  sockets : list string;     (* connections whose handlers are registered *)
  cleanupInterval : bool;    (* the [setInterval] timer is armed *)
  lifecycle : Lifecycle
}.

(** [new WatchRoomServer(io, AUTH_KEY)] *)
Definition startProcess (key : string) : Process :=
  mkProcess key emptyStore [] true Running.

Definition with_server (st : Store) (p : Process) : Process :=
  mkProcess (authKey p) st (sockets p) (cleanupInterval p) (lifecycle p).

(** [watchRoomServer.destroy()]: [clearInterval]. *)
Definition destroy (p : Process) : Process :=
  mkProcess (authKey p) (server p) (sockets p) false (lifecycle p).

(** [shutdown(signal)]: stops the timer, closes the HTTP server (whose
    callback exits with 0) and arms a 10 s timer that exits with 1. *)
Definition shutdown (p : Process) : Process :=
  let p1 := destroy p in
  mkProcess (authKey p1) (server p1) (sockets p1) (cleanupInterval p1)
    ShuttingDown.

(** [process.on('uncaughtException', ...)] *)
Definition uncaughtException (p : Process) : Process := shutdown p.

Inductive ClientEvent : Type :=
| RoomCreate (data : CreateData.t) (rnd_roomId rnd_ownerToken : string)
    (now_createdAt now_lastOwnerHeartbeat now_lastHeartbeat : Z)
| RoomJoin (data : JoinData.t) (now : Z)
| RoomLeave
| RoomListRequest
| PlayUpdate (state : Payload)
| PlaySeek (currentTime : Payload)
| PlayPlay
| PlayPause
| PlayChange (state : Payload)
| LiveChange (state : Payload)
| ChatSend (data : ChatData.t) (now_id : Z) (rnd : string)
    (now_timestamp : Z)
| VoiceOffer (data : VoiceData.t)
| VoiceAnswer (data : VoiceData.t)
| VoiceIce (data : VoiceData.t)
| StateClear (has_callback : bool)
| Heartbeat (now_lastHeartbeat now_lastOwnerHeartbeat now_pong : Z)
| Disconnect.

(** Dispatch of one client event to its handler. *)
Definition handle (socket : string) (e : ClientEvent) (st : Store)
  : Store * list Action :=
  match e with
  | RoomCreate data r1 r2 t1 t2 t3 =>
      on_room_create socket data r1 r2 t1 t2 t3 st
  | RoomJoin data now => on_room_join socket data now st
  | RoomLeave => handleLeaveRoom socket st
  | RoomListRequest => on_room_list socket st
  | PlayUpdate state => on_play_update socket state st
  | PlaySeek currentTime => on_play_seek socket currentTime st
  | PlayPlay => on_play_play socket st
  | PlayPause => on_play_pause socket st
  | PlayChange state => on_play_change socket state st
  | LiveChange state => on_live_change socket state st
  | ChatSend data t1 rnd t2 => on_chat_message socket data t1 rnd t2 st
  | VoiceOffer data => on_voice_offer socket data st
  | VoiceAnswer data => on_voice_answer socket data st
  | VoiceIce data => on_voice_ice socket data st
  | StateClear cb => on_state_clear socket cb st
  | Heartbeat t1 t2 t3 => on_heartbeat socket t1 t2 t3 st
  | Disconnect => handleLeaveRoom socket st
  end.

(** What the single thread of the process is given to run. *)
Inductive Input : Type :=
| Connection (socket : string) (token : option string)
| FromClient (socket : string) (e : ClientEvent)
| CleanupTimer (now : Z) (throws : Action -> bool)
| Signal               (* SIGINT or SIGTERM *)
| HttpServerClosed     (* the callback of [httpServer.close] *)
| ForcedExitTimer.     (* the 10 s timer armed by [shutdown] *)

Definition mem (s : string) (l : list string) : bool :=
  existsb (String.eqb s) l.

Definition isDisconnect (e : ClientEvent) : bool :=
  match e with
  | Disconnect => true
  | _ => false
  end.

Definition step (p : Process) (i : Input) : Process * list Action :=
  match lifecycle p with
  | Exited _ => (p, [])
  | _ =>
      match i with
      | Connection socket token =>
          let '(registered, out) := on_connection (authKey p) socket token in
          (if registered
           then mkProcess (authKey p) (server p) (socket :: sockets p)
                  (cleanupInterval p) (lifecycle p)
           else p, out)
      | FromClient socket e =>
          if mem socket (sockets p) then
            let '(st, out) := handle socket e (server p) in
            let p1 := with_server st p in
            (if isDisconnect e
             then mkProcess (authKey p1) (server p1)
                    (filter (fun s => negb (String.eqb s socket)) (sockets p1))
                    (cleanupInterval p1) (lifecycle p1)
             else p1, out)
          else (p, [])
      | CleanupTimer now throws =>
          if cleanupInterval p then
            match cleanupTick throws now (server p) with
            | Normal st out => (with_server st p, out)
            | Thrown st out => (uncaughtException (with_server st p), out)
            end
          else (p, [])
      | Signal => (shutdown p, [])
      | HttpServerClosed =>
          match lifecycle p with
          | ShuttingDown =>
              (mkProcess (authKey p) (server p) (sockets p)
                 (cleanupInterval p) (Exited 0), [])
          | _ => (p, [])
          end
      | ForcedExitTimer =>
          match lifecycle p with
          | ShuttingDown =>
              (mkProcess (authKey p) (server p) (sockets p)
                 (cleanupInterval p) (Exited 1), [])
          | _ => (p, [])
          end
      end
  end.

(** The process after a sequence of inputs, with everything it sent. *)
Fixpoint run (p : Process) (inputs : list Input) : Process * list Action :=
  match inputs with
  | [] => (p, [])
  | i :: rest =>
      let '(p1, out1) := step p i in
      let '(p2, out2) := run p1 rest in
      (p2, (out1 ++ out2)%list)
  end.

Definition reachable (p : Process) : Prop :=
  exists key inputs, fst (run (startProcess key) inputs) = p.

(** ** Observations used in the statements *)

(** The room a call addresses, if it addresses one. *)
Definition addressedRoom (a : Action) : option string :=
  match a with
  | SocketTo _ room _ => Some room
  | IoTo room _ => Some room
  | _ => None
  end.

Definition eventOf (a : Action) : option ServerEvent :=
  match a with
  | SocketEmit _ e => Some e
  | SocketTo _ _ e => Some e
  | IoTo _ e => Some e
  | _ => None
  end.

(** The events sent to room [roomId], in order. *)
Fixpoint eventsFor (roomId : string) (out : list Action) : list ServerEvent :=
  match out with
  | [] => []
  | a :: rest =>
      match addressedRoom a, eventOf a with
      | Some r, Some e =>
          if String.eqb r roomId then e :: eventsFor roomId rest
          else eventsFor roomId rest
      | _, _ => eventsFor roomId rest
      end
  end.

Definition isStateCleared (e : ServerEvent) : bool :=
  match e with
  | state_cleared => true
  | _ => false
  end.

Definition isRoomDeleted (e : ServerEvent) : bool :=
  match e with
  | room_deleted => true
  | _ => false
  end.

(** How many times [state:cleared] goes to room [roomId]. *)
Definition stateClearedCount (roomId : string) (out : list Action) : nat :=
  List.length (filter isStateCleared (eventsFor roomId out)).

Definition roomDeletedCount (roomId : string) (out : list Action) : nat :=
  List.length (filter isRoomDeleted (eventsFor roomId out)).

(** The store invariant: every map has distinct keys, rooms and membership
    maps share their keys, and [memberCount] is the size of the membership
    map. *)
Definition countSynced (st : Store) : Prop :=
  forall roomId room,
    JsMap.get roomId (rooms st) = Some room ->
    exists roomMembers,
      JsMap.get roomId (members st) = Some roomMembers /\
      Room.memberCount room = JsMap.size roomMembers.

Definition sameRooms (st : Store) : Prop :=
  forall roomId,
    JsMap.get roomId (rooms st) = None <->
    JsMap.get roomId (members st) = None.

Definition membersOk (st : Store) : Prop :=
  forall roomId roomMembers,
    JsMap.get roomId (members st) = Some roomMembers -> JsMap.ok roomMembers.

Record wf (st : Store) : Prop := mkWf {
  wf_rooms : JsMap.ok (rooms st);
  wf_members : JsMap.ok (members st);
  wf_sessions : JsMap.ok (socketToRoom st);
  wf_inner : membersOk st;
  wf_same : sameRooms st;
  wf_count : countSynced st
}.

(** The conditions of the two [if]s of the scan callback. *)
Definition clearDue (now : Z) (room : Room.t) : bool :=
  (now - Room.lastOwnerHeartbeat room >? clearStateTimeout)%Z
  && isSome (Room.currentState room).

Definition deleteDue (now : Z) (room : Room.t) : bool :=
  (now - Room.lastOwnerHeartbeat room >? deleteTimeout)%Z.

(** The owner-only handlers with the event each re-emits. *)
Definition ownerOnlyHandlers
  : list ((string -> Payload -> Store -> Store * list Action)
          * (Payload -> ServerEvent)) :=
  [(on_play_update, play_update);
   (on_play_change, play_change);
   (on_live_change, live_change)].

(** An [emit] that raises when [room:deleted] goes to [roomId]. *)
Definition faultAt (roomId : string) (a : Action) : bool :=
  match a with
  | IoTo r room_deleted => String.eqb r roomId
  | _ => false
  end.

(** ** A concrete session, after the end-to-end scenario of the
    specification: A creates "Movie Night", B joins, A publishes a state. *)

Definition demoKey : string := "secret".

Definition movieNight : CreateData.t :=
  CreateData.mk "Movie Night" None None true "alice".

Definition playing120 : Payload := "{currentTime:120,isPlaying:true}".

Definition connectA : Input := Connection "sockA" (Some demoKey).
Definition connectB : Input := Connection "sockB" (Some demoKey).

Definition createA : Input :=
  FromClient "sockA"
    (RoomCreate movieNight "0.k3x9q2mzab" "0.7hq2ovc81d" 1000 1000 1000).

Definition joinB : JoinData.t := JoinData.mk "K3X9Q2" None "bob".

Definition demoInputs : list Input :=
  [connectA; createA; connectB; FromClient "sockB" (RoomJoin joinB 2000);
   FromClient "sockA" (PlayUpdate playing120)].

Definition demoProcess : Process := fst (run (startProcess demoKey) demoInputs).

Definition demoRoom : Room.t :=
  Room.mk "K3X9Q2" "Movie Night" None None true "sockA" "alice" "7HQ2OV" 2
    (Some playing120) 1000 1000.

(** A alone in the room it created. *)
Definition soloProcess : Process :=
  fst (run (startProcess demoKey) [connectA; createA]).

(** A connected and authenticated, in no room. *)
Definition lobbyProcess : Process :=
  fst (run (startProcess demoKey) [connectA]).

(** A created a room and went silent; the scan at 400 s deleted it. *)
Definition orphanProcess : Process :=
  fst (run (startProcess demoKey)
         [connectA; createA; CleanupTimer 400000 never]).

(** B's create draws a number with the same first six digits as A's. *)
Definition collidingCreate : ClientEvent :=
  RoomCreate (CreateData.mk "Other" None None false "bob") "0.k3x9q2zzzz"
    "0.c0ffee1234" 5000 5000 5000.

Definition beforeCollision : Process :=
  fst (run (startProcess demoKey) [connectA; createA; connectB]).

(** Two rooms, both owners silent. *)
Definition twoRooms : Process :=
  fst (run (startProcess demoKey)
         [connectA; createA; connectB;
          FromClient "sockB"
            (RoomCreate (CreateData.mk "Second" None None true "bob")
               "0.zzz999aaaa" "0.c0ffee1234" 2000 2000 2000)]).

Definition secondRoom : Room.t :=
  Room.mk "ZZZ999" "Second" None None true "sockB" "bob" "C0FFEE" 1 None
    2000 2000.

(** ** Statistics and the HTTP endpoint that serves them *)

Module RoomSummary.
Record t : Type := mk {
  id : string;
  name : string;
  memberCount : nat;
  isPublic : bool;
  hasPassword : bool;
  createdAt : Z
}.
End RoomSummary.

Module Stats.
Record t : Type := mk {
  totalRooms : nat;
  totalMembers : nat;
  rooms : list RoomSummary.t
}.
End Stats.

(** The callback of [map] in [getStats]; [!!room.password] is the
    truthiness of the password. *)
Definition summarize (room : Room.t) : RoomSummary.t :=
  RoomSummary.mk (Room.id room) (Room.name room) (Room.memberCount room)
    (Room.isPublic room) (truthy (Room.password room)) (Room.createdAt room).

(** [getStats] *)
Definition getStats (st : Store) : Stats.t :=
  Stats.mk (JsMap.size (rooms st))
    (fold_left (fun sum m => sum + JsMap.size m)
       (JsMap.values (members st)) 0)
    (map summarize (JsMap.values (rooms st))).

Inductive HttpReply : Type :=
| Unauthorized401
| StatsJson (stats : Stats.t).

(** [app.get('/stats', ...)] of index.ts; [authorization] is
    [req.headers.authorization]. *)
Definition statsEndpoint (key : string) (authorization : option string)
  (st : Store) : HttpReply :=
  if strict_neq authorization (Some ("Bearer " ++ key))
  then Unauthorized401
  else StatsJson (getStats st).

(** ** Further observations *)

Definition isLowerLetter (c : ascii) : bool :=
  let n := nat_of_ascii c in (97 <=? n)%nat && (n <=? 122)%nat.

Fixpoint anyChar (f : ascii -> bool) (s : string) : bool :=
  match s with
  | EmptyString => false
  | String c rest => f c || anyChar f rest
  end.

Definition isDigit (c : ascii) : bool :=
  let n := nat_of_ascii c in (48 <=? n)%nat && (n <=? 57)%nat.

Fixpoint allChars (f : ascii -> bool) (s : string) : bool :=
  match s with
  | EmptyString => true
  | String c rest => f c && allChars f rest
  end.

(** A call that sends an [error] event to a room. *)
Definition isErrorBroadcast (a : Action) : bool :=
  match a with
  | SocketTo _ _ (error_ _) => true
  | IoTo _ (error_ _) => true
  | _ => false
  end.

(** The fields of a room that are written when it is created. *)
Definition sameIdentity (a b : Room.t) : Prop :=
  Room.id a = Room.id b /\
  Room.name a = Room.name b /\
  Room.description a = Room.description b /\
  Room.password a = Room.password b /\
  Room.isPublic a = Room.isPublic b /\
  Room.ownerId a = Room.ownerId b /\
  Room.ownerName a = Room.ownerName b /\
  Room.ownerToken a = Room.ownerToken b /\
  Room.createdAt a = Room.createdAt b.

Definition isRoomCreate (e : ClientEvent) : bool :=
  match e with
  | RoomCreate _ _ _ _ _ _ => true
  | _ => false
  end.

(** Keys and the ids stored under them agree. *)
Definition idsMatch (st : Store) : Prop :=
  (forall roomId room,
     JsMap.get roomId (rooms st) = Some room -> Room.id room = roomId) /\
  (forall roomId roomMembers userId member,
     JsMap.get roomId (members st) = Some roomMembers ->
     JsMap.get userId roomMembers = Some member ->
     Member.id member = userId) /\
  (forall socket info,
     JsMap.get socket (socketToRoom st) = Some info ->
     RoomMemberInfo.userId info = socket).

(** No membership map is empty. *)
Definition noEmptyRoom (st : Store) : Prop :=
  forall roomId roomMembers,
    JsMap.get roomId (members st) = Some roomMembers ->
    (0 < JsMap.size roomMembers)%nat.

(** The room map and the membership map list their keys in one order. *)
Definition keysAligned (st : Store) : Prop :=
  JsMap.keys (rooms st) = JsMap.keys (members st).

Definition sumMemberCounts (l : list RoomSummary.t) : nat :=
  fold_left (fun sum r => sum + RoomSummary.memberCount r) l 0.

(** Three more facts about reachable stores, kept together. *)
Definition shaped (st : Store) : Prop :=
  idsMatch st /\ noEmptyRoom st /\ keysAligned st.

(** A call that sends an [error] event, to one connection or to a room. *)
Definition emitsError (a : Action) : bool :=
  match eventOf a with
  | Some (error_ _) => true
  | _ => false
  end.

(** * Facts about the map operations *)

Module JsMapFacts.
Import JsMap.

Section Facts.
Context {V : Type}.
Implicit Types (m : JsMap.t V) (k : string) (v : V).

Ltac split_key k k' :=
  destruct (String.eqb_spec k k') as [?|?]; subst; simpl; try congruence.

Lemma get_set_eq k v m : get k (set k v m) = Some v.
Proof.
  induction m as [|[k' v'] m IH]; simpl.
  - now rewrite String.eqb_refl.
  - split_key k k'.
    + now rewrite String.eqb_refl.
    + destruct (String.eqb_spec k k'); congruence.
Qed.

Lemma get_set_ne k k' v m : k <> k' -> get k' (set k v m) = get k' m.
Proof.
  intros Hne. induction m as [|[k0 v0] m IH]; simpl.
  - destruct (String.eqb_spec k' k); congruence.
  - split_key k k0.
    + destruct (String.eqb_spec k' k0); congruence.
    + now rewrite IH.
Qed.

Lemma get_delete_eq k m : get k (delete k m) = None.
Proof.
  induction m as [|[k' v'] m IH]; simpl; auto.
  split_key k k'. destruct (String.eqb_spec k k'); congruence.
Qed.

Lemma get_delete_ne k k' m : k <> k' -> get k' (delete k m) = get k' m.
Proof.
  intros Hne. induction m as [|[k0 v0] m IH]; simpl; auto.
  split_key k k0.
  - destruct (String.eqb_spec k' k0); congruence.
  - now rewrite IH.
Qed.

Lemma get_None_keys k m : get k m = None <-> ~ In k (keys m).
Proof.
  induction m as [|[k' v'] m IH]; simpl.
  - tauto.
  - split_key k k'.
    + split; [discriminate | intros H; exfalso; apply H; now left].
    + rewrite IH. split; [intros H [E|I]; congruence || tauto | tauto].
Qed.

Lemma get_Some_In k v m : get k m = Some v -> In (k, v) m.
Proof.
  induction m as [|[k' v'] m IH]; simpl; [discriminate|].
  split_key k k'.
  - intros [= ->]. now left.
  - intros H. right. auto.
Qed.

Lemma In_get k v m : ok m -> In (k, v) m -> get k m = Some v.
Proof.
  unfold ok. induction m as [|[k' v'] m IH]; simpl; [tauto|].
  intros Hnd [E|I].
  - injection E as -> ->. now rewrite String.eqb_refl.
  - inversion Hnd as [|? ? Hnotin Hnd']; subst.
    split_key k k'.
    + exfalso. apply Hnotin. change k' with (fst (k', v)). now apply in_map.
    + auto.
Qed.

Lemma keys_set k k' v m : In k' (keys (set k v m)) <-> k' = k \/ In k' (keys m).
Proof.
  induction m as [|[k0 v0] m IH]; simpl.
  - intuition congruence.
  - split_key k k0.
    + intuition congruence.
    + rewrite IH. intuition congruence.
Qed.

Lemma keys_delete k k' m :
  In k' (keys (delete k m)) <-> k' <> k /\ In k' (keys m).
Proof.
  induction m as [|[k0 v0] m IH]; simpl.
  - tauto.
  - split_key k k0.
    + rewrite IH. intuition congruence.
    + rewrite IH. intuition congruence.
Qed.

Lemma ok_empty : ok (@empty V).
Proof. constructor. Qed.

Lemma ok_set k v m : ok m -> ok (set k v m).
Proof.
  unfold ok, keys. induction m as [|[k0 v0] m IH]; simpl; intros Hnd.
  - constructor; [simpl; tauto | constructor].
  - inversion Hnd as [|? ? Hnotin Hnd']; subst.
    destruct (String.eqb_spec k k0) as [->|Hne]; simpl.
    + now constructor.
    + constructor; auto. fold (keys (set k v m)). rewrite keys_set.
      intuition congruence.
Qed.

Lemma ok_delete k m : ok m -> ok (delete k m).
Proof.
  unfold ok, keys. induction m as [|[k0 v0] m IH]; simpl; intros Hnd; auto.
  inversion Hnd as [|? ? Hnotin Hnd']; subst.
  destruct (String.eqb_spec k k0) as [->|Hne]; simpl; auto.
  constructor; auto. fold (keys (delete k m)). rewrite keys_delete. tauto.
Qed.

Lemma size_set_present k v v0 m :
  get k m = Some v0 -> size (set k v m) = size m.
Proof.
  unfold size. induction m as [|[k' v'] m IH]; simpl; [discriminate|].
  split_key k k'. intros H. now rewrite IH.
Qed.

End Facts.
End JsMapFacts.

(** * The store invariant is kept by every handler *)

Section Invariant.
Import JsMap JsMapFacts.

Lemma wf_emptyStore : wf emptyStore.
Proof.
  constructor; try apply ok_empty.
  - intros r ms H. discriminate.
  - intros r. simpl. tauto.
  - intros r room H. discriminate.
Qed.

(** Writing a room together with a membership map of the matching size. *)
Lemma wf_put st roomId room1 ms1 :
  wf st -> ok ms1 -> Room.memberCount room1 = size ms1 ->
  wf (with_rooms (set roomId room1) (with_members (set roomId ms1) st)).
Proof.
  intros [Hr Hm Hs Hi Hsame Hc] Hok Hcount.
  constructor; simpl; auto using ok_set.
  - intros r ms; simpl. destruct (string_dec roomId r) as [->|Hne].
    + rewrite get_set_eq. now intros [= <-].
    + rewrite get_set_ne by assumption. apply Hi.
  - intros r; simpl. destruct (string_dec roomId r) as [->|Hne].
    + rewrite !get_set_eq. split; discriminate.
    + rewrite !get_set_ne by assumption. apply Hsame.
  - intros r room; simpl. destruct (string_dec roomId r) as [->|Hne].
    + rewrite !get_set_eq. intros [= <-]. eauto.
    + rewrite !get_set_ne by assumption. apply Hc.
Qed.

(** Rewriting a room that exists, with its count untouched. *)
Lemma wf_set_room st roomId room room1 :
  wf st -> get roomId (rooms st) = Some room ->
  Room.memberCount room1 = Room.memberCount room ->
  wf (with_rooms (set roomId room1) st).
Proof.
  intros [Hr Hm Hs Hi Hsame Hc] Hget Hcount.
  constructor; simpl; auto using ok_set.
  - intros r; simpl. destruct (string_dec roomId r) as [->|Hne].
    + rewrite get_set_eq. split; [discriminate|].
      intros E. apply Hsame in E. congruence.
    + rewrite get_set_ne by assumption. apply Hsame.
  - intros r room'; simpl. destruct (string_dec roomId r) as [->|Hne].
    + rewrite get_set_eq. intros [= <-]. rewrite Hcount. now apply Hc.
    + rewrite get_set_ne by assumption. apply Hc.
Qed.

(** Rewriting a membership map that exists, with its size untouched. *)
Lemma wf_set_members st roomId ms ms1 :
  wf st -> get roomId (members st) = Some ms -> ok ms1 ->
  size ms1 = size ms ->
  wf (with_members (set roomId ms1) st).
Proof.
  intros [Hr Hm Hs Hi Hsame Hc] Hget Hok Hsize.
  constructor; simpl; auto using ok_set.
  - intros r ms'; simpl. destruct (string_dec roomId r) as [->|Hne].
    + rewrite get_set_eq. now intros [= <-].
    + rewrite get_set_ne by assumption. apply Hi.
  - intros r; simpl. destruct (string_dec roomId r) as [->|Hne].
    + rewrite get_set_eq. split; [|discriminate].
      intros E. apply Hsame in E. congruence.
    + rewrite get_set_ne by assumption. apply Hsame.
  - intros r room; simpl. destruct (string_dec roomId r) as [->|Hne].
    + rewrite get_set_eq. intros Hroom.
      destruct (Hc _ _ Hroom) as (ms0 & Hms0 & Hn).
      exists ms1. split; [reflexivity|]. congruence.
    + rewrite get_set_ne by assumption. apply Hc.
Qed.

Lemma wf_deleteRoom st roomId : wf st -> wf (fst (deleteRoom roomId st)).
Proof.
  intros [Hr Hm Hs Hi Hsame Hc].
  constructor; simpl; auto using ok_delete.
  - intros r ms; simpl. destruct (string_dec roomId r) as [->|Hne].
    + rewrite get_delete_eq. discriminate.
    + rewrite get_delete_ne by assumption. apply Hi.
  - intros r; simpl. destruct (string_dec roomId r) as [->|Hne].
    + rewrite !get_delete_eq. tauto.
    + rewrite !get_delete_ne by assumption. apply Hsame.
  - intros r room; simpl. destruct (string_dec roomId r) as [->|Hne].
    + rewrite get_delete_eq. discriminate.
    + rewrite !get_delete_ne by assumption. apply Hc.
Qed.

Lemma wf_sessions_change st f :
  wf st -> ok (f (socketToRoom st)) -> wf (with_socketToRoom f st).
Proof.
  intros [Hr Hm Hs Hi Hsame Hc] Hok. constructor; simpl; auto.
Qed.

(** In a well-formed store a room has a membership map and conversely. *)
Lemma wf_room_members st roomId room :
  wf st -> get roomId (rooms st) = Some room ->
  exists ms, get roomId (members st) = Some ms /\
             Room.memberCount room = size ms.
Proof. intros H. apply (wf_count _ H). Qed.

Lemma wf_members_room st roomId ms :
  wf st -> get roomId (members st) = Some ms ->
  exists room, get roomId (rooms st) = Some room.
Proof.
  intros H Hms. destruct (get roomId (rooms st)) as [room|] eqn:E; eauto.
  apply (wf_same _ H) in E. congruence.
Qed.

Lemma wf_on_room_create socket data r1 r2 t1 t2 t3 st :
  wf st -> wf (fst (on_room_create socket data r1 r2 t1 t2 t3 st)).
Proof.
  intros H. unfold on_room_create. simpl fst.
  apply wf_sessions_change.
  - apply (wf_put st (generateRoomId r1)); auto.
    apply (ok_set socket _ empty), ok_empty.
  - simpl. apply ok_set, (wf_sessions _ H).
Qed.

Lemma wf_on_room_join socket data now st :
  wf st -> wf (fst (on_room_join socket data now st)).
Proof.
  intros H. unfold on_room_join.
  destruct (get (JoinData.roomId data) (rooms st)) as [room|] eqn:Hroom;
    [|assumption].
  destruct (truthy (Room.password room) && _); [assumption|].
  destruct (wf_room_members _ _ _ H Hroom) as (ms & Hms & Hn).
  rewrite Hms. simpl fst.
  apply wf_sessions_change.
  - apply wf_put; auto. apply ok_set, (wf_inner _ H _ _ Hms).
  - simpl. apply ok_set, (wf_sessions _ H).
Qed.

Lemma wf_handleLeaveRoom socket st :
  wf st -> wf (fst (handleLeaveRoom socket st)).
Proof.
  intros H. unfold handleLeaveRoom.
  destruct (get socket (socketToRoom st)) as [info|]; [|assumption].
  destruct (get (RoomMemberInfo.roomId info) (members st)) as [ms|] eqn:Hms.
  - destruct (wf_members_room _ _ _ H Hms) as (room & Hroom).
    simpl rooms. rewrite Hroom.
    assert (Hput : wf (with_rooms
                     (set (RoomMemberInfo.roomId info)
                        (Room.set_memberCount
                           (size (delete (RoomMemberInfo.userId info) ms))
                           room))
                     (with_members
                        (set (RoomMemberInfo.roomId info)
                           (delete (RoomMemberInfo.userId info) ms)) st))).
    { apply wf_put; auto. apply ok_delete, (wf_inner _ H _ _ Hms). }
    destruct (size (delete (RoomMemberInfo.userId info) ms) =? 0)%nat.
    + simpl fst. apply wf_sessions_change.
      * apply (wf_deleteRoom _ (RoomMemberInfo.roomId info)) in Hput.
        exact Hput.
      * simpl. apply ok_delete, (wf_sessions _ H).
    + simpl fst. apply wf_sessions_change; [exact Hput|].
      simpl. apply ok_delete, (wf_sessions _ H).
  - simpl fst. apply wf_sessions_change; [assumption|].
    apply ok_delete, (wf_sessions _ H).
Qed.

Lemma wf_owner_state_change ev socket state st :
  wf st -> wf (fst (owner_state_change ev socket state st)).
Proof.
  intros H. unfold owner_state_change.
  destruct (get socket (socketToRoom st)) as [info|]; [|assumption].
  destruct (negb (RoomMemberInfo.isOwner info)); [assumption|].
  destruct (get (RoomMemberInfo.roomId info) (rooms st)) as [room|] eqn:Hroom;
    [|assumption].
  simpl fst. now apply (wf_set_room _ _ room).
Qed.

Lemma wf_on_state_clear socket cb st :
  wf st -> wf (fst (on_state_clear socket cb st)).
Proof.
  intros H. unfold on_state_clear.
  destruct (get socket (socketToRoom st)) as [info|]; [|assumption].
  destruct (negb (RoomMemberInfo.isOwner info)); [assumption|].
  destruct (get (RoomMemberInfo.roomId info) (rooms st)) as [room|] eqn:Hroom;
    [|assumption].
  simpl fst. now apply (wf_set_room _ _ room).
Qed.

Lemma wf_on_heartbeat socket t1 t2 t3 st :
  wf st -> wf (fst (on_heartbeat socket t1 t2 t3 st)).
Proof.
  intros H. unfold on_heartbeat.
  destruct (get socket (socketToRoom st)) as [info|]; [|assumption].
  simpl fst.
  set (st1 := match get (RoomMemberInfo.roomId info) (members st) with
              | Some _ => _ | None => _ end).
  assert (H1 : wf st1).
  { subst st1.
    destruct (get (RoomMemberInfo.roomId info) (members st)) as [ms|] eqn:Hms;
      [|assumption].
    destruct (get (RoomMemberInfo.userId info) ms) as [m|] eqn:Hm;
      [|assumption].
    apply (wf_set_members _ _ ms); auto.
    - apply ok_set, (wf_inner _ H _ _ Hms).
    - now apply (size_set_present _ _ m). }
  destruct (RoomMemberInfo.isOwner info); [|assumption].
  destruct (get (RoomMemberInfo.roomId info) (rooms st1)) as [room|] eqn:Hroom;
    [|assumption].
  now apply (wf_set_room _ _ room).
Qed.

Lemma wf_relay e socket st : wf st -> wf (fst (relay e socket st)).
Proof.
  intros H. unfold relay. now destruct (get socket (socketToRoom st)).
Qed.

Lemma wf_signal ev socket data st :
  wf st -> wf (fst (signal ev socket data st)).
Proof.
  intros H. unfold signal. now destruct (get socket (socketToRoom st)).
Qed.

Lemma wf_handle socket e st : wf st -> wf (fst (handle socket e st)).
Proof.
  intros H. destruct e; simpl handle.
  - now apply wf_on_room_create.
  - now apply wf_on_room_join.
  - now apply wf_handleLeaveRoom.
  - assumption.
  - now apply wf_owner_state_change.
  - now apply wf_relay.
  - now apply wf_relay.
  - now apply wf_relay.
  - now apply wf_owner_state_change.
  - now apply wf_owner_state_change.
  - unfold on_chat_message. now destruct (get socket (socketToRoom st)).
  - now apply wf_signal.
  - now apply wf_signal.
  - now apply wf_signal.
  - now apply wf_on_state_clear.
  - now apply wf_on_heartbeat.
  - now apply wf_handleLeaveRoom.
Qed.

End Invariant.

(** * The reconciliation scan *)

Section Scan.
Import JsMap JsMapFacts.

Lemma eventsFor_app roomId out1 out2 :
  eventsFor roomId (out1 ++ out2) =
  (eventsFor roomId out1 ++ eventsFor roomId out2)%list.
Proof.
  induction out1 as [|a out1 IH]; simpl; auto.
  destruct (addressedRoom a), (eventOf a); auto.
  destruct (String.eqb _ _); simpl; now rewrite IH.
Qed.

(** The three shapes a visit can give the store. *)
Ltac visit_cases :=
  unfold cleanupRoom;
  repeat match goal with
         | |- context [if ?b then _ else _] => destruct b eqn:?
         end; cbn [completionStore completionOut deleteRoom isThrown].

Lemma cleanupRoom_sessions throws now roomId room st :
  socketToRoom (completionStore (cleanupRoom throws now roomId room st)) =
  socketToRoom st.
Proof. visit_cases; reflexivity. Qed.

(** A visit reads and writes only the key it visits. *)
Lemma cleanupRoom_frame throws now roomId room st r :
  r <> roomId ->
  let c := cleanupRoom throws now roomId room st in
  get r (rooms (completionStore c)) = get r (rooms st) /\
  get r (members (completionStore c)) = get r (members st) /\
  eventsFor r (completionOut c) = [].
Proof.
  intros Hne. assert (Hne' : roomId <> r) by congruence.
  visit_cases; simpl;
    repeat match goal with
           | |- context [String.eqb roomId r] =>
               destruct (String.eqb_spec roomId r); [congruence|]
           end;
    rewrite ?get_delete_ne, ?get_set_ne by assumption; auto.
Qed.

Lemma cleanupRoom_wf throws now roomId room st :
  wf st -> get roomId (rooms st) = Some room ->
  wf (completionStore (cleanupRoom throws now roomId room st)).
Proof.
  intros H Hroom.
  assert (Hc : wf (with_rooms (set roomId (Room.set_currentState None room))
                     st)) by now apply (wf_set_room _ _ room).
  visit_cases; auto.
  - apply (wf_deleteRoom _ roomId Hc).
  - apply (wf_deleteRoom _ roomId H).
Qed.

Lemma forEachRoom_app throws now l1 l2 st out :
  forEachRoom throws now (l1 ++ l2) st out =
  match forEachRoom throws now l1 st out with
  | Normal st1 out1 => forEachRoom throws now l2 st1 out1
  | Thrown st1 out1 => Thrown st1 out1
  end.
Proof.
  revert st out. induction l1 as [|[r room] l1 IH]; intros st out; simpl; auto.
  destruct (cleanupRoom throws now r room st); auto.
Qed.

Lemma forEachRoom_sessions throws now entries st out :
  socketToRoom (completionStore (forEachRoom throws now entries st out)) =
  socketToRoom st.
Proof.
  revert st out. induction entries as [|[r room] l IH]; intros st out; simpl;
    auto.
  pose proof (cleanupRoom_sessions throws now r room st) as Hs.
  destruct (cleanupRoom throws now r room st); simpl in *; auto.
  now rewrite IH.
Qed.

(** A scan that does not visit [r] leaves it as it was and sends it
    nothing. *)
Lemma forEachRoom_frame throws now entries st out r :
  ~ In r (keys entries) ->
  let c := forEachRoom throws now entries st out in
  get r (rooms (completionStore c)) = get r (rooms st) /\
  get r (members (completionStore c)) = get r (members st) /\
  eventsFor r (completionOut c) = eventsFor r out.
Proof.
  revert st out. induction entries as [|[r0 room] l IH]; intros st out Hnot;
    simpl; auto.
  simpl in Hnot.
  assert (Hne : r <> r0) by (intros ->; apply Hnot; now left).
  destruct (cleanupRoom_frame throws now r0 room st r Hne) as (Hr & Hm & He).
  destruct (cleanupRoom throws now r0 room st) as [st1 out1|st1 out1];
    simpl in *.
  - destruct (IH st1 (out ++ out1)%list) as (Hr' & Hm' & He'); [tauto|].
    rewrite Hr', Hm', He', eventsFor_app, He, app_nil_r. auto.
  - rewrite eventsFor_app, He, app_nil_r. auto.
Qed.

Lemma forEachRoom_wf throws now entries st out :
  NoDup (keys entries) ->
  (forall r room, In (r, room) entries -> get r (rooms st) = Some room) ->
  wf st ->
  wf (completionStore (forEachRoom throws now entries st out)).
Proof.
  revert st out. induction entries as [|[r0 room] l IH];
    intros st out Hnd Hin H; simpl; auto.
  inversion Hnd as [|? ? Hnotin Hnd']; subst.
  assert (Hroom : get r0 (rooms st) = Some room) by (apply Hin; now left).
  pose proof (cleanupRoom_wf throws now r0 room st H Hroom) as Hwf.
  assert (Hothers : forall r room', In (r, room') l ->
            get r (rooms (completionStore
                            (cleanupRoom throws now r0 room st))) =
            Some room').
  { intros r room' Hl.
    assert (Hne : r <> r0).
    { intros ->. apply Hnotin. change r0 with (fst (r0, room')).
      now apply in_map. }
    destruct (cleanupRoom_frame throws now r0 room st r Hne) as (-> & _).
    apply Hin. now right. }
  destruct (cleanupRoom throws now r0 room st) as [st1 out1|st1 out1];
    simpl in *; auto.
Qed.

Lemma cleanupTick_wf throws now st :
  wf st -> wf (completionStore (cleanupTick throws now st)).
Proof.
  intros H. unfold cleanupTick. apply forEachRoom_wf; auto.
  - apply (wf_rooms _ H).
  - intros r room. apply In_get, (wf_rooms _ H).
Qed.

(** Without a raising call the scan visits every room. *)
Lemma cleanupRoom_never now roomId room st :
  isThrown (cleanupRoom never now roomId room st) = false.
Proof. unfold never. visit_cases; reflexivity. Qed.

Lemma forEachRoom_never now entries st out :
  isThrown (forEachRoom never now entries st out) = false.
Proof.
  revert st out. induction entries as [|[r room] l IH]; intros st out; simpl;
    auto.
  pose proof (cleanupRoom_never now r room st) as Hn.
  destruct (cleanupRoom never now r room st); [apply IH | discriminate].
Qed.

End Scan.

(** * Reachable processes keep the invariant *)

Section Reachability.

Lemma step_wf p i : wf (server p) -> wf (server (fst (step p i))).
Proof.
  intros H. unfold step.
  destruct (lifecycle p) eqn:Hl; try assumption.
  all: destruct i; simpl; try assumption.
  all: try (destruct (on_connection (authKey p) socket token) as [[|] out];
            simpl; assumption).
  all: try (destruct (mem socket (sockets p)); [|assumption];
            pose proof (wf_handle socket e (server p) H) as Hh;
            destruct (handle socket e (server p)) as [st out];
            destruct (isDisconnect e); simpl in *; assumption).
  all: try (destruct (cleanupInterval p); [|assumption];
            pose proof (cleanupTick_wf throws now (server p) H) as Ht;
            destruct (cleanupTick throws now (server p)); simpl in *;
            assumption).
Qed.

Lemma run_wf inputs p :
  wf (server p) -> wf (server (fst (run p inputs))).
Proof.
  revert p. induction inputs as [|i rest IH]; intros p H; simpl; auto.
  pose proof (step_wf p i H) as Hs.
  destruct (step p i) as [p1 out1]. simpl in Hs.
  specialize (IH p1 Hs). destruct (run p1 rest) as [p2 out2]. exact IH.
Qed.

Lemma reachable_wf p : reachable p -> wf (server p).
Proof.
  intros (key & inputs & <-). apply run_wf. apply wf_emptyStore.
Qed.

End Reachability.

(** * What one scan does to one room *)

Section ScanOneRoom.
Import JsMap JsMapFacts.

Lemma get_split {V : Type} (k : string) (v : V) (m : JsMap.t V) :
  ok m -> get k m = Some v ->
  exists l1 l2, m = (l1 ++ (k, v) :: l2)%list /\
                ~ In k (keys l1) /\ ~ In k (keys l2).
Proof.
  unfold ok, keys. induction m as [|[k0 v0] m IH]; simpl; [discriminate|].
  intros Hnd Hget. inversion Hnd as [|? ? Hnotin Hnd']; subst.
  destruct (String.eqb_spec k k0) as [->|Hne].
  - injection Hget as ->. exists [], m. simpl. tauto.
  - destruct (IH Hnd' Hget) as (l1 & l2 & -> & H1 & H2).
    exists ((k0, v0) :: l1), l2. simpl. intuition congruence.
Qed.

Lemma cleanupRoom_never_eq now roomId room st :
  cleanupRoom never now roomId room st =
  let st1 :=
    if clearDue now room
    then with_rooms (set roomId (Room.set_currentState None room)) st
    else st in
  let out1 := if clearDue now room then [IoTo roomId state_cleared] else [] in
  if deleteDue now room
  then Normal (fst (deleteRoom roomId st1))
         (out1 ++ [IoTo roomId room_deleted])%list
  else Normal st1 out1.
Proof.
  unfold cleanupRoom, clearDue, deleteDue, never.
  destruct (_ && _); destruct (_ >? deleteTimeout)%Z; reflexivity.
Qed.

(** The visit of [roomId], seen at the key [roomId]. *)
Lemma cleanupRoom_never_at now roomId room st :
  get roomId (rooms st) = Some room ->
  let c := cleanupRoom never now roomId room st in
  isThrown c = false /\
  eventsFor roomId (completionOut c) =
    ((if clearDue now room then [state_cleared] else []) ++
     (if deleteDue now room then [room_deleted] else []))%list /\
  get roomId (rooms (completionStore c)) =
    (if deleteDue now room then None
     else if clearDue now room then Some (Room.set_currentState None room)
     else Some room) /\
  get roomId (members (completionStore c)) =
    (if deleteDue now room then None else get roomId (members st)).
Proof.
  intros Hroom. cbv zeta. rewrite cleanupRoom_never_eq. cbv zeta.
  destruct (deleteDue now room), (clearDue now room); simpl;
    rewrite ?String.eqb_refl, ?get_delete_eq, ?get_set_eq; auto.
Qed.

Lemma cleanupTick_never_at now st roomId room :
  wf st -> get roomId (rooms st) = Some room ->
  exists st1 out,
    cleanupTick never now st = Normal st1 out /\
    eventsFor roomId out =
      ((if clearDue now room then [state_cleared] else []) ++
       (if deleteDue now room then [room_deleted] else []))%list /\
    get roomId (rooms st1) =
      (if deleteDue now room then None
       else if clearDue now room then Some (Room.set_currentState None room)
       else Some room) /\
    get roomId (members st1) =
      (if deleteDue now room then None else get roomId (members st)).
Proof.
  intros H Hroom.
  destruct (get_split _ _ _ (wf_rooms _ H) Hroom) as (l1 & l2 & Hl & H1 & H2).
  unfold cleanupTick. rewrite Hl, forEachRoom_app.
  pose proof (forEachRoom_never now l1 st []) as Hn1.
  destruct (forEachRoom_frame never now l1 st [] roomId H1)
    as (Hr1 & Hm1 & He1).
  destruct (forEachRoom never now l1 st []) as [sa oa|sa oa];
    [|discriminate]. simpl in Hr1, Hm1, He1.
  simpl forEachRoom.
  assert (Hroom1 : get roomId (rooms sa) = Some room) by congruence.
  destruct (cleanupRoom_never_at now roomId room sa Hroom1)
    as (Hn & He & Hr & Hm).
  destruct (cleanupRoom never now roomId room sa) as [sb ob|sb ob];
    [|discriminate]. simpl in He, Hr, Hm.
  pose proof (forEachRoom_never now l2 sb (oa ++ ob)%list) as Hn2.
  destruct (forEachRoom_frame never now l2 sb (oa ++ ob)%list roomId H2)
    as (Hr2 & Hm2 & He2).
  destruct (forEachRoom never now l2 sb (oa ++ ob)%list) as [sc oc|sc oc];
    [|discriminate]. simpl in Hr2, Hm2, He2.
  exists sc, oc. split; [reflexivity|].
  rewrite He2, eventsFor_app, He1, Hr2, Hm2, Hr, Hm, Hm1. simpl. auto.
Qed.

(** A room that is not in the map is sent nothing by a scan. *)
Lemma cleanupTick_absent throws now st roomId :
  get roomId (rooms st) = None ->
  eventsFor roomId (completionOut (cleanupTick throws now st)) = [].
Proof.
  intros Hnone. unfold cleanupTick.
  apply get_None_keys in Hnone.
  now destruct (forEachRoom_frame throws now (rooms st) st [] roomId Hnone)
    as (_ & _ & ->).
Qed.

End ScanOneRoom.

(** * The model on the end-to-end scenario of the specification *)

Section Scenario.
Import JsMap.

Example generateRoomId_six_digits : generateRoomId "0.k3x9q2mzab" = "K3X9Q2".
Proof. reflexivity. Qed.

(** [Math.random()] can print fewer digits: 0.5 is ["0.i"], 0 is ["0"]. *)
Example generateRoomId_short :
  generateRoomId "0.i" = "I" /\ generateRoomId "0" = "".
Proof. split; reflexivity. Qed.

Example generateMessageId_example :
  generateMessageId 1700000000123 "0.abcdefghijk" = "1700000000123-abcdefg".
Proof. reflexivity. Qed.

Example scenario_sent :
  snd (run (startProcess demoKey) demoInputs) =
  [SocketJoin "sockA" "K3X9Q2";
   Callback "sockA"
     (CreateOk
        (Room.mk "K3X9Q2" "Movie Night" None None true "sockA" "alice"
           "7HQ2OV" 1 None 1000 1000));
   SocketJoin "sockB" "K3X9Q2";
   SocketTo "sockB" "K3X9Q2"
     (room_member_joined (Member.mk "sockB" "bob" false 2000));
   Callback "sockB"
     (JoinOk
        (Room.mk "K3X9Q2" "Movie Night" None None true "sockA" "alice"
           "7HQ2OV" 2 None 1000 1000)
        [Member.mk "sockA" "alice" true 1000;
         Member.mk "sockB" "bob" false 2000]);
   SocketTo "sockA" "K3X9Q2" (play_update playing120)].
Proof. reflexivity. Qed.

(** B disconnects, A stays silent: one [state:cleared] after 30 s, none on
    the next tick, [room:deleted] after 5 min. *)
Example scenario_owner_silent :
  snd (run demoProcess
         [FromClient "sockB" Disconnect; CleanupTimer 32000 never;
          CleanupTimer 42000 never; CleanupTimer 400000 never]) =
  [SocketTo "sockB" "K3X9Q2" (room_member_left "sockB");
   SocketLeave "sockB" "K3X9Q2";
   IoTo "K3X9Q2" state_cleared;
   IoTo "K3X9Q2" room_deleted].
Proof. reflexivity. Qed.

Example wrong_token_is_refused :
  step (startProcess demoKey) (Connection "sockX" (Some "guess")) =
  (startProcess demoKey,
   [SocketEmit "sockX" (error_ "Unauthorized"); SocketDisconnect "sockX"]).
Proof. reflexivity. Qed.

Example wrong_password_is_refused :
  let locked :=
    fst (on_room_create "sockA"
           (CreateData.mk "Private" None (Some "hunter2") false "alice")
           "0.k3x9q2mzab" "0.7hq2ovc81d" 1000 1000 1000 emptyStore) in
  on_room_join "sockB" (JoinData.mk "K3X9Q2" (Some "hunter3") "bob") 2000
    locked = (locked, [Callback "sockB" (JoinFailed BadPassword)]) /\
  on_room_join "sockB" (JoinData.mk "K3X9Q2" None "bob") 2000 locked =
    (locked, [Callback "sockB" (JoinFailed BadPassword)]) /\
  on_room_join "sockB" (JoinData.mk "NOROOM" (Some "hunter2") "bob") 2000
    locked = (locked, [Callback "sockB" (JoinFailed RoomNotFound)]).
Proof. repeat split; reflexivity. Qed.

End Scenario.

(** * The claims *)

Section Claims.
Import JsMap JsMapFacts.

(** C1.  From every reachable state of the process and after every
    sequence of inputs (create, join, leave, disconnect, and any other), each
    existing room's [memberCount] equals the number of entries of that
    room's membership map.  Every prefix of a sequence is a sequence, so
    this holds between any two inputs. *)
Theorem memberCount_is_membership_size p inputs roomId room :
  reachable p ->
  let st := server (fst (run p inputs)) in
  get roomId (rooms st) = Some room ->
  exists roomMembers,
    get roomId (members st) = Some roomMembers /\
    Room.memberCount room = size roomMembers.
Proof.
  intros Hreach st. subst st.
  apply (wf_count _ (run_wf inputs p (reachable_wf _ Hreach))).
Qed.

Lemma memberCount_is_membership_size_witness :
  exists roomMembers,
    get "K3X9Q2"
      (members
         (server
            (fst (run soloProcess
                    [connectB; FromClient "sockB" (RoomJoin joinB 2000);
                     FromClient "sockA" (PlayUpdate playing120)])))) =
      Some roomMembers /\
    Room.memberCount demoRoom = size roomMembers.
Proof.
  apply (memberCount_is_membership_size soloProcess
           [connectB; FromClient "sockB" (RoomJoin joinB 2000);
            FromClient "sockA" (PlayUpdate playing120)]
           "K3X9Q2" demoRoom).
  - exists demoKey, [connectA; createA]. reflexivity.
  - reflexivity.
Defined.

(** C2.  On a reconciliation tick, for every room: when more than 30 s have
    passed since the last owner heartbeat and the playback state is not
    null, the state becomes null and [state:cleared] goes to the room
    exactly once, and a further tick sends none while the state stays null;
    when more than 5 min have passed the room is deleted ([room:deleted]
    sent, Room and membership map dropped), whoever is still a member. *)
Theorem cleanup_tick_clears_once_then_deletes p now roomId room :
  reachable p ->
  get roomId (rooms (server p)) = Some room ->
  let elapsed := (now - Room.lastOwnerHeartbeat room)%Z in
  exists st1 out,
    cleanupTick never now (server p) = Normal st1 out /\
    ((clearStateTimeout < elapsed)%Z -> Room.currentState room <> None ->
       stateClearedCount roomId out = 1 /\
       ((elapsed <= deleteTimeout)%Z ->
          get roomId (rooms st1) = Some (Room.set_currentState None room)) /\
       (forall now2,
          stateClearedCount roomId
            (completionOut (cleanupTick never now2 st1)) = 0)) /\
    (Room.currentState room = None -> stateClearedCount roomId out = 0) /\
    ((deleteTimeout < elapsed)%Z ->
       roomDeletedCount roomId out = 1 /\
       get roomId (rooms st1) = None /\
       get roomId (members st1) = None).
Proof.
  intros Hreach Hroom elapsed.
  pose proof (reachable_wf _ Hreach) as Hwf.
  destruct (cleanupTick_never_at now _ _ _ Hwf Hroom)
    as (st1 & out & Htick & Hev & Hrooms & Hmembers).
  exists st1, out. split; [exact Htick|].
  assert (Hwf1 : wf st1).
  { pose proof (cleanupTick_wf never now _ Hwf) as H1.
    now rewrite Htick in H1. }
  unfold stateClearedCount, roomDeletedCount. rewrite Hev.
  unfold clearDue, deleteDue in *. fold elapsed in Hev, Hrooms, Hmembers |- *.
  repeat split.
  - destruct (Room.currentState room); [|congruence].
    assert (E : (elapsed >? clearStateTimeout)%Z = true)
      by (apply Z.gtb_lt; assumption).
    rewrite E. simpl. now destruct (elapsed >? deleteTimeout)%Z.
  - intros Hle. rewrite Hrooms.
    assert (E : (elapsed >? deleteTimeout)%Z = false).
    { destruct (Z.gtb_spec elapsed deleteTimeout); [lia | reflexivity]. }
    rewrite E.
    assert (E2 : (elapsed >? clearStateTimeout)%Z = true)
      by (apply Z.gtb_lt; assumption).
    rewrite E2. destruct (Room.currentState room); [reflexivity|congruence].
  - intros now2.
    destruct (get roomId (rooms st1)) as [room1|] eqn:Hroom1.
    + destruct (cleanupTick_never_at now2 _ _ _ Hwf1 Hroom1)
        as (st2 & out2 & Htick2 & Hev2 & _).
      rewrite Htick2. simpl completionOut. rewrite Hev2.
      assert (Hnull : Room.currentState room1 = None).
      { destruct (elapsed >? deleteTimeout)%Z; [discriminate|].
        destruct ((elapsed >? clearStateTimeout)%Z
                  && isSome (Room.currentState room)) eqn:Hc;
          injection Hrooms as ->; [reflexivity|].
        assert (E2 : (elapsed >? clearStateTimeout)%Z = true)
          by (apply Z.gtb_lt; assumption).
        rewrite E2 in Hc. now destruct (Room.currentState room). }
      unfold clearDue. rewrite Hnull, andb_false_r. simpl.
      now destruct (deleteDue now2 room1).
    + now rewrite (cleanupTick_absent never now2 st1 roomId Hroom1).
  - intros Hnull. rewrite Hnull, andb_false_r. simpl.
    now destruct (elapsed >? deleteTimeout)%Z.
  - assert (E : (elapsed >? deleteTimeout)%Z = true)
      by (apply Z.gtb_lt; assumption).
    rewrite E.
    now destruct ((elapsed >? clearStateTimeout)%Z
                  && isSome (Room.currentState room)).
  - assert (E : (elapsed >? deleteTimeout)%Z = true)
      by (apply Z.gtb_lt; assumption).
    now rewrite Hrooms, E.
  - assert (E : (elapsed >? deleteTimeout)%Z = true)
      by (apply Z.gtb_lt; assumption).
    now rewrite Hmembers, E.
Qed.

Lemma cleanup_tick_clears_once_then_deletes_witness :
  exists st1 out,
    cleanupTick never 400000 (server demoProcess) = Normal st1 out /\
    stateClearedCount "K3X9Q2" out = 1 /\
    roomDeletedCount "K3X9Q2" out = 1 /\
    get "K3X9Q2" (rooms st1) = None /\
    get "K3X9Q2" (members st1) = None.
Proof.
  destruct (cleanup_tick_clears_once_then_deletes demoProcess 400000
              "K3X9Q2" demoRoom)
    as (st1 & out & Htick & Hclear & _ & Hdelete).
  - exists demoKey, demoInputs. reflexivity.
  - reflexivity.
  - exists st1, out. split; [exact Htick|].
    destruct Hclear as (Hone & _); [reflexivity | discriminate |].
    destruct Hdelete as (Hdel & Hr & Hm); [reflexivity|].
    auto.
Defined.

Lemma strict_neq_refl a : strict_neq a a = false.
Proof.
  destruct a as [x|]; simpl; [now rewrite String.eqb_refl | reflexivity].
Qed.

Lemma password_mismatch stored supplied :
  stored <> "" -> supplied <> Some stored ->
  truthy (Some stored) && strict_neq (Some stored) supplied = true.
Proof.
  intros Hne Hdiff. simpl.
  destruct (String.eqb_spec stored ""); [congruence|]. simpl.
  destruct supplied as [y|]; [|reflexivity].
  destruct (String.eqb_spec stored y); [congruence | reflexivity].
Qed.

(** C3.  A join-room request for an unknown room id is answered
    [RoomNotFound]; one for a room with a (non-empty) password other than
    the supplied one is answered [BadPassword]; both leave the whole store
    (membership maps, [memberCount]s, session pointers) as it was.
    Otherwise a guest [Member] is put in the room's membership map,
    [memberCount] becomes the size of that map, the session pointer is
    registered, [room:member-joined] goes to the room except the joiner,
    and the joiner is answered with the room and the full member list. *)
Theorem join_room_outcomes p socket data now :
  reachable p ->
  let st := server p in
  let roomId := JoinData.roomId data in
  (get roomId (rooms st) = None ->
     on_room_join socket data now st =
     (st, [Callback socket (JoinFailed RoomNotFound)])) /\
  (forall room stored,
     get roomId (rooms st) = Some room ->
     Room.password room = Some stored -> stored <> "" ->
     JoinData.password data <> Some stored ->
     on_room_join socket data now st =
     (st, [Callback socket (JoinFailed BadPassword)])) /\
  (forall room,
     get roomId (rooms st) = Some room ->
     truthy (Room.password room) = false \/
       JoinData.password data = Room.password room ->
     exists roomMembers,
       get roomId (members st) = Some roomMembers /\
       let member := Member.mk socket (JoinData.userName data) false now in
       let roomMembers1 := set socket member roomMembers in
       let room1 := Room.set_memberCount (size roomMembers1) room in
       let pointer :=
         RoomMemberInfo.mk roomId socket (JoinData.userName data) false in
       on_room_join socket data now st =
       (mkStore (set roomId room1 (rooms st))
          (set roomId roomMembers1 (members st))
          (set socket pointer (socketToRoom st)),
        [SocketJoin socket roomId;
         SocketTo socket roomId (room_member_joined member);
         Callback socket (JoinOk room1 (values roomMembers1))]) /\
       get socket roomMembers1 = Some member /\
       In member (values roomMembers1)).
Proof.
  intros Hreach st roomId. pose proof (reachable_wf _ Hreach) as Hwf.
  fold st in Hwf. unfold on_room_join. fold roomId.
  split; [|split].
  - intros Hnone. now rewrite Hnone.
  - intros room stored Hroom Hpw Hne Hdiff.
    rewrite Hroom, Hpw. now rewrite password_mismatch.
  - intros room Hroom Hpass.
    destruct (wf_room_members _ _ _ Hwf Hroom) as (ms & Hms & _).
    exists ms. split; [exact Hms|]. cbv zeta.
    rewrite Hroom.
    assert (Hcheck : truthy (Room.password room)
                     && strict_neq (Room.password room)
                          (JoinData.password data) = false).
    { destruct Hpass as [->| ->]; [reflexivity|].
      now rewrite strict_neq_refl, andb_false_r. }
    rewrite Hcheck, Hms. split; [reflexivity|].
    split; [apply get_set_eq|].
    apply (in_map snd _ (socket, _)). apply get_Some_In, get_set_eq.
Qed.

Lemma join_room_outcomes_witness :
  on_room_join "sockB" joinB 2000 (server soloProcess) =
  (server (fst (run soloProcess [connectB;
                                 FromClient "sockB" (RoomJoin joinB 2000)])),
   [SocketJoin "sockB" "K3X9Q2";
    SocketTo "sockB" "K3X9Q2"
      (room_member_joined (Member.mk "sockB" "bob" false 2000));
    Callback "sockB"
      (JoinOk
         (Room.mk "K3X9Q2" "Movie Night" None None true "sockA" "alice"
            "7HQ2OV" 2 None 1000 1000)
         [Member.mk "sockA" "alice" true 1000;
          Member.mk "sockB" "bob" false 2000])]).
Proof.
  destruct (join_room_outcomes soloProcess "sockB" joinB 2000) as (_ & _ & H).
  - exists demoKey, [connectA; createA]. reflexivity.
  - destruct (H (Room.mk "K3X9Q2" "Movie Night" None None true "sockA"
                   "alice" "7HQ2OV" 1 None 1000 1000))
      as (ms & Hms & Hjoin & _).
    + reflexivity.
    + left. reflexivity.
    + injection Hms as <-. exact Hjoin.
Defined.

(** C4, as stated, fails: after the scan has deleted a silent owner's room
    the owner's session pointer is still there and still marked owner, yet
    its [play:update] sets no state and is broadcast to nobody. *)
Lemma owner_pointer_without_room_counterexample :
  reachable orphanProcess /\
  get "sockA" (socketToRoom (server orphanProcess)) =
    Some (RoomMemberInfo.mk "K3X9Q2" "sockA" "alice" true) /\
  get "K3X9Q2" (rooms (server orphanProcess)) = None /\
  on_play_update "sockA" playing120 (server orphanProcess) =
    (server orphanProcess, []) /\
  on_play_change "sockA" playing120 (server orphanProcess) =
    (server orphanProcess, []) /\
  on_live_change "sockA" playing120 (server orphanProcess) =
    (server orphanProcess, []).
Proof.
  split.
  - exists demoKey, [connectA; createA; CleanupTimer 400000 never].
    reflexivity.
  - repeat split; reflexivity.
Qed.

Lemma owner_state_change_eq ev socket state st :
  (forall info room,
     get socket (socketToRoom st) = Some info ->
     RoomMemberInfo.isOwner info = true ->
     get (RoomMemberInfo.roomId info) (rooms st) = Some room ->
     owner_state_change ev socket state st =
     (with_rooms
        (set (RoomMemberInfo.roomId info)
           (Room.set_currentState (Some state) room)) st,
      [SocketTo socket (RoomMemberInfo.roomId info) (ev state)])) /\
  (forall info,
     get socket (socketToRoom st) = Some info ->
     RoomMemberInfo.isOwner info = true ->
     get (RoomMemberInfo.roomId info) (rooms st) = None ->
     owner_state_change ev socket state st = (st, [])) /\
  (forall info,
     get socket (socketToRoom st) = Some info ->
     RoomMemberInfo.isOwner info = false ->
     owner_state_change ev socket state st = (st, [])) /\
  (get socket (socketToRoom st) = None ->
     owner_state_change ev socket state st = (st, [])).
Proof.
  unfold owner_state_change. repeat split.
  - intros info room -> -> ->. reflexivity.
  - intros info -> -> ->. reflexivity.
  - intros info -> ->. reflexivity.
  - intros ->. reflexivity.
Qed.

(** C4, amended.  For [play:update], [play:change] and [live:change]: when
    the caller's session pointer is marked owner and its room is still in
    the room map, the room's playback state becomes the given state
    (nothing else in the store changes) and the state goes to the room
    except the sender; when the pointer is marked owner but the room is
    gone, when the pointer is not marked owner, and when there is no
    pointer, the store is unchanged and nothing is sent, not even an error
    to the caller. *)
Theorem owner_only_state_change h ev socket state st :
  In (h, ev) ownerOnlyHandlers ->
  (forall info room,
     get socket (socketToRoom st) = Some info ->
     RoomMemberInfo.isOwner info = true ->
     get (RoomMemberInfo.roomId info) (rooms st) = Some room ->
     let roomId := RoomMemberInfo.roomId info in
     exists st1,
       h socket state st = (st1, [SocketTo socket roomId (ev state)]) /\
       get roomId (rooms st1) =
         Some (Room.set_currentState (Some state) room) /\
       (forall r, r <> roomId -> get r (rooms st1) = get r (rooms st)) /\
       members st1 = members st /\
       socketToRoom st1 = socketToRoom st) /\
  (forall info,
     get socket (socketToRoom st) = Some info ->
     RoomMemberInfo.isOwner info = true ->
     get (RoomMemberInfo.roomId info) (rooms st) = None ->
     h socket state st = (st, [])) /\
  (forall info,
     get socket (socketToRoom st) = Some info ->
     RoomMemberInfo.isOwner info = false ->
     h socket state st = (st, [])) /\
  (get socket (socketToRoom st) = None -> h socket state st = (st, [])).
Proof.
  intros Hin.
  assert (Hh : h = owner_state_change ev).
  { simpl in Hin.
    destruct Hin as [E|[E|[E|[]]]]; injection E as <- <-; reflexivity. }
  subst h.
  destruct (owner_state_change_eq ev socket state st) as (H1 & H2 & H3 & H4).
  repeat split; auto.
  intros info room Hptr Hown Hroom roomId.
  eexists. split; [apply (H1 info room); assumption|].
  simpl. fold roomId. repeat split.
  - apply get_set_eq.
  - intros r Hne. apply get_set_ne. congruence.
Qed.

Lemma owner_only_state_change_witness :
  exists st1,
    on_play_update "sockA" playing120 (server soloProcess) =
      (st1, [SocketTo "sockA" "K3X9Q2" (play_update playing120)]) /\
    get "K3X9Q2" (rooms st1) =
      Some (Room.mk "K3X9Q2" "Movie Night" None None true "sockA" "alice"
              "7HQ2OV" 1 (Some playing120) 1000 1000).
Proof.
  destruct (owner_only_state_change on_play_update play_update "sockA"
              playing120 (server soloProcess)) as (H & _).
  - left. reflexivity.
  - destruct (H (RoomMemberInfo.mk "K3X9Q2" "sockA" "alice" true)
                (Room.mk "K3X9Q2" "Movie Night" None None true "sockA"
                   "alice" "7HQ2OV" 1 None 1000 1000))
      as (st1 & Hrun & Hstate & _); try reflexivity.
    exists st1. split; assumption.
Defined.

Lemma handleLeaveRoom_last socket st info roomMembers member :
  get socket (socketToRoom st) = Some info ->
  get (RoomMemberInfo.roomId info) (members st) = Some roomMembers ->
  get (RoomMemberInfo.userId info) roomMembers = Some member ->
  size roomMembers = 1 ->
  let roomId := RoomMemberInfo.roomId info in
  handleLeaveRoom socket st =
  (mkStore
     (delete roomId
        match get roomId (rooms st) with
        | Some room => set roomId (Room.set_memberCount 0 room) (rooms st)
        | None => rooms st
        end)
     (delete roomId (set roomId [] (members st)))
     (delete socket (socketToRoom st)),
   [SocketTo socket roomId (room_member_left (RoomMemberInfo.userId info));
    IoTo roomId room_deleted;
    SocketLeave socket roomId]).
Proof.
  intros Hptr Hms Hm Hsize roomId.
  unfold handleLeaveRoom. rewrite Hptr. cbv zeta.
  subst roomId. rewrite Hms.
  assert (Hdel : delete (RoomMemberInfo.userId info) roomMembers = []).
  { destruct roomMembers as [|[k v] [|? ?]]; try discriminate.
    simpl in Hm |- *.
    now destruct (String.eqb (RoomMemberInfo.userId info) k). }
  rewrite Hdel. simpl.
  destruct (get (RoomMemberInfo.roomId info) (rooms st)); reflexivity.
Qed.

(** C5.  When the connection's member is the only entry of its room's
    membership map, its [room:leave] or [disconnect] leaves no Room and no
    membership map under the room id (a later join by that id is answered
    [RoomNotFound] and a later scan sends the id nothing), removes the
    connection's session pointer, and sends [room:member-left] and then,
    last of all events for that room id, [room:deleted]. *)
Theorem last_member_leave_deletes_room e socket st info roomMembers member :
  e = RoomLeave \/ e = Disconnect ->
  get socket (socketToRoom st) = Some info ->
  get (RoomMemberInfo.roomId info) (members st) = Some roomMembers ->
  get (RoomMemberInfo.userId info) roomMembers = Some member ->
  size roomMembers = 1 ->
  let roomId := RoomMemberInfo.roomId info in
  exists st1 out,
    handle socket e st = (st1, out) /\
    get roomId (rooms st1) = None /\
    get roomId (members st1) = None /\
    get socket (socketToRoom st1) = None /\
    out = [SocketTo socket roomId
             (room_member_left (RoomMemberInfo.userId info));
           IoTo roomId room_deleted;
           SocketLeave socket roomId] /\
    eventsFor roomId out =
      [room_member_left (RoomMemberInfo.userId info); room_deleted] /\
    (forall socket2 data now,
       JoinData.roomId data = roomId ->
       on_room_join socket2 data now st1 =
       (st1, [Callback socket2 (JoinFailed RoomNotFound)])) /\
    (forall now,
       eventsFor roomId (completionOut (cleanupTick never now st1)) = []).
Proof.
  intros He Hptr Hms Hm Hsize roomId.
  assert (Hh : handle socket e st = handleLeaveRoom socket st)
    by (destruct He as [-> | ->]; reflexivity).
  rewrite Hh.
  rewrite (handleLeaveRoom_last socket st info roomMembers member)
    by assumption.
  fold roomId.
  eexists _, _. split; [reflexivity|].
  assert (Hgone : forall m : JsMap.t Room.t,
            get roomId (delete roomId m) = None)
    by (intros m; apply get_delete_eq).
  repeat split; simpl.
  - apply Hgone.
  - apply get_delete_eq.
  - apply get_delete_eq.
  - now rewrite String.eqb_refl.
  - intros socket2 data now Hid. unfold on_room_join. rewrite Hid.
    simpl rooms. now rewrite Hgone.
  - intros now. apply cleanupTick_absent. simpl. apply Hgone.
Qed.

Lemma last_member_leave_deletes_room_witness :
  exists st1 out,
    handle "sockA" Disconnect (server soloProcess) = (st1, out) /\
    get "K3X9Q2" (rooms st1) = None /\
    get "K3X9Q2" (members st1) = None /\
    get "sockA" (socketToRoom st1) = None /\
    eventsFor "K3X9Q2" out = [room_member_left "sockA"; room_deleted].
Proof.
  destruct (last_member_leave_deletes_room Disconnect "sockA"
              (server soloProcess)
              (RoomMemberInfo.mk "K3X9Q2" "sockA" "alice" true)
              [("sockA", Member.mk "sockA" "alice" true 1000)]
              (Member.mk "sockA" "alice" true 1000))
    as (st1 & out & Hrun & Hr & Hm & Hs & _ & Hev & _);
    try reflexivity.
  - right. reflexivity.
  - exists st1, out. auto.
Defined.

(** C6, as stated, fails: an authenticated connection that is in no room
    sends a heartbeat, the process runs the handler, and no pong (nothing
    at all) is sent. *)
Lemma heartbeat_without_room_counterexample :
  reachable lobbyProcess /\
  on_connection demoKey "sockA" (Some demoKey) = (true, []) /\
  mem "sockA" (sockets lobbyProcess) = true /\
  get "sockA" (socketToRoom (server lobbyProcess)) = None /\
  step lobbyProcess (FromClient "sockA" (Heartbeat 5000 5000 5000)) =
    (lobbyProcess, []).
Proof.
  split.
  - exists demoKey, [connectA]. reflexivity.
  - repeat split; reflexivity.
Qed.

(** C6, amended.  A heartbeat from a connection that has a session pointer
    is answered with a pong, sent to the caller only, that carries the
    server's clock reading; the calling member's last-heartbeat timestamp
    is updated when the member is in its room's membership map, and the
    room's last-owner-heartbeat timestamp is updated as well when the
    pointer is marked owner and the room is in the room map; nothing else
    changes.  A heartbeat from a connection without a session pointer
    changes nothing and is not answered. *)
Theorem heartbeat_outcomes socket now_member now_room now_pong st :
  (get socket (socketToRoom st) = None ->
     on_heartbeat socket now_member now_room now_pong st = (st, [])) /\
  (forall info,
     get socket (socketToRoom st) = Some info ->
     let roomId := RoomMemberInfo.roomId info in
     let userId := RoomMemberInfo.userId info in
     exists st1,
       on_heartbeat socket now_member now_room now_pong st =
         (st1, [SocketEmit socket (heartbeat_pong now_pong)]) /\
       socketToRoom st1 = socketToRoom st /\
       (forall roomMembers member,
          get roomId (members st) = Some roomMembers ->
          get userId roomMembers = Some member ->
          get roomId (members st1) =
            Some (set userId (Member.set_lastHeartbeat now_member member)
                    roomMembers)) /\
       (forall r, r <> roomId -> get r (members st1) = get r (members st)) /\
       (RoomMemberInfo.isOwner info = true ->
        forall room,
          get roomId (rooms st) = Some room ->
          get roomId (rooms st1) =
            Some (Room.set_lastOwnerHeartbeat now_room room)) /\
       (RoomMemberInfo.isOwner info = false -> rooms st1 = rooms st) /\
       (forall r, r <> roomId -> get r (rooms st1) = get r (rooms st))).
Proof.
  unfold on_heartbeat. split.
  - intros ->. reflexivity.
  - intros info ->. cbv zeta.
    set (roomId := RoomMemberInfo.roomId info).
    set (userId := RoomMemberInfo.userId info).
    set (mid := match get roomId (members st) with
                | Some _ => _ | None => _ end).
    assert (Hrooms : rooms mid = rooms st).
    { subst mid. destruct (get roomId (members st)) as [ms|]; auto.
      destruct (get userId ms); auto. }
    assert (Hsess : socketToRoom mid = socketToRoom st).
    { subst mid. destruct (get roomId (members st)) as [ms|]; auto.
      destruct (get userId ms); auto. }
    assert (Hmem : forall ms m, get roomId (members st) = Some ms ->
                     get userId ms = Some m ->
                     get roomId (members mid) =
                     Some (set userId (Member.set_lastHeartbeat now_member m)
                             ms)).
    { intros ms m Hms Hm. subst mid. rewrite Hms, Hm. simpl.
      apply get_set_eq. }
    assert (Hother : forall r, r <> roomId ->
                       get r (members mid) = get r (members st)).
    { intros r Hne. subst mid.
      destruct (get roomId (members st)) as [ms|]; auto.
      destruct (get userId ms); auto. simpl. apply get_set_ne. congruence. }
    eexists. split; [reflexivity|].
    destruct (RoomMemberInfo.isOwner info).
    + rewrite Hrooms.
      destruct (get roomId (rooms st)) as [room|] eqn:Hroom; simpl;
        repeat split; auto; try discriminate.
      * intros _ room0 [= <-]. apply get_set_eq.
      * intros r Hne. rewrite get_set_ne by congruence. now rewrite Hrooms.
      * intros r _. now rewrite Hrooms.
    + repeat split; auto; try discriminate. intros r _. now rewrite Hrooms.
Qed.

Lemma heartbeat_outcomes_witness :
  exists st1,
    on_heartbeat "sockA" 7000 7001 7002 (server demoProcess) =
      (st1, [SocketEmit "sockA" (heartbeat_pong 7002)]) /\
    get "K3X9Q2" (rooms st1) =
      Some (Room.set_lastOwnerHeartbeat 7001 demoRoom) /\
    get "K3X9Q2" (members st1) =
      Some [("sockA", Member.mk "sockA" "alice" true 7000);
            ("sockB", Member.mk "sockB" "bob" false 2000)].
Proof.
  destruct (heartbeat_outcomes "sockA" 7000 7001 7002 (server demoProcess))
    as (_ & H).
  destruct (H (RoomMemberInfo.mk "K3X9Q2" "sockA" "alice" true))
    as (st1 & Hrun & _ & Hmember & _ & Hroom & _); [reflexivity|].
  exists st1. split; [exact Hrun|]. split.
  - apply Hroom; reflexivity.
  - apply (Hmember [("sockA", Member.mk "sockA" "alice" true 1000);
                    ("sockB", Member.mk "sockB" "bob" false 2000)]
             (Member.mk "sockA" "alice" true 1000)); reflexivity.
Defined.

(** C7, as stated, fails: the generator keeps six digits of a random
    number and never looks at the store.  B's create draws a number whose
    first six base-36 digits are those of A's room id; it gets the same
    id, and A's Room and membership map are replaced by B's. *)
Lemma generated_room_id_collision_counterexample :
  reachable beforeCollision /\
  get "K3X9Q2" (rooms (server beforeCollision)) =
    Some (Room.mk "K3X9Q2" "Movie Night" None None true "sockA" "alice"
            "7HQ2OV" 1 None 1000 1000) /\
  get "K3X9Q2" (members (server beforeCollision)) =
    Some [("sockA", Member.mk "sockA" "alice" true 1000)] /\
  generateRoomId "0.k3x9q2zzzz" = "K3X9Q2" /\
  get "K3X9Q2"
    (rooms (fst (handle "sockB" collidingCreate (server beforeCollision)))) =
    Some (Room.mk "K3X9Q2" "Other" None None false "sockB" "bob" "C0FFEE" 1
            None 5000 5000) /\
  get "K3X9Q2"
    (members (fst (handle "sockB" collidingCreate (server beforeCollision)))) =
    Some [("sockB", Member.mk "sockB" "bob" true 5000)].
Proof.
  split.
  - exists demoKey, [connectA; createA; connectB]. reflexivity.
  - repeat split; reflexivity.
Qed.

(** C7, amended.  create-room stores the new Room and its one-member
    membership map under the id the generator returns, whatever the store
    holds: every Room and membership map kept under another id is left as
    it was, so nothing is replaced whenever the generated id is not already
    in the room map. *)
Theorem create_room_keeps_other_ids socket data r1 r2 t1 t2 t3 st :
  let roomId := generateRoomId r1 in
  let room :=
    Room.mk roomId (CreateData.name data) (CreateData.description data)
      (CreateData.password data) (CreateData.isPublic data) socket
      (CreateData.userName data) (generateRoomId r2) 1 None t1 t2 in
  let member := Member.mk socket (CreateData.userName data) true t3 in
  exists st1,
    on_room_create socket data r1 r2 t1 t2 t3 st =
      (st1, [SocketJoin socket roomId; Callback socket (CreateOk room)]) /\
    get roomId (rooms st1) = Some room /\
    get roomId (members st1) = Some [(socket, member)] /\
    get socket (socketToRoom st1) =
      Some (RoomMemberInfo.mk roomId socket (CreateData.userName data) true) /\
    (forall r, r <> roomId ->
       get r (rooms st1) = get r (rooms st) /\
       get r (members st1) = get r (members st)) /\
    (get roomId (rooms st) = None ->
     forall r room0,
       get r (rooms st) = Some room0 ->
       get r (rooms st1) = Some room0 /\
       get r (members st1) = get r (members st)).
Proof.
  intros roomId room member. unfold on_room_create. fold roomId.
  eexists. split; [reflexivity|]. simpl.
  assert (Hframe : forall r, r <> roomId ->
            get r (set roomId room (rooms st)) = get r (rooms st) /\
            get r (set roomId [(socket, member)] (members st)) =
            get r (members st)).
  { intros r Hne. split; apply get_set_ne; congruence. }
  split; [apply get_set_eq|]. split; [apply get_set_eq|].
  split; [apply get_set_eq|]. split; [exact Hframe|].
  intros Hfresh r room0 Hr0.
  destruct (Hframe r) as [E1 E2]; [congruence|].
  split; [rewrite <- Hr0; exact E1 | exact E2].
Qed.

Lemma create_room_keeps_other_ids_witness :
  get "K3X9Q2"
    (rooms (fst (on_room_create "sockB"
                   (CreateData.mk "Second" None None true "bob")
                   "0.zzz999aaaa" "0.c0ffee1234" 2000 2000 2000
                   (server soloProcess)))) =
    Some (Room.mk "K3X9Q2" "Movie Night" None None true "sockA" "alice"
            "7HQ2OV" 1 None 1000 1000).
Proof.
  destruct (create_room_keeps_other_ids "sockB"
              (CreateData.mk "Second" None None true "bob")
              "0.zzz999aaaa" "0.c0ffee1234" 2000 2000 2000
              (server soloProcess))
    as (st1 & Hrun & _ & _ & _ & _ & Hfresh).
  rewrite Hrun. simpl fst.
  apply Hfresh; reflexivity.
Defined.

(** C9.  A [play:seek], [play:play] or [play:pause] from a caller that has
    a session pointer, owner or not, is re-emitted with the same payload to
    the caller's room except the caller, and the store after the handler
    is the store before it: every Room (its playback state included),
    Member and session pointer is as it was. *)
Theorem relay_rebroadcasts_and_keeps_store socket st info currentTime :
  get socket (socketToRoom st) = Some info ->
  let roomId := RoomMemberInfo.roomId info in
  on_play_seek socket currentTime st =
    (st, [SocketTo socket roomId (play_seek currentTime)]) /\
  on_play_play socket st = (st, [SocketTo socket roomId play_play]) /\
  on_play_pause socket st = (st, [SocketTo socket roomId play_pause]).
Proof.
  intros Hptr roomId.
  unfold on_play_seek, on_play_play, on_play_pause, relay.
  rewrite Hptr. auto.
Qed.

Lemma relay_rebroadcasts_and_keeps_store_witness :
  on_play_seek "sockB" "42.5" (server demoProcess) =
    (server demoProcess, [SocketTo "sockB" "K3X9Q2" (play_seek "42.5")]) /\
  on_play_play "sockB" (server demoProcess) =
    (server demoProcess, [SocketTo "sockB" "K3X9Q2" play_play]) /\
  on_play_pause "sockB" (server demoProcess) =
    (server demoProcess, [SocketTo "sockB" "K3X9Q2" play_pause]).
Proof.
  apply (relay_rebroadcasts_and_keeps_store "sockB" (server demoProcess)
           (RoomMemberInfo.mk "K3X9Q2" "sockB" "bob" false) "42.5").
  reflexivity.
Defined.

(** C10.  When the stored password of the room is absent or the empty
    string, join-room is never answered [BadPassword]: whatever password is
    supplied, or none, the joiner is answered with the room and its member
    list. *)
Theorem join_room_without_password_accepts socket data now st room :
  get (JoinData.roomId data) (rooms st) = Some room ->
  Room.password room = None \/ Room.password room = Some "" ->
  exists st1 room1 memberList,
    on_room_join socket data now st =
    (st1,
     [SocketJoin socket (JoinData.roomId data);
      SocketTo socket (JoinData.roomId data)
        (room_member_joined
           (Member.mk socket (JoinData.userName data) false now));
      Callback socket (JoinOk room1 memberList)]).
Proof.
  intros Hroom Hpw. unfold on_room_join. rewrite Hroom.
  assert (Hfalsy : truthy (Room.password room) = false)
    by (destruct Hpw as [-> | ->]; reflexivity).
  rewrite Hfalsy. simpl andb. cbv iota.
  destruct (get (JoinData.roomId data) (members st)); eauto.
Qed.

Lemma join_room_without_password_accepts_witness :
  exists st1 room1 memberList,
    on_room_join "sockB" (JoinData.mk "K3X9Q2" (Some "guess") "bob") 2000
      (server soloProcess) =
    (st1,
     [SocketJoin "sockB" "K3X9Q2";
      SocketTo "sockB" "K3X9Q2"
        (room_member_joined (Member.mk "sockB" "bob" false 2000));
      Callback "sockB" (JoinOk room1 memberList)]).
Proof.
  apply (join_room_without_password_accepts "sockB"
           (JoinData.mk "K3X9Q2" (Some "guess") "bob") 2000
           (server soloProcess)
           (Room.mk "K3X9Q2" "Movie Night" None None true "sockA" "alice"
              "7HQ2OV" 1 None 1000 1000)).
  - reflexivity.
  - left. reflexivity.
Defined.

(** C8, as stated, fails.  Two rooms are overdue for deletion and the
    [emit] of [room:deleted] to the first raises.  Nothing catches it: the
    second room is never visited (it is still in the map, though a scan
    without the fault deletes it), the uncaughtException handler runs
    [shutdown], the timer is cleared so that a later tick does nothing, and
    the forced-exit timer ends the process with code 1. *)
Lemma cleanup_fault_counterexample :
  reachable twoRooms /\
  lifecycle twoRooms = Running /\
  cleanupInterval twoRooms = true /\
  get "ZZZ999"
    (rooms (server (fst (step twoRooms (CleanupTimer 400000 never))))) =
    None /\
  let p1 := fst (step twoRooms (CleanupTimer 400000 (faultAt "K3X9Q2"))) in
  get "ZZZ999" (rooms (server p1)) = Some secondRoom /\
  lifecycle p1 = ShuttingDown /\
  cleanupInterval p1 = false /\
  step p1 (CleanupTimer 410000 never) = (p1, []) /\
  lifecycle (fst (step p1 ForcedExitTimer)) = Exited 1.
Proof.
  split.
  - exists demoKey,
      [connectA; createA; connectB;
       FromClient "sockB"
         (RoomCreate (CreateData.mk "Second" None None true "bob")
            "0.zzz999aaaa" "0.c0ffee1234" 2000 2000 2000)].
    reflexivity.
  - repeat split; reflexivity.
Qed.

Lemma NoDup_app_disjoint {A : Type} (l1 l2 : list A) (a : A) :
  NoDup (l1 ++ l2) -> In a l1 -> In a l2 -> False.
Proof.
  induction l1 as [|x l1 IH]; simpl; [tauto|].
  intros Hnd [->|Hin] H2; inversion Hnd as [|? ? Hnotin Hnd']; subst.
  - apply Hnotin, in_or_app. now right.
  - now apply IH.
Qed.

(** A scan that ends with an exception stopped at some entry. *)
Lemma forEachRoom_thrown throws now entries st out st1 out1 :
  forEachRoom throws now entries st out = Thrown st1 out1 ->
  exists l1 r room l2 sa oa ob,
    entries = (l1 ++ (r, room) :: l2)%list /\
    forEachRoom throws now l1 st out = Normal sa oa /\
    cleanupRoom throws now r room sa = Thrown st1 ob /\
    out1 = (oa ++ ob)%list.
Proof.
  revert st out. induction entries as [|[r room] l IH]; intros st out;
    simpl; [discriminate|].
  destruct (cleanupRoom throws now r room st) as [sb ob|sb ob] eqn:Hvisit.
  - intros Hrest.
    destruct (IH _ _ Hrest)
      as (l1 & r' & room' & l2 & sa & oa & ob' & -> & Hl1 & Hv & ->).
    exists ((r, room) :: l1), r', room', l2, sa, oa, ob'.
    simpl. rewrite Hvisit. auto.
  - intros [= <- <-].
    exists [], r, room, l, st, out, ob. simpl. auto.
Qed.

(** A visit that ends with an exception: one of its two [emit]s raised,
    and the [delete]s that follow the second were not reached. *)
Lemma cleanupRoom_thrown throws now roomId room st st1 out1 :
  cleanupRoom throws now roomId room st = Thrown st1 out1 ->
  get roomId (rooms st) = Some room ->
  (throws (IoTo roomId state_cleared) = true \/
   throws (IoTo roomId room_deleted) = true) /\
  (get roomId (rooms st1) = Some room \/
   get roomId (rooms st1) = Some (Room.set_currentState None room)) /\
  members st1 = members st /\
  roomDeletedCount roomId out1 = 0.
Proof.
  intros Hvisit Hroom. unfold cleanupRoom in Hvisit.
  destruct ((now - Room.lastOwnerHeartbeat room >? clearStateTimeout)%Z
            && isSome (Room.currentState room)).
  - destruct (throws (IoTo roomId state_cleared)) eqn:E1.
    + injection Hvisit as <- <-. simpl. rewrite get_set_eq. auto.
    + destruct (now - Room.lastOwnerHeartbeat room >? deleteTimeout)%Z;
        [|discriminate].
      destruct (throws (IoTo roomId room_deleted)) eqn:E2; [|discriminate].
      injection Hvisit as <- <-. simpl. rewrite get_set_eq.
      unfold roomDeletedCount. simpl. rewrite String.eqb_refl. auto.
  - destruct (now - Room.lastOwnerHeartbeat room >? deleteTimeout)%Z;
      [|discriminate].
    destruct (throws (IoTo roomId room_deleted)) eqn:E2; [|discriminate].
    injection Hvisit as <- <-. auto.
Qed.

(** An [emit] that raises is never swallowed: the visit ends with the
    exception, and so does the scan. *)
Lemma cleanupRoom_raises throws now roomId room st :
  (clearDue now room = true /\ throws (IoTo roomId state_cleared) = true) \/
  (deleteDue now room = true /\ throws (IoTo roomId room_deleted) = true) ->
  isThrown (cleanupRoom throws now roomId room st) = true.
Proof.
  unfold cleanupRoom, clearDue, deleteDue.
  intros [[Hc Ht]|[Hd Ht]].
  - now rewrite Hc, Ht.
  - rewrite Hd, Ht.
    destruct ((now - Room.lastOwnerHeartbeat room >? clearStateTimeout)%Z
              && isSome (Room.currentState room)); [|reflexivity].
    destruct (throws (IoTo roomId state_cleared)); reflexivity.
Qed.

Lemma cleanupTick_raises throws now st roomId room :
  wf st -> get roomId (rooms st) = Some room ->
  (clearDue now room = true /\ throws (IoTo roomId state_cleared) = true) \/
  (deleteDue now room = true /\ throws (IoTo roomId room_deleted) = true) ->
  isThrown (cleanupTick throws now st) = true.
Proof.
  intros Hwf Hroom Hraise.
  destruct (get_split _ _ _ (wf_rooms _ Hwf) Hroom) as (l1 & l2 & Hl & _).
  unfold cleanupTick. rewrite Hl, forEachRoom_app.
  destruct (forEachRoom throws now l1 st []) as [sa oa|sa oa];
    [|reflexivity].
  simpl.
  pose proof (cleanupRoom_raises throws now roomId room sa Hraise) as Hv.
  destruct (cleanupRoom throws now roomId room sa); [discriminate|].
  reflexivity.
Qed.

(** C8, amended.  When an [emit] raises while the reconciliation tick
    processes a room, the exception is not caught: the scan stops at that
    room, so every room later in iteration order is left as it was and is
    sent nothing; the uncaughtException handler starts the shutdown, which
    clears the interval timer (later ticks do nothing) and ends the
    process with code 0 once the HTTP server has closed or with code 1
    after the forced-exit timer.  When nothing raises the process keeps
    running with its timer armed.

    The room map splits, in iteration order, into the rooms [before]
    scanned without a fault, the room [roomId] at which an [emit] raised
    (it is still in the map: the deletion that follows the [emit] was not
    reached), and the rooms [later], none of which is visited.  And the
    scan does end so whenever an [emit] that some room is due for
    raises. *)
Theorem cleanup_fault_stops_scan_and_shuts_down p now throws :
  reachable p ->
  lifecycle p = Running ->
  cleanupInterval p = true ->
  let c := cleanupTick throws now (server p) in
  let p1 := fst (step p (CleanupTimer now throws)) in
  server p1 = completionStore c /\
  snd (step p (CleanupTimer now throws)) = completionOut c /\
  (isThrown c = false -> lifecycle p1 = Running /\ cleanupInterval p1 = true) /\
  (isThrown c = true ->
     lifecycle p1 = ShuttingDown /\
     cleanupInterval p1 = false /\
     (forall now2 throws2, step p1 (CleanupTimer now2 throws2) = (p1, [])) /\
     lifecycle (fst (step p1 HttpServerClosed)) = Exited 0 /\
     lifecycle (fst (step p1 ForcedExitTimer)) = Exited 1 /\
     exists before roomId room later scanned sent sentLast,
       rooms (server p) = (before ++ (roomId, room) :: later)%list /\
       forEachRoom throws now before (server p) [] = Normal scanned sent /\
       cleanupRoom throws now roomId room scanned =
         Thrown (server p1) sentLast /\
       completionOut c = (sent ++ sentLast)%list /\
       (throws (IoTo roomId state_cleared) = true \/
        throws (IoTo roomId room_deleted) = true) /\
       (get roomId (rooms (server p1)) = Some room \/
        get roomId (rooms (server p1)) =
          Some (Room.set_currentState None room)) /\
       get roomId (members (server p1)) =
         get roomId (members (server p)) /\
       roomDeletedCount roomId (completionOut c) = 0 /\
       forall r2 room2,
         In (r2, room2) later ->
         get r2 (rooms (server p1)) = Some room2 /\
         get r2 (members (server p1)) = get r2 (members (server p)) /\
         eventsFor r2 (completionOut c) = []) /\
  (forall roomId room,
     get roomId (rooms (server p)) = Some room ->
     ((clearStateTimeout < now - Room.lastOwnerHeartbeat room)%Z /\
      Room.currentState room <> None /\
      throws (IoTo roomId state_cleared) = true) \/
     ((deleteTimeout < now - Room.lastOwnerHeartbeat room)%Z /\
      throws (IoTo roomId room_deleted) = true) ->
     isThrown c = true).
Proof.
  intros Hreach Hrun Htimer. cbv zeta.
  pose proof (reachable_wf _ Hreach) as Hwf.
  assert (Hraise : forall roomId room,
            get roomId (rooms (server p)) = Some room ->
            ((clearStateTimeout < now - Room.lastOwnerHeartbeat room)%Z /\
             Room.currentState room <> None /\
             throws (IoTo roomId state_cleared) = true) \/
            ((deleteTimeout < now - Room.lastOwnerHeartbeat room)%Z /\
             throws (IoTo roomId room_deleted) = true) ->
            isThrown (cleanupTick throws now (server p)) = true).
  { intros roomId room Hroom Hdue.
    apply (cleanupTick_raises throws now _ roomId room Hwf Hroom).
    unfold clearDue, deleteDue.
    destruct Hdue as [(Hc & Hs & Ht)|(Hd & Ht)]; [left|right];
      (split; [|exact Ht]).
    - apply andb_true_intro. split; [now apply Z.gtb_lt|].
      now destruct (Room.currentState room).
    - now apply Z.gtb_lt. }
  assert (Hstep : step p (CleanupTimer now throws) =
                  match cleanupTick throws now (server p) with
                  | Normal st out => (with_server st p, out)
                  | Thrown st out =>
                      (uncaughtException (with_server st p), out)
                  end)
    by (unfold step; rewrite Hrun, Htimer; reflexivity).
  rewrite Hstep. clear Hstep.
  destruct (cleanupTick throws now (server p)) as [st1 out1|st1 out1] eqn:Hc;
    simpl.
  - split; [reflexivity|]. split; [reflexivity|]. split; [auto|].
    split; [discriminate | exact Hraise].
  - split; [reflexivity|]. split; [reflexivity|]. split; [discriminate|].
    split; [|reflexivity].
    intros _.
    split; [reflexivity|]. split; [reflexivity|]. split; [reflexivity|].
    split; [reflexivity|]. split; [reflexivity|].
    unfold cleanupTick in Hc.
    destruct (forEachRoom_thrown _ _ _ _ _ _ _ Hc)
      as (l1 & r & room & l2 & sa & oa & ob & Hl & Hl1 & Hvisit & ->).
    pose proof (wf_rooms _ Hwf) as Hok. unfold ok, keys in Hok.
    rewrite Hl, map_app in Hok. simpl in Hok.
    assert (Hr_not1 : ~ In r (keys l1)).
    { intros H1. apply NoDup_remove_2 in Hok. apply Hok, in_or_app.
      now left. }
    assert (Hr_start : get r (rooms (server p)) = Some room).
    { apply In_get; [apply (wf_rooms _ Hwf)|]. rewrite Hl.
      apply in_or_app. right. now left. }
    destruct (forEachRoom_frame throws now l1 (server p) [] r Hr_not1)
      as (Hra & Hma & Hea).
    rewrite Hl1 in Hra, Hma, Hea. simpl in Hra, Hma, Hea.
    assert (Hr_sa : get r (rooms sa) = Some room) by congruence.
    destruct (cleanupRoom_thrown _ _ _ _ _ _ _ Hvisit Hr_sa)
      as (Hraised & Hkept & Hmem & Hnodel).
    exists l1, r, room, l2, sa, oa, ob.
    split; [exact Hl|]. split; [exact Hl1|]. split; [exact Hvisit|].
    split; [reflexivity|]. split; [exact Hraised|]. split; [exact Hkept|].
    split; [now rewrite Hmem|].
    split.
    { unfold roomDeletedCount in *. rewrite eventsFor_app, Hea. exact Hnodel. }
    intros r2 room2 Hin2.
    assert (Hk2 : In r2 (map fst l2))
      by (change r2 with (fst (r2, room2)); now apply in_map).
    assert (Hne : r2 <> r).
    { intros ->. apply NoDup_remove_2 in Hok. apply Hok, in_or_app.
      now right. }
    assert (Hnot1 : ~ In r2 (keys l1)).
    { intros H1. apply NoDup_remove_1 in Hok.
      exact (NoDup_app_disjoint _ _ _ Hok H1 Hk2). }
    assert (Hstart : get r2 (rooms (server p)) = Some room2).
    { apply In_get; [apply (wf_rooms _ Hwf)|]. rewrite Hl.
      apply in_or_app. right. now right. }
    destruct (forEachRoom_frame throws now l1 (server p) [] r2 Hnot1)
      as (Hr1 & Hm1 & He1).
    rewrite Hl1 in Hr1, Hm1, He1. simpl in Hr1, Hm1, He1.
    destruct (cleanupRoom_frame throws now r room sa r2 Hne)
      as (Hr2 & Hm2 & He2).
    rewrite Hvisit in Hr2, Hm2, He2. simpl in Hr2, Hm2, He2.
    rewrite eventsFor_app, He1, He2, Hr2, Hr1, Hm2, Hm1. auto.
Qed.

Lemma cleanup_fault_stops_scan_and_shuts_down_witness :
  let throws := faultAt "K3X9Q2" in
  let p1 := fst (step twoRooms (CleanupTimer 400000 throws)) in
  lifecycle p1 = ShuttingDown /\
  cleanupInterval p1 = false /\
  exists before roomId room later,
    rooms (server twoRooms) = (before ++ (roomId, room) :: later)%list /\
    (throws (IoTo roomId state_cleared) = true \/
     throws (IoTo roomId room_deleted) = true) /\
    (get roomId (rooms (server p1)) = Some room \/
     get roomId (rooms (server p1)) =
       Some (Room.set_currentState None room)) /\
    forall r2 room2,
      In (r2, room2) later -> get r2 (rooms (server p1)) = Some room2.
Proof.
  destruct (cleanup_fault_stops_scan_and_shuts_down twoRooms 400000
              (faultAt "K3X9Q2"))
    as (_ & _ & _ & H & _).
  - exists demoKey,
      [connectA; createA; connectB;
       FromClient "sockB"
         (RoomCreate (CreateData.mk "Second" None None true "bob")
            "0.zzz999aaaa" "0.c0ffee1234" 2000 2000 2000)].
    reflexivity.
  - reflexivity.
  - reflexivity.
  - destruct H
      as (Hl & Ht & _ & _ & _ & before & roomId & room & later & scanned &
          sent & sentLast & Hsplit & _ & _ & _ & Hraised & Hkept & _ & _ &
          Hlater);
      [reflexivity|].
    split; [exact Hl|]. split; [exact Ht|].
    exists before, roomId, room, later.
    split; [exact Hsplit|]. split; [exact Hraised|]. split; [exact Hkept|].
    intros r2 room2 Hin. now destruct (Hlater r2 room2 Hin).
Defined.

End Claims.

(** * Further properties of the code *)

Section Further.
Import JsMap JsMapFacts.

(** ** Identifier generator *)

Lemma length_substring n m s :
  String.length (substring n m s) = Nat.min m (String.length s - n).
Proof.
  revert n m. induction s as [|c s IH]; intros [|n] [|m]; simpl; auto.
  now rewrite IH, Nat.sub_0_r.
Qed.

Lemma length_toUpperCase s : String.length (toUpperCase s) = String.length s.
Proof. induction s as [|c s IH]; simpl; auto. Qed.

Lemma toUpperCase_ascii_not_lower c :
  isLowerLetter (toUpperCase_ascii c) = false.
Proof.
  destruct c as [[] [] [] [] [] [] [] []]; reflexivity.
Qed.

Lemma toUpperCase_no_lower s : anyChar isLowerLetter (toUpperCase s) = false.
Proof.
  induction s as [|c s IH]; simpl; auto.
  now rewrite toUpperCase_ascii_not_lower, IH.
Qed.

(** X1.  A generated room id (and owner token) has at most six characters,
    exactly six when the random text has six or more digits after ["0."],
    and holds no lower-case letter. *)
Theorem generateRoomId_shape rnd :
  String.length (generateRoomId rnd) = Nat.min 6 (String.length rnd - 2) /\
  anyChar isLowerLetter (generateRoomId rnd) = false.
Proof.
  unfold generateRoomId, js_substring. split.
  - now rewrite length_toUpperCase, length_substring.
  - apply toUpperCase_no_lower.
Qed.

Lemma digits_string_of_uint d :
  allChars isDigit (NilEmpty.string_of_uint d) = true.
Proof. induction d; simpl; auto. Qed.

Lemma digits_NilZero d :
  allChars isDigit (NilZero.string_of_uint d) = true /\
  NilZero.string_of_uint d <> "".
Proof.
  destruct d; simpl; split; try discriminate; auto;
    apply digits_string_of_uint.
Qed.

(** Digits, a dash, and a tail: the digits and the tail are determined. *)
Lemma digits_dash_inj a1 a2 r1 r2 :
  allChars isDigit a1 = true -> allChars isDigit a2 = true ->
  a1 ++ "-" ++ r1 = a2 ++ "-" ++ r2 -> a1 = a2 /\ r1 = r2.
Proof.
  revert a2. induction a1 as [|c a1 IH]; intros [|c2 a2]; simpl;
    intros H1 H2 E.
  - now injection E.
  - injection E as <- _. simpl in H2. discriminate.
  - injection E as -> _. simpl in H1. discriminate.
  - injection E as <- E.
    apply andb_prop in H1, H2.
    destruct (IH a2) as [-> ->]; tauto.
Qed.

Lemma decimal_of_Z_inj t1 t2 :
  NilZero.string_of_int (Z.to_int t1) = NilZero.string_of_int (Z.to_int t2) ->
  t1 = t2.
Proof.
  intros E.
  assert (Hn : forall t, Z.to_int t <> Decimal.Pos Decimal.Nil /\
                         Z.to_int t <> Decimal.Neg Decimal.Nil).
  { intros [|p|p]; simpl; split; try discriminate;
      intros [= H]; revert H; apply DecimalPos.Unsigned.to_uint_nonnil. }
  assert (Hi : forall t, NilZero.int_of_string
                           (NilZero.string_of_int (Z.to_int t)) =
                         Some (Z.to_int t))
    by (intros t; apply NilZero.isi; apply Hn).
  pose proof (Hi t1) as E1. rewrite E, Hi in E1. injection E1 as E1.
  rewrite <- (DecimalZ.of_to t1), <- (DecimalZ.of_to t2).
  now rewrite E1.
Qed.

(** X2.  The id of a chat message determines the clock reading it was
    built from (and the seven random digits kept): messages stamped at
    different clock readings never share an id. *)
Theorem generateMessageId_inj t1 t2 rnd1 rnd2 :
  generateMessageId t1 rnd1 = generateMessageId t2 rnd2 ->
  t1 = t2 /\ js_substring 2 9 rnd1 = js_substring 2 9 rnd2.
Proof.
  unfold generateMessageId. intros E.
  assert (Ht : NilZero.string_of_int (Z.to_int t1) =
               NilZero.string_of_int (Z.to_int t2) /\
               js_substring 2 9 rnd1 = js_substring 2 9 rnd2).
  { destruct (Z.to_int t1) as [d1|d1], (Z.to_int t2) as [d2|d2]; simpl in *.
    - destruct (digits_NilZero d1) as [D1 _], (digits_NilZero d2) as [D2 _].
      apply digits_dash_inj; assumption.
    - destruct (digits_NilZero d1) as [D1 N1].
      destruct (NilZero.string_of_uint d1) as [|c s]; [congruence|].
      simpl in E, D1. injection E as -> _. discriminate.
    - destruct (digits_NilZero d2) as [D2 N2].
      destruct (NilZero.string_of_uint d2) as [|c s]; [congruence|].
      simpl in E, D2. injection E as <- _. discriminate.
    - injection E as E.
      destruct (digits_NilZero d1) as [D1 _], (digits_NilZero d2) as [D2 _].
      destruct (digits_dash_inj _ _ _ _ D1 D2 E) as [-> ->]. auto. }
  destruct Ht as [Ht Hr]. split; [now apply decimal_of_Z_inj | exact Hr].
Qed.

Lemma generateMessageId_inj_witness :
  1700000000123%Z = 1700000000123%Z /\
  js_substring 2 9 "0.abcdefghijk" = js_substring 2 9 "0.abcdefgzzzz".
Proof.
  apply (generateMessageId_inj 1700000000123 1700000000123
           "0.abcdefghijk" "0.abcdefgzzzz").
  reflexivity.
Defined.

(** ** Authentication at connection time *)

(** X3.  The handlers of a connection are registered exactly when the
    handshake carries a token, the token is the configured key, and the key
    is not the empty string; every other connection is sent
    [error 'Unauthorized'] and disconnected. *)
Theorem on_connection_accepts_exactly_the_key key socket token :
  (fst (on_connection key socket token) = true <->
     token = Some key /\ key <> "") /\
  (fst (on_connection key socket token) = true ->
     snd (on_connection key socket token) = []) /\
  (fst (on_connection key socket token) = false ->
     snd (on_connection key socket token) =
       [SocketEmit socket (error_ "Unauthorized"); SocketDisconnect socket]).
Proof.
  unfold on_connection.
  destruct token as [t|]; simpl.
  - destruct (String.eqb_spec t ""); simpl.
    + subst. repeat split; try discriminate; auto.
      intros [[= <-] H]. congruence.
    + destruct (String.eqb_spec t key); simpl.
      * subst. repeat split; auto; discriminate.
      * repeat split; auto; try discriminate. intros [[= ->] _]. congruence.
  - repeat split; auto; try discriminate. intros [[=] _].
Qed.

Lemma on_connection_accepts_exactly_the_key_witness :
  snd (on_connection demoKey "sockA" (Some demoKey)) = [].
Proof.
  destruct (on_connection_accepts_exactly_the_key demoKey "sockA"
              (Some demoKey)) as (_ & H & _).
  apply H. reflexivity.
Defined.

(** ** More on the map operations *)

Section MapRoundTrips.
Context {V : Type}.
Implicit Types (m : JsMap.t V) (k : string) (v : V).

Lemma size_delete_present k v m :
  ok m -> get k m = Some v -> S (size (delete k m)) = size m.
Proof.
  unfold size, ok, keys. induction m as [|[k' v'] m IH]; simpl;
    [discriminate|].
  intros Hnd. inversion Hnd as [|? ? Hnotin Hnd']; subst.
  destruct (String.eqb_spec k k') as [->|Hne]; simpl.
  - intros _. f_equal.
    assert (Hn : get k' m = None) by now apply get_None_keys.
    clear -Hn. induction m as [|[k0 v0] m IH]; simpl in *; auto.
    destruct (String.eqb_spec k' k0); [discriminate|]. simpl. now rewrite IH.
  - intros H. now rewrite (IH Hnd' H).
Qed.

Lemma set_set k v1 v2 m : set k v2 (set k v1 m) = set k v2 m.
Proof.
  induction m as [|[k' v'] m IH]; simpl.
  - now rewrite String.eqb_refl.
  - destruct (String.eqb_spec k k') as [->|Hne]; simpl.
    + now rewrite String.eqb_refl.
    + destruct (String.eqb_spec k k'); [congruence|]. now rewrite IH.
Qed.

Lemma set_same k v m : get k m = Some v -> set k v m = m.
Proof.
  induction m as [|[k' v'] m IH]; simpl; [discriminate|].
  destruct (String.eqb_spec k k') as [->|Hne].
  - now intros [= ->].
  - intros H. now rewrite IH.
Qed.

Lemma delete_unset k m : get k m = None -> delete k m = m.
Proof.
  induction m as [|[k' v'] m IH]; simpl; auto.
  destruct (String.eqb_spec k k') as [->|Hne]; [discriminate|].
  intros H. now rewrite IH.
Qed.

Lemma delete_set_absent k v m : get k m = None -> delete k (set k v m) = m.
Proof.
  induction m as [|[k' v'] m IH]; simpl.
  - now rewrite String.eqb_refl.
  - destruct (String.eqb_spec k k') as [->|Hne]; [discriminate|].
    simpl. destruct (String.eqb_spec k k'); [congruence|].
    intros H. now rewrite IH.
Qed.

Lemma get_Some_values k v m : get k m = Some v -> In v (values m).
Proof.
  intros H. apply (in_map snd _ (k, v)). now apply get_Some_In.
Qed.

Lemma values_get v m : In v (values m) -> ok m -> exists k, get k m = Some v.
Proof.
  unfold values. intros Hin Hok. apply in_map_iff in Hin.
  destruct Hin as ([k v0] & <- & Hin). exists k. now apply In_get.
Qed.

End MapRoundTrips.

(** Two maps with the same keys keep the same keys under the same write. *)
Lemma keys_set_congr {A B : Type} k (a : A) (b : B) (ma : JsMap.t A)
  (mb : JsMap.t B) :
  keys ma = keys mb -> keys (set k a ma) = keys (set k b mb).
Proof.
  revert mb. induction ma as [|[ka va] ma IH]; intros [|[kb vb] mb]; simpl;
    try discriminate; auto.
  intros [= <- E]. destruct (String.eqb k ka); simpl; [now rewrite E|].
  f_equal. now apply IH.
Qed.

Lemma keys_delete_congr {A B : Type} k (ma : JsMap.t A) (mb : JsMap.t B) :
  keys ma = keys mb -> keys (delete k ma) = keys (delete k mb).
Proof.
  revert mb. induction ma as [|[ka va] ma IH]; intros [|[kb vb] mb]; simpl;
    try discriminate; auto.
  intros [= <- E]. destruct (String.eqb k ka); simpl; [now apply IH|].
  f_equal. now apply IH.
Qed.

Lemma keys_set_present {A : Type} k (a a0 : A) (m : JsMap.t A) :
  get k m = Some a0 -> keys (set k a m) = keys m.
Proof.
  induction m as [|[k' v'] m IH]; simpl; [discriminate|].
  destruct (String.eqb_spec k k') as [->|Hne]; simpl; auto.
  intros H. now rewrite IH.
Qed.

(** ** Leaving a room *)

(** X4.  When other members remain, a leave or disconnect takes the
    caller's entry out of the room's membership map, lowers [memberCount]
    by one, sends [room:member-left] to the rest of the room and nothing
    else to it (no [room:deleted]), keeps the room, and removes the
    caller's session pointer. *)
Theorem leave_with_others_remaining p socket info roomMembers member :
  reachable p ->
  let st := server p in
  let roomId := RoomMemberInfo.roomId info in
  let userId := RoomMemberInfo.userId info in
  get socket (socketToRoom st) = Some info ->
  get roomId (members st) = Some roomMembers ->
  get userId roomMembers = Some member ->
  1 < size roomMembers ->
  exists room st1,
    get roomId (rooms st) = Some room /\
    Room.memberCount room = size roomMembers /\
    handleLeaveRoom socket st =
      (st1, [SocketTo socket roomId (room_member_left userId);
             SocketLeave socket roomId]) /\
    get roomId (members st1) = Some (delete userId roomMembers) /\
    get userId (delete userId roomMembers) = None /\
    get roomId (rooms st1) =
      Some (Room.set_memberCount (size roomMembers - 1) room) /\
    get socket (socketToRoom st1) = None.
Proof.
  intros Hreach st roomId userId Hptr Hms Hm Hsize.
  pose proof (reachable_wf _ Hreach) as Hwf. fold st in Hwf.
  destruct (wf_members_room _ _ _ Hwf Hms) as (room & Hroom).
  destruct (wf_room_members _ _ _ Hwf Hroom) as (ms' & Hms' & Hcount).
  assert (ms' = roomMembers) by congruence. subst ms'.
  pose proof (size_delete_present _ _ _ (wf_inner _ Hwf _ _ Hms) Hm) as Hdel.
  exists room. unfold handleLeaveRoom. rewrite Hptr. cbv zeta.
  fold roomId userId. rewrite Hms. simpl rooms. rewrite Hroom.
  destruct (Nat.eqb_spec (size (delete userId roomMembers)) 0) as [E|E];
    [lia|].
  eexists. split; [reflexivity|]. split; [exact Hcount|].
  split; [reflexivity|]. simpl.
  rewrite !get_set_eq, !get_delete_eq.
  replace (size roomMembers - 1) with (size (delete userId roomMembers))
    by lia.
  auto.
Qed.

Lemma leave_with_others_remaining_witness :
  exists room st1,
    get "K3X9Q2" (rooms (server demoProcess)) = Some room /\
    handleLeaveRoom "sockB" (server demoProcess) =
      (st1, [SocketTo "sockB" "K3X9Q2" (room_member_left "sockB");
             SocketLeave "sockB" "K3X9Q2"]) /\
    get "K3X9Q2" (rooms st1) = Some (Room.set_memberCount 1 room).
Proof.
  destruct (leave_with_others_remaining demoProcess "sockB"
              (RoomMemberInfo.mk "K3X9Q2" "sockB" "bob" false)
              [("sockA", Member.mk "sockA" "alice" true 1000);
               ("sockB", Member.mk "sockB" "bob" false 2000)]
              (Member.mk "sockB" "bob" false 2000))
    as (room & st1 & Hroom & _ & Hrun & _ & _ & Hcount & _).
  - exists demoKey, demoInputs. reflexivity.
  - reflexivity.
  - reflexivity.
  - reflexivity.
  - simpl. lia.
  - exists room, st1. auto.
Defined.

Lemma handleLeaveRoom_pointer_gone socket st :
  get socket (socketToRoom (fst (handleLeaveRoom socket st))) = None.
Proof.
  unfold handleLeaveRoom.
  destruct (get socket (socketToRoom st)) as [info|] eqn:Hptr; [|exact Hptr].
  destruct (get (RoomMemberInfo.roomId info) (members st)) as [ms|].
  - simpl rooms.
    destruct (get (RoomMemberInfo.roomId info) (rooms st));
      destruct (size (delete (RoomMemberInfo.userId info) ms) =? 0)%nat;
      simpl; apply get_delete_eq.
  - simpl. apply get_delete_eq.
Qed.

(** X5.  Leaving is idempotent: once the leave routine has run for a
    connection, running it again (a [disconnect] after a [room:leave], or a
    second [room:leave]) changes nothing and sends nothing. *)
Theorem leave_twice_is_leave_once socket st :
  let st1 := fst (handleLeaveRoom socket st) in
  handleLeaveRoom socket st1 = (st1, []).
Proof.
  intros st1. pose proof (handleLeaveRoom_pointer_gone socket st) as H.
  fold st1 in H. unfold handleLeaveRoom at 1. now rewrite H.
Qed.

(** ** Three more invariants of reachable stores *)

Lemma size_set_pos {V : Type} k (v : V) (m : JsMap.t V) : 0 < size (set k v m).
Proof.
  unfold size. destruct m as [|[k' v'] m]; simpl; [lia|].
  destruct (String.eqb k k'); simpl; lia.
Qed.

Lemma shaped_set_room st roomId room room1 :
  shaped st -> get roomId (rooms st) = Some room -> Room.id room1 = roomId ->
  shaped (with_rooms (set roomId room1) st).
Proof.
  intros ((Hr & Hm & Hp) & Hne & Hk) Hroom Hid.
  split; [split; [|split]|split]; simpl; auto.
  - intros r room'. destruct (string_dec roomId r) as [->|Hn].
    + rewrite get_set_eq. now intros [= <-].
    + rewrite get_set_ne by assumption. apply Hr.
  - unfold keysAligned in *. simpl.
    now rewrite (keys_set_present _ _ room).
Qed.

Lemma shaped_set_members st roomId ms ms1 :
  shaped st -> get roomId (members st) = Some ms -> 0 < size ms1 ->
  (forall u m, get u ms1 = Some m -> Member.id m = u) ->
  shaped (with_members (set roomId ms1) st).
Proof.
  intros ((Hr & Hm & Hp) & Hne & Hk) Hms Hpos Hids.
  split; [split; [|split]|split]; simpl; auto.
  - intros r ms' u m. destruct (string_dec roomId r) as [->|Hn].
    + rewrite get_set_eq. intros [= <-]. apply Hids.
    + rewrite get_set_ne by assumption. apply Hm.
  - intros r ms'. simpl. destruct (string_dec roomId r) as [->|Hn].
    + rewrite get_set_eq. now intros [= <-].
    + rewrite get_set_ne by assumption. apply Hne.
  - unfold keysAligned in *. simpl.
    now rewrite (keys_set_present _ _ ms).
Qed.

(** Writing a room and a non-empty membership map under one key. *)
Lemma shaped_put st roomId room1 ms1 :
  shaped st -> Room.id room1 = roomId -> 0 < size ms1 ->
  (forall u m, get u ms1 = Some m -> Member.id m = u) ->
  shaped (with_rooms (set roomId room1) (with_members (set roomId ms1) st)).
Proof.
  intros ((Hr & Hm & Hp) & Hne & Hk) Hid Hpos Hids.
  split; [split; [|split]|split]; simpl; auto.
  - intros r room'. destruct (string_dec roomId r) as [->|Hn].
    + rewrite get_set_eq. now intros [= <-].
    + rewrite get_set_ne by assumption. apply Hr.
  - intros r ms' u m. destruct (string_dec roomId r) as [->|Hn].
    + rewrite get_set_eq. intros [= <-]. apply Hids.
    + rewrite get_set_ne by assumption. apply Hm.
  - intros r ms'. simpl. destruct (string_dec roomId r) as [->|Hn].
    + rewrite get_set_eq. now intros [= <-].
    + rewrite get_set_ne by assumption. apply Hne.
  - unfold keysAligned in *. simpl. now apply keys_set_congr.
Qed.

(** Dropping a key from both maps, whatever was stored under it. *)
Lemma shaped_drop st roomId room1 ms1 :
  shaped st ->
  shaped (with_members (delete roomId)
            (with_rooms (delete roomId)
               (with_rooms (set roomId room1)
                  (with_members (set roomId ms1) st)))).
Proof.
  intros ((Hr & Hm & Hp) & Hne & Hk).
  split; [split; [|split]|split]; simpl; auto.
  - intros r room'. destruct (string_dec roomId r) as [->|Hn].
    + rewrite get_delete_eq. discriminate.
    + rewrite get_delete_ne, get_set_ne by assumption. apply Hr.
  - intros r ms' u m. destruct (string_dec roomId r) as [->|Hn].
    + rewrite get_delete_eq. discriminate.
    + rewrite get_delete_ne, get_set_ne by assumption. apply Hm.
  - intros r ms'. simpl. destruct (string_dec roomId r) as [->|Hn].
    + rewrite get_delete_eq. discriminate.
    + rewrite get_delete_ne, get_set_ne by assumption. apply Hne.
  - unfold keysAligned in *. simpl.
    apply keys_delete_congr. now apply keys_set_congr.
Qed.

Lemma shaped_deleteRoom st roomId :
  shaped st -> shaped (fst (deleteRoom roomId st)).
Proof.
  intros ((Hr & Hm & Hp) & Hne & Hk).
  split; [split; [|split]|split]; simpl; auto.
  - intros r room'. destruct (string_dec roomId r) as [->|Hn].
    + rewrite get_delete_eq. discriminate.
    + rewrite get_delete_ne by assumption. apply Hr.
  - intros r ms' u m. destruct (string_dec roomId r) as [->|Hn].
    + rewrite get_delete_eq. discriminate.
    + rewrite get_delete_ne by assumption. apply Hm.
  - intros r ms'. simpl. destruct (string_dec roomId r) as [->|Hn].
    + rewrite get_delete_eq. discriminate.
    + rewrite get_delete_ne by assumption. apply Hne.
  - unfold keysAligned in *. simpl. now apply keys_delete_congr.
Qed.

Lemma shaped_set_pointer st socket info :
  shaped st -> RoomMemberInfo.userId info = socket ->
  shaped (with_socketToRoom (set socket info) st).
Proof.
  intros ((Hr & Hm & Hp) & Hne & Hk) Hid.
  split; [split; [|split]|split]; simpl; auto.
  intros s i. destruct (string_dec socket s) as [->|Hn].
  - rewrite get_set_eq. now intros [= <-].
  - rewrite get_set_ne by assumption. apply Hp.
Qed.

Lemma shaped_delete_pointer st socket :
  shaped st -> shaped (with_socketToRoom (delete socket) st).
Proof.
  intros ((Hr & Hm & Hp) & Hne & Hk).
  split; [split; [|split]|split]; simpl; auto.
  intros s i. destruct (string_dec socket s) as [->|Hn].
  - rewrite get_delete_eq. discriminate.
  - rewrite get_delete_ne by assumption. apply Hp.
Qed.

Lemma member_ids_set st roomId ms socket member :
  shaped st -> get roomId (members st) = Some ms ->
  Member.id member = socket ->
  forall u m, get u (set socket member ms) = Some m -> Member.id m = u.
Proof.
  intros ((_ & Hm & _) & _) Hms Hid u m.
  destruct (string_dec socket u) as [->|Hn].
  - rewrite get_set_eq. now intros [= <-].
  - rewrite get_set_ne by assumption. apply (Hm _ _ _ _ Hms).
Qed.

Lemma member_ids_delete st roomId ms userId :
  shaped st -> get roomId (members st) = Some ms ->
  forall u m, get u (delete userId ms) = Some m -> Member.id m = u.
Proof.
  intros ((_ & Hm & _) & _) Hms u m.
  destruct (string_dec userId u) as [->|Hn].
  - rewrite get_delete_eq. discriminate.
  - rewrite get_delete_ne by assumption. apply (Hm _ _ _ _ Hms).
Qed.

Lemma shaped_emptyStore : shaped emptyStore.
Proof.
  split; [split; [|split]|split]; try discriminate; reflexivity.
Qed.

Lemma shaped_on_room_create socket data r1 r2 t1 t2 t3 st :
  shaped st -> shaped (fst (on_room_create socket data r1 r2 t1 t2 t3 st)).
Proof.
  intros H. unfold on_room_create. cbv zeta. unfold fst.
  apply shaped_set_pointer; [|reflexivity].
  apply (shaped_put st (generateRoomId r1));
    [exact H | reflexivity | apply size_set_pos |].
  intros u m. simpl. destruct (String.eqb_spec u socket); [|discriminate].
  now intros [= <-].
Qed.

Lemma shaped_on_room_join socket data now st :
  wf st -> shaped st -> shaped (fst (on_room_join socket data now st)).
Proof.
  intros Hwf H. unfold on_room_join.
  destruct (get (JoinData.roomId data) (rooms st)) as [room|] eqn:Hroom;
    [|assumption].
  destruct (truthy (Room.password room) && _); [assumption|].
  destruct (wf_room_members _ _ _ Hwf Hroom) as (ms & Hms & _).
  rewrite Hms. unfold fst.
  apply shaped_set_pointer; [|reflexivity].
  apply shaped_put; auto.
  - destruct H as ((Hr & _) & _). apply (Hr _ _ Hroom).
  - apply size_set_pos.
  - now apply (member_ids_set st (JoinData.roomId data)).
Qed.

Lemma shaped_handleLeaveRoom socket st :
  wf st -> shaped st -> shaped (fst (handleLeaveRoom socket st)).
Proof.
  intros Hwf H. unfold handleLeaveRoom.
  destruct (get socket (socketToRoom st)) as [info|]; [|assumption].
  destruct (get (RoomMemberInfo.roomId info) (members st)) as [ms|] eqn:Hms.
  - destruct (wf_members_room _ _ _ Hwf Hms) as (room & Hroom).
    simpl rooms. rewrite Hroom.
    destruct (Nat.eqb_spec
                (size (delete (RoomMemberInfo.userId info) ms)) 0) as [E|E].
    + unfold fst. apply shaped_delete_pointer. simpl.
      apply shaped_drop. exact H.
    + unfold fst. apply shaped_delete_pointer.
      apply shaped_put; auto.
      * destruct H as ((Hr & _) & _). apply (Hr _ _ Hroom).
      * lia.
      * now apply (member_ids_delete st (RoomMemberInfo.roomId info)).
  - unfold fst. now apply shaped_delete_pointer.
Qed.

Lemma shaped_owner_state_change ev socket state st :
  shaped st -> shaped (fst (owner_state_change ev socket state st)).
Proof.
  intros H. unfold owner_state_change.
  destruct (get socket (socketToRoom st)) as [info|]; [|assumption].
  destruct (negb (RoomMemberInfo.isOwner info)); [assumption|].
  destruct (get (RoomMemberInfo.roomId info) (rooms st)) as [room|] eqn:Hroom;
    [|assumption].
  unfold fst. apply (shaped_set_room _ _ room); auto.
  destruct H as ((Hr & _) & _). apply (Hr _ _ Hroom).
Qed.

Lemma shaped_on_state_clear socket cb st :
  shaped st -> shaped (fst (on_state_clear socket cb st)).
Proof.
  intros H. unfold on_state_clear.
  destruct (get socket (socketToRoom st)) as [info|]; [|assumption].
  destruct (negb (RoomMemberInfo.isOwner info)); [assumption|].
  destruct (get (RoomMemberInfo.roomId info) (rooms st)) as [room|] eqn:Hroom;
    [|assumption].
  unfold fst. apply (shaped_set_room _ _ room); auto.
  destruct H as ((Hr & _) & _). apply (Hr _ _ Hroom).
Qed.

Lemma shaped_on_heartbeat socket t1 t2 t3 st :
  shaped st -> shaped (fst (on_heartbeat socket t1 t2 t3 st)).
Proof.
  intros H. unfold on_heartbeat.
  destruct (get socket (socketToRoom st)) as [info|]; [|assumption].
  unfold fst.
  set (mid := match get (RoomMemberInfo.roomId info) (members st) with
              | Some _ => _ | None => _ end).
  assert (H1 : shaped mid).
  { subst mid.
    destruct (get (RoomMemberInfo.roomId info) (members st)) as [ms|] eqn:Hms;
      [|assumption].
    destruct (get (RoomMemberInfo.userId info) ms) as [m|] eqn:Hm;
      [|assumption].
    apply (shaped_set_members _ _ ms); auto.
    - apply size_set_pos.
    - apply (member_ids_set st (RoomMemberInfo.roomId info)); auto.
      destruct H as ((_ & Hmem & _) & _). apply (Hmem _ _ _ _ Hms Hm). }
  destruct (RoomMemberInfo.isOwner info); [|assumption].
  destruct (get (RoomMemberInfo.roomId info) (rooms mid)) as [room|] eqn:Hroom;
    [|assumption].
  apply (shaped_set_room _ _ room); auto.
  destruct H1 as ((Hr & _) & _). apply (Hr _ _ Hroom).
Qed.

Lemma shaped_handle socket e st :
  wf st -> shaped st -> shaped (fst (handle socket e st)).
Proof.
  intros Hwf H. destruct e; simpl handle.
  - now apply shaped_on_room_create.
  - now apply shaped_on_room_join.
  - now apply shaped_handleLeaveRoom.
  - assumption.
  - now apply shaped_owner_state_change.
  - unfold on_play_seek, relay. now destruct (get socket (socketToRoom st)).
  - unfold on_play_play, relay. now destruct (get socket (socketToRoom st)).
  - unfold on_play_pause, relay. now destruct (get socket (socketToRoom st)).
  - now apply shaped_owner_state_change.
  - now apply shaped_owner_state_change.
  - unfold on_chat_message. now destruct (get socket (socketToRoom st)).
  - unfold on_voice_offer, signal. now destruct (get socket (socketToRoom st)).
  - unfold on_voice_answer, signal.
    now destruct (get socket (socketToRoom st)).
  - unfold on_voice_ice, signal. now destruct (get socket (socketToRoom st)).
  - now apply shaped_on_state_clear.
  - now apply shaped_on_heartbeat.
  - now apply shaped_handleLeaveRoom.
Qed.

Lemma shaped_cleanupRoom throws now roomId room st :
  shaped st -> get roomId (rooms st) = Some room ->
  shaped (completionStore (cleanupRoom throws now roomId room st)).
Proof.
  intros H Hroom.
  assert (Hid : Room.id room = roomId)
    by (destruct H as ((Hr & _) & _); apply (Hr _ _ Hroom)).
  assert (Hc : shaped (with_rooms
                         (set roomId (Room.set_currentState None room)) st))
    by now apply (shaped_set_room _ _ room).
  unfold cleanupRoom;
    repeat match goal with
           | |- context [if ?b then _ else _] => destruct b eqn:?
           end; cbn [completionStore]; auto.
  - apply (shaped_deleteRoom _ roomId Hc).
  - apply (shaped_deleteRoom _ roomId H).
Qed.

(** Whatever a visit keeps, the scan keeps. *)
Lemma forEachRoom_keeps (P : Store -> Prop) throws now :
  (forall roomId room st,
     P st -> get roomId (rooms st) = Some room ->
     P (completionStore (cleanupRoom throws now roomId room st))) ->
  forall entries st out,
    NoDup (keys entries) ->
    (forall r room, In (r, room) entries -> get r (rooms st) = Some room) ->
    P st ->
    P (completionStore (forEachRoom throws now entries st out)).
Proof.
  intros Hvisit entries. induction entries as [|[r0 room] l IH];
    intros st out Hnd Hin H; simpl; auto.
  inversion Hnd as [|? ? Hnotin Hnd']; subst.
  assert (Hroom : get r0 (rooms st) = Some room) by (apply Hin; now left).
  pose proof (Hvisit r0 room st H Hroom) as HP.
  assert (Hothers : forall r room', In (r, room') l ->
            get r (rooms (completionStore
                            (cleanupRoom throws now r0 room st))) =
            Some room').
  { intros r room' Hl.
    assert (Hne : r <> r0).
    { intros ->. apply Hnotin. change r0 with (fst (r0, room')).
      now apply in_map. }
    destruct (cleanupRoom_frame throws now r0 room st r Hne) as (-> & _).
    apply Hin. now right. }
  destruct (cleanupRoom throws now r0 room st) as [st1 out1|st1 out1];
    simpl in *; auto.
Qed.

Lemma shaped_cleanupTick throws now st :
  wf st -> shaped st ->
  shaped (completionStore (cleanupTick throws now st)).
Proof.
  intros Hwf H. unfold cleanupTick.
  apply (forEachRoom_keeps shaped); auto.
  - intros. now apply shaped_cleanupRoom.
  - apply (wf_rooms _ Hwf).
  - intros r room. apply In_get, (wf_rooms _ Hwf).
Qed.

Lemma step_shaped p i :
  wf (server p) -> shaped (server p) -> shaped (server (fst (step p i))).
Proof.
  intros Hwf H. unfold step.
  destruct (lifecycle p) eqn:Hl; try assumption.
  all: destruct i; simpl; try assumption.
  all: try (destruct (on_connection (authKey p) socket token) as [[|] out];
            simpl; assumption).
  all: try (destruct (mem socket (sockets p)); [|assumption];
            pose proof (shaped_handle socket e (server p) Hwf H) as Hh;
            destruct (handle socket e (server p)) as [st out];
            destruct (isDisconnect e); simpl in *; assumption).
  all: try (destruct (cleanupInterval p); [|assumption];
            pose proof (shaped_cleanupTick throws now (server p) Hwf H) as Ht;
            destruct (cleanupTick throws now (server p)); simpl in *;
            assumption).
Qed.

Lemma run_shaped inputs p :
  wf (server p) -> shaped (server p) ->
  shaped (server (fst (run p inputs))).
Proof.
  revert p. induction inputs as [|i rest IH]; intros p Hwf H; simpl; auto.
  pose proof (step_wf p i Hwf) as Hw.
  pose proof (step_shaped p i Hwf H) as Hs.
  destruct (step p i) as [p1 out1]. simpl in Hw, Hs.
  specialize (IH p1 Hw Hs). destruct (run p1 rest) as [p2 out2]. exact IH.
Qed.

Lemma reachable_shaped p : reachable p -> shaped (server p).
Proof.
  intros (key & inputs & <-).
  apply run_shaped; [apply wf_emptyStore | apply shaped_emptyStore].
Qed.

(** X6.  In every store the process can reach, and after any further
    inputs, a room is stored under its own [id], a member under its own
    [id], and the session pointer of a connection names that connection as
    its [userId]. *)
Theorem stored_ids_are_their_keys p inputs :
  reachable p ->
  let st := server (fst (run p inputs)) in
  (forall roomId room,
     get roomId (rooms st) = Some room -> Room.id room = roomId) /\
  (forall roomId roomMembers userId member,
     get roomId (members st) = Some roomMembers ->
     get userId roomMembers = Some member -> Member.id member = userId) /\
  (forall socket info,
     get socket (socketToRoom st) = Some info ->
     RoomMemberInfo.userId info = socket).
Proof.
  intros Hreach st.
  destruct (run_shaped inputs p (reachable_wf _ Hreach)
              (reachable_shaped _ Hreach)) as (Hids & _).
  exact Hids.
Qed.

Lemma stored_ids_are_their_keys_witness :
  Room.id demoRoom = "K3X9Q2".
Proof.
  destruct (stored_ids_are_their_keys soloProcess
              [connectB; FromClient "sockB" (RoomJoin joinB 2000);
               FromClient "sockA" (PlayUpdate playing120)])
    as (H & _).
  - exists demoKey, [connectA; createA]. reflexivity.
  - apply H. reflexivity.
Defined.

(** X7.  No reachable store holds an empty room: every room that exists has
    a membership map with at least one entry and a [memberCount] of at
    least 1. *)
Theorem no_room_without_members p inputs roomId room :
  reachable p ->
  let st := server (fst (run p inputs)) in
  get roomId (rooms st) = Some room ->
  1 <= Room.memberCount room /\
  exists roomMembers,
    get roomId (members st) = Some roomMembers /\ roomMembers <> [].
Proof.
  intros Hreach st Hroom.
  pose proof (run_wf inputs p (reachable_wf _ Hreach)) as Hwf.
  destruct (run_shaped inputs p (reachable_wf _ Hreach)
              (reachable_shaped _ Hreach)) as (_ & Hne & _).
  fold st in Hwf, Hne.
  destruct (wf_room_members _ _ _ Hwf Hroom) as (ms & Hms & Hcount).
  pose proof (Hne _ _ Hms) as Hpos.
  split; [lia|]. exists ms. split; [exact Hms|].
  intros ->. simpl in Hpos. lia.
Qed.

Lemma no_room_without_members_witness :
  1 <= Room.memberCount demoRoom.
Proof.
  destruct (no_room_without_members soloProcess
              [connectB; FromClient "sockB" (RoomJoin joinB 2000);
               FromClient "sockA" (PlayUpdate playing120)]
              "K3X9Q2" demoRoom) as (H & _).
  - exists demoKey, [connectA; createA]. reflexivity.
  - reflexivity.
  - exact H.
Defined.

(** ** Statistics *)

Lemma fold_counts_aligned (rs : JsMap.t Room.t)
  (ms : JsMap.t (JsMap.t Member.t)) (a : nat) :
  keys rs = keys ms -> NoDup (keys rs) ->
  (forall k r, get k rs = Some r ->
     exists m, get k ms = Some m /\ Room.memberCount r = size m) ->
  fold_left (fun sum m => sum + size m) (values ms) a =
  fold_left (fun sum r => sum + RoomSummary.memberCount r)
    (map summarize (values rs)) a.
Proof.
  revert ms a. induction rs as [|[k r] rs IH]; intros [|[k' m] ms] a;
    simpl; try discriminate; auto.
  intros [= <- Hk] Hnd Hsync. inversion Hnd as [|? ? Hnotin Hnd']; subst.
  assert (Hhead : Room.memberCount r = size m).
  { destruct (Hsync k r) as (m' & Hm' & Hc).
    - simpl. now rewrite String.eqb_refl.
    - simpl in Hm'. rewrite String.eqb_refl in Hm'. congruence. }
  rewrite Hhead. apply IH; auto.
  intros k0 r0 Hr0.
  assert (Hne : k0 <> k).
  { intros ->. apply Hnotin. change k with (fst (k, r0)).
    apply in_map. now apply get_Some_In. }
  destruct (Hsync k0 r0) as (m0 & Hm0 & Hc0).
  - simpl. destruct (String.eqb_spec k0 k); [congruence|assumption].
  - simpl in Hm0. destruct (String.eqb_spec k0 k); [congruence|]. eauto.
Qed.

(** X8.  In every reachable store the statistics are consistent:
    [totalRooms] is the number of room summaries and [totalMembers], which
    [getStats] adds up from the membership maps, is the sum of the
    [memberCount]s it reports per room. *)
Theorem getStats_totals_agree p inputs :
  reachable p ->
  let stats := getStats (server (fst (run p inputs))) in
  Stats.totalRooms stats = List.length (Stats.rooms stats) /\
  Stats.totalMembers stats = sumMemberCounts (Stats.rooms stats).
Proof.
  intros Hreach stats.
  pose proof (run_wf inputs p (reachable_wf _ Hreach)) as Hwf.
  destruct (run_shaped inputs p (reachable_wf _ Hreach)
              (reachable_shaped _ Hreach)) as (_ & _ & Hk).
  subst stats. unfold getStats, sumMemberCounts. simpl. split.
  - unfold size, values. now rewrite !length_map.
  - apply fold_counts_aligned; auto.
    + apply (wf_rooms _ Hwf).
    + apply (wf_count _ Hwf).
Qed.

Lemma getStats_totals_agree_witness :
  Stats.totalMembers (getStats (server demoProcess)) = 2 /\
  sumMemberCounts (Stats.rooms (getStats (server demoProcess))) = 2.
Proof.
  destruct (getStats_totals_agree (startProcess demoKey) demoInputs)
    as (_ & H).
  - exists demoKey, []. reflexivity.
  - split; [reflexivity|]. unfold demoProcess. rewrite <- H. reflexivity.
Defined.

(** X9.  The [hasPassword] flag of the statistics is true for exactly the
    rooms that refuse, with [BadPassword], a join that supplies no
    password. *)
Theorem hasPassword_iff_join_refused socket userName now st roomId room :
  get roomId (rooms st) = Some room ->
  RoomSummary.hasPassword (summarize room) = true <->
  on_room_join socket (JoinData.mk roomId None userName) now st =
    (st, [Callback socket (JoinFailed BadPassword)]).
Proof.
  intros Hroom. unfold on_room_join. simpl JoinData.roomId.
  rewrite Hroom. simpl. destruct (Room.password room) as [pw|]; simpl.
  - destruct (String.eqb pw ""); simpl.
    + split; [discriminate|].
      destruct (get roomId (members st)); intros [= _ H]; discriminate.
    + split; auto.
  - split; [discriminate|].
    destruct (get roomId (members st)); intros [= _ H]; discriminate.
Qed.

Lemma hasPassword_iff_join_refused_witness :
  let locked :=
    fst (on_room_create "sockA"
           (CreateData.mk "Private" None (Some "hunter2") false "alice")
           "0.k3x9q2mzab" "0.7hq2ovc81d" 1000 1000 1000 emptyStore) in
  on_room_join "sockC" (JoinData.mk "K3X9Q2" None "carol") 3000 locked =
    (locked, [Callback "sockC" (JoinFailed BadPassword)]).
Proof.
  apply (hasPassword_iff_join_refused "sockC" "carol" 3000 _ "K3X9Q2"
           (Room.mk "K3X9Q2" "Private" None (Some "hunter2") false "sockA"
              "alice" "7HQ2OV" 1 None 1000 1000)).
  - reflexivity.
  - reflexivity.
Defined.

Lemma strict_neq_false_iff a b : strict_neq a b = false <-> a = b.
Proof.
  destruct a as [x|], b as [y|]; simpl; split; try discriminate; auto.
  - destruct (String.eqb_spec x y); [now subst | discriminate].
  - intros [= ->]. now rewrite String.eqb_refl.
Qed.

(** X10.  The statistics endpoint serves the statistics exactly when the
    [Authorization] header is the text ["Bearer "] followed by the key; a
    missing header or any other text is answered 401. *)
Theorem statsEndpoint_needs_bearer_key key authorization st :
  (authorization = Some ("Bearer " ++ key) ->
     statsEndpoint key authorization st = StatsJson (getStats st)) /\
  (authorization <> Some ("Bearer " ++ key) ->
     statsEndpoint key authorization st = Unauthorized401).
Proof.
  unfold statsEndpoint.
  destruct (strict_neq authorization (Some ("Bearer " ++ key))) eqn:E.
  - split; auto. intros H. apply strict_neq_false_iff in H. congruence.
  - apply strict_neq_false_iff in E. split; auto. congruence.
Qed.

Lemma statsEndpoint_needs_bearer_key_witness :
  statsEndpoint demoKey (Some "Bearer secret") (server demoProcess) =
    StatsJson (getStats (server demoProcess)) /\
  statsEndpoint demoKey (Some "secret") (server demoProcess) =
    Unauthorized401.
Proof.
  split.
  - apply (statsEndpoint_needs_bearer_key demoKey (Some "Bearer secret")).
    reflexivity.
  - apply (statsEndpoint_needs_bearer_key demoKey (Some "secret")).
    discriminate.
Defined.

(** ** Join and leave *)

Lemma set_memberCount_same room :
  Room.set_memberCount (Room.memberCount room) room = room.
Proof. now destruct room. Qed.

Lemma set_memberCount_twice n1 n2 room :
  Room.set_memberCount n2 (Room.set_memberCount n1 room) =
  Room.set_memberCount n2 room.
Proof. reflexivity. Qed.

(** X11.  Join and leave are inverse on the store: when a connection that
    is in no room joins a room it is not a member of and then leaves (or
    disconnects), the room map, every membership map, every [memberCount]
    and the session-pointer map are exactly what they were before the
    join. *)
Theorem join_then_leave_restores_store p socket data now room roomMembers :
  reachable p ->
  let st := server p in
  let roomId := JoinData.roomId data in
  get roomId (rooms st) = Some room ->
  truthy (Room.password room) = false \/
    JoinData.password data = Room.password room ->
  get roomId (members st) = Some roomMembers ->
  get socket roomMembers = None ->
  get socket (socketToRoom st) = None ->
  fst (handleLeaveRoom socket (fst (on_room_join socket data now st))) = st.
Proof.
  intros Hreach st roomId Hroom Hpass Hms Hnew Hptr.
  pose proof (reachable_wf _ Hreach) as Hwf.
  destruct (reachable_shaped _ Hreach) as (_ & Hne & _).
  fold st in Hwf, Hne.
  destruct (wf_room_members _ _ _ Hwf Hroom) as (ms' & Hms' & Hcount).
  assert (ms' = roomMembers) by congruence. subst ms'.
  pose proof (Hne _ _ Hms) as Hpos.
  assert (Hcheck : truthy (Room.password room)
                   && strict_neq (Room.password room)
                        (JoinData.password data) = false).
  { destruct Hpass as [->| ->]; [reflexivity|].
    now rewrite strict_neq_refl, andb_false_r. }
  unfold on_room_join. fold roomId. rewrite Hroom, Hcheck, Hms.
  unfold handleLeaveRoom. cbn [fst socketToRoom with_socketToRoom
    with_rooms with_members rooms members].
  rewrite get_set_eq.
  cbn [RoomMemberInfo.roomId RoomMemberInfo.userId rooms members
       socketToRoom with_socketToRoom with_rooms with_members].
  rewrite get_set_eq, delete_set_absent by assumption.
  rewrite get_set_eq.
  destruct (Nat.eqb_spec (size roomMembers) 0) as [E|E]; [lia|].
  cbn [fst rooms members socketToRoom with_socketToRoom with_rooms
       with_members].
  unfold with_socketToRoom, with_rooms, with_members.
  cbn [rooms members socketToRoom].
  rewrite !set_set, set_memberCount_twice, <- Hcount, set_memberCount_same.
  rewrite (set_same _ _ _ Hroom), (set_same _ _ _ Hms).
  rewrite delete_set_absent by assumption.
  now destruct st.
Qed.

Lemma join_then_leave_restores_store_witness :
  fst (handleLeaveRoom "sockB"
         (fst (on_room_join "sockB" joinB 2000 (server soloProcess)))) =
  server soloProcess.
Proof.
  apply (join_then_leave_restores_store soloProcess "sockB" joinB 2000
           (Room.mk "K3X9Q2" "Movie Night" None None true "sockA" "alice"
              "7HQ2OV" 1 None 1000 1000)
           [("sockA", Member.mk "sockA" "alice" true 1000)]).
  - exists demoKey, [connectA; createA]. reflexivity.
  - reflexivity.
  - left. reflexivity.
  - reflexivity.
  - reflexivity.
  - reflexivity.
Defined.

(** ** What a handler leaves alone *)

Ltac break_matches :=
  repeat match goal with
         | |- context [match ?x with _ => _ end] => destruct x eqn:?
         end.

Lemma handle_sessions socket e st :
  socketToRoom (fst (handle socket e st)) = socketToRoom st \/
  (exists info,
     socketToRoom (fst (handle socket e st)) =
     set socket info (socketToRoom st)) \/
  socketToRoom (fst (handle socket e st)) = delete socket (socketToRoom st).
Proof.
  assert (Hleave :
            socketToRoom (fst (handleLeaveRoom socket st)) = socketToRoom st \/
            socketToRoom (fst (handleLeaveRoom socket st)) =
            delete socket (socketToRoom st)).
  { unfold handleLeaveRoom.
    destruct (get socket (socketToRoom st)) as [info|]; [|now left].
    right.
    destruct (get (RoomMemberInfo.roomId info) (members st)) as [ms|];
      [|reflexivity].
    simpl rooms.
    destruct (get (RoomMemberInfo.roomId info) (rooms st));
      destruct (size (delete (RoomMemberInfo.userId info) ms) =? 0)%nat;
      reflexivity. }
  destruct e; simpl handle.
  - right. left. unfold on_room_create. simpl. eauto.
  - unfold on_room_join.
    destruct (get (JoinData.roomId data) (rooms st)) as [room|]; [|now left].
    destruct (truthy (Room.password room) && _); [now left|].
    right. left.
    destruct (get (JoinData.roomId data) (members st)); simpl; eauto.
  - destruct Hleave as [H|H]; [left | right; right]; exact H.
  - now left.
  - left. unfold on_play_update, owner_state_change.
    break_matches; reflexivity.
  - left. unfold on_play_seek, relay. break_matches; reflexivity.
  - left. unfold on_play_play, relay. break_matches; reflexivity.
  - left. unfold on_play_pause, relay. break_matches; reflexivity.
  - left. unfold on_play_change, owner_state_change.
    break_matches; reflexivity.
  - left. unfold on_live_change, owner_state_change.
    break_matches; reflexivity.
  - left. unfold on_chat_message. break_matches; reflexivity.
  - left. unfold on_voice_offer, signal. break_matches; reflexivity.
  - left. unfold on_voice_answer, signal. break_matches; reflexivity.
  - left. unfold on_voice_ice, signal. break_matches; reflexivity.
  - left. unfold on_state_clear. break_matches; reflexivity.
  - left. unfold on_heartbeat.
    destruct (get socket (socketToRoom st)) as [info|]; [|reflexivity].
    cbv zeta. unfold fst.
    set (mid := match get (RoomMemberInfo.roomId info) (members st) with
                | Some _ => _ | None => _ end).
    assert (Hmid : socketToRoom mid = socketToRoom st).
    { subst mid.
      destruct (get (RoomMemberInfo.roomId info) (members st)) as [ms|];
        auto.
      destruct (get (RoomMemberInfo.userId info) ms); auto. }
    destruct (RoomMemberInfo.isOwner info); [|exact Hmid].
    destruct (get (RoomMemberInfo.roomId info) (rooms mid)); exact Hmid.
  - destruct Hleave as [H|H]; [left | right; right]; exact H.
Qed.

(** X12.  A client event changes no session pointer but the caller's: for
    every other connection the pointer (or its absence) after the handler
    is the one before. *)
Theorem handler_keeps_other_pointers socket e st other :
  other <> socket ->
  get other (socketToRoom (fst (handle socket e st))) =
  get other (socketToRoom st).
Proof.
  intros Hne.
  destruct (handle_sessions socket e st) as [-> | [(info & ->) | ->]].
  - reflexivity.
  - apply get_set_ne. congruence.
  - apply get_delete_ne. congruence.
Qed.

Lemma handler_keeps_other_pointers_witness :
  get "sockA"
    (socketToRoom (fst (handle "sockB" Disconnect (server demoProcess)))) =
  get "sockA" (socketToRoom (server demoProcess)).
Proof.
  apply (handler_keeps_other_pointers "sockB" Disconnect (server demoProcess)
           "sockA").
  discriminate.
Defined.

(** ** More on the reconciliation scan *)

(** X13.  The timer callback never touches the session-pointer map,
    whether the scan completes or an [emit] raises: the pointers of the
    members of a room the scan deletes stay as they were, owner flag
    included. *)
Theorem cleanup_timer_keeps_session_pointers p now throws :
  socketToRoom (server (fst (step p (CleanupTimer now throws)))) =
  socketToRoom (server p).
Proof.
  unfold step.
  destruct (lifecycle p); try reflexivity;
    (destruct (cleanupInterval p); [|reflexivity]);
    pose proof (forEachRoom_sessions throws now (rooms (server p))
                  (server p) []) as H;
    unfold cleanupTick;
    destruct (forEachRoom throws now (rooms (server p)) (server p) []);
    simpl in *; exact H.
Qed.

(** X14.  After a scan that completes, every room still in the store has
    an owner heartbeat at most 5 min old, and one with a playback state has
    an owner heartbeat at most 30 s old; each such room is a room of the
    store before the scan, unchanged or with its state set to null. *)
Theorem after_scan_rooms_are_live p now roomId room1 :
  reachable p ->
  let st1 := completionStore (cleanupTick never now (server p)) in
  get roomId (rooms st1) = Some room1 ->
  (now - Room.lastOwnerHeartbeat room1 <= deleteTimeout)%Z /\
  (Room.currentState room1 <> None ->
   (now - Room.lastOwnerHeartbeat room1 <= clearStateTimeout)%Z) /\
  exists room,
    get roomId (rooms (server p)) = Some room /\
    (room1 = room \/ room1 = Room.set_currentState None room).
Proof.
  intros Hreach st1 Hroom1. subst st1.
  pose proof (reachable_wf _ Hreach) as Hwf.
  destruct (get roomId (rooms (server p))) as [room|] eqn:Hroom.
  - destruct (cleanupTick_never_at now _ _ _ Hwf Hroom)
      as (st1 & out & Htick & _ & Hr & _).
    rewrite Htick in Hroom1. simpl in Hroom1. rewrite Hr in Hroom1.
    unfold deleteDue, clearDue in Hroom1.
    destruct (Z.gtb_spec (now - Room.lastOwnerHeartbeat room) deleteTimeout)
      as [Hd|Hd]; [discriminate|].
    destruct (Z.gtb_spec (now - Room.lastOwnerHeartbeat room)
                clearStateTimeout) as [Hc|Hc]; simpl in Hroom1.
    + destruct (Room.currentState room) eqn:Hs; simpl in Hroom1;
        injection Hroom1 as <-; simpl.
      * split; [exact Hd|]. split; [congruence|]. exists room. auto.
      * split; [exact Hd|]. split; [congruence|]. exists room. auto.
    + injection Hroom1 as <-. split; [exact Hd|]. split; [auto|].
      exists room. auto.
  - exfalso. unfold cleanupTick in Hroom1.
    apply get_None_keys in Hroom.
    destruct (forEachRoom_frame never now (rooms (server p)) (server p) []
                roomId Hroom) as (Hr & _).
    rewrite Hr in Hroom1. apply get_None_keys in Hroom. congruence.
Qed.

Lemma after_scan_rooms_are_live_witness :
  (32000 - Room.lastOwnerHeartbeat (Room.set_currentState None demoRoom)
   <= deleteTimeout)%Z.
Proof.
  destruct (after_scan_rooms_are_live demoProcess 32000 "K3X9Q2"
              (Room.set_currentState None demoRoom)) as (H & _).
  - exists demoKey, demoInputs. reflexivity.
  - reflexivity.
  - exact H.
Defined.

Lemma on_heartbeat_owner_room socket t1 t2 t3 st info room :
  get socket (socketToRoom st) = Some info ->
  RoomMemberInfo.isOwner info = true ->
  get (RoomMemberInfo.roomId info) (rooms st) = Some room ->
  get (RoomMemberInfo.roomId info)
    (rooms (fst (on_heartbeat socket t1 t2 t3 st))) =
  Some (Room.set_lastOwnerHeartbeat t2 room).
Proof.
  intros Hptr Hown Hroom. unfold on_heartbeat. rewrite Hptr, Hown.
  cbv zeta.
  set (mid := match get (RoomMemberInfo.roomId info) (members st) with
              | Some _ => _ | None => _ end).
  assert (Hrooms : rooms mid = rooms st).
  { subst mid.
    destruct (get (RoomMemberInfo.roomId info) (members st)) as [ms|]; auto.
    destruct (get (RoomMemberInfo.userId info) ms); auto. }
  rewrite Hrooms, Hroom. simpl. apply get_set_eq.
Qed.

(** X15.  An owner heartbeat protects the room: in the store left by the
    heartbeat of a connection whose pointer is marked owner, a scan whose
    clock is at most 30 s past the heartbeat's reading neither clears nor
    deletes the room and sends it nothing. *)
Theorem owner_heartbeat_keeps_room p socket info room t1 t2 t3 now :
  reachable p ->
  let st := server p in
  let roomId := RoomMemberInfo.roomId info in
  get socket (socketToRoom st) = Some info ->
  RoomMemberInfo.isOwner info = true ->
  get roomId (rooms st) = Some room ->
  (now - t2 <= clearStateTimeout)%Z ->
  exists st2 out,
    cleanupTick never now (fst (on_heartbeat socket t1 t2 t3 st)) =
      Normal st2 out /\
    get roomId (rooms st2) = Some (Room.set_lastOwnerHeartbeat t2 room) /\
    eventsFor roomId out = [].
Proof.
  intros Hreach st roomId Hptr Hown Hroom Hfresh.
  pose proof (wf_on_heartbeat socket t1 t2 t3 _ (reachable_wf _ Hreach))
    as Hwf.
  pose proof (on_heartbeat_owner_room socket t1 t2 t3 st info room
                Hptr Hown Hroom) as Hroom1.
  destruct (cleanupTick_never_at now _ _ _ Hwf Hroom1)
    as (st2 & out & Htick & Hev & Hr & _).
  exists st2, out. split; [exact Htick|].
  unfold clearDue, deleteDue in Hev, Hr. simpl in Hev, Hr.
  assert (Hc : (now - t2 >? clearStateTimeout)%Z = false).
  { destruct (Z.gtb_spec (now - t2) clearStateTimeout); [lia|reflexivity]. }
  assert (Hd : (now - t2 >? deleteTimeout)%Z = false).
  { destruct (Z.gtb_spec (now - t2) deleteTimeout); [|reflexivity].
    unfold clearStateTimeout, deleteTimeout in *. lia. }
  rewrite Hc, Hd in Hev, Hr. simpl in Hev, Hr. auto.
Qed.

Lemma owner_heartbeat_keeps_room_witness :
  exists st2 out,
    cleanupTick never 400000
      (fst (on_heartbeat "sockA" 390000 390000 390000 (server demoProcess))) =
      Normal st2 out /\
    get "K3X9Q2" (rooms st2) =
      Some (Room.set_lastOwnerHeartbeat 390000 demoRoom) /\
    eventsFor "K3X9Q2" out = [].
Proof.
  apply (owner_heartbeat_keeps_room demoProcess "sockA"
           (RoomMemberInfo.mk "K3X9Q2" "sockA" "alice" true) demoRoom
           390000 390000 390000 400000).
  - exists demoKey, demoInputs. reflexivity.
  - reflexivity.
  - reflexivity.
  - reflexivity.
  - discriminate.
Defined.

(** ** Rooms are made by [room:create] only *)

Lemma sameIdentity_refl room : sameIdentity room room.
Proof. unfold sameIdentity. tauto. Qed.

Lemma sameIdentity_trans a b c :
  sameIdentity a b -> sameIdentity b c -> sameIdentity a c.
Proof. unfold sameIdentity. intuition congruence. Qed.

Lemma sameIdentity_memberCount n room :
  sameIdentity room (Room.set_memberCount n room).
Proof. unfold sameIdentity. simpl. tauto. Qed.

Lemma sameIdentity_currentState s room :
  sameIdentity room (Room.set_currentState s room).
Proof. unfold sameIdentity. simpl. tauto. Qed.

Lemma sameIdentity_lastOwnerHeartbeat z room :
  sameIdentity room (Room.set_lastOwnerHeartbeat z room).
Proof. unfold sameIdentity. simpl. tauto. Qed.

(** Rooms of [st1] come from [st] with their identity. *)
Lemma rooms_from_set st roomId room room1 r found :
  get roomId (rooms st) = Some room -> sameIdentity room room1 ->
  get r (set roomId room1 (rooms st)) = Some found ->
  exists room0, get r (rooms st) = Some room0 /\ sameIdentity room0 found.
Proof.
  intros Hroom Hsame. destruct (string_dec roomId r) as [->|Hne].
  - rewrite get_set_eq. intros [= <-]. eauto.
  - rewrite get_set_ne by assumption. intros H. eauto using sameIdentity_refl.
Qed.

Lemma rooms_from_delete {V : Type} (m : JsMap.t V) k r found :
  get r (delete k m) = Some found -> get r m = Some found.
Proof.
  destruct (string_dec k r) as [->|Hne].
  - rewrite get_delete_eq. discriminate.
  - now rewrite get_delete_ne by assumption.
Qed.

Lemma handle_room_identity socket e st r found :
  isRoomCreate e = false ->
  get r (rooms (fst (handle socket e st))) = Some found ->
  exists room0, get r (rooms st) = Some room0 /\ sameIdentity room0 found.
Proof.
  assert (Hsame : forall x, get r (rooms st) = Some x ->
            exists room0, get r (rooms st) = Some room0 /\
                          sameIdentity room0 x)
    by (intros x Hx; eauto using sameIdentity_refl).
  assert (Hleave :
            get r (rooms (fst (handleLeaveRoom socket st))) = Some found ->
            exists room0, get r (rooms st) = Some room0 /\
                          sameIdentity room0 found).
  { unfold handleLeaveRoom.
    destruct (get socket (socketToRoom st)) as [info|]; [|apply Hsame].
    destruct (get (RoomMemberInfo.roomId info) (members st)) as [ms|];
      [|apply Hsame].
    simpl rooms.
    destruct (get (RoomMemberInfo.roomId info) (rooms st)) as [room|]
      eqn:Hroom;
      destruct (size (delete (RoomMemberInfo.userId info) ms) =? 0)%nat;
      simpl; intros H.
    - apply rooms_from_delete in H.
      eapply rooms_from_set; eauto using sameIdentity_memberCount.
    - eapply rooms_from_set; eauto using sameIdentity_memberCount.
    - apply rooms_from_delete in H. now apply Hsame.
    - now apply Hsame. }
  assert (Howner : forall ev state,
            get r (rooms (fst (owner_state_change ev socket state st))) =
            Some found ->
            exists room0, get r (rooms st) = Some room0 /\
                          sameIdentity room0 found).
  { intros ev state. unfold owner_state_change.
    destruct (get socket (socketToRoom st)) as [info|]; [|apply Hsame].
    destruct (negb (RoomMemberInfo.isOwner info)); [apply Hsame|].
    destruct (get (RoomMemberInfo.roomId info) (rooms st)) as [room|]
      eqn:Hroom; [|apply Hsame].
    simpl. intros H.
    eapply rooms_from_set; eauto using sameIdentity_currentState. }
  intros Hnot. destruct e; simpl handle; try discriminate;
    try exact Hleave;
    try (exact (Howner play_update state));
    try (exact (Howner play_change state));
    try (exact (Howner live_change state)).
  - unfold on_room_join.
    destruct (get (JoinData.roomId data) (rooms st)) as [room|] eqn:Hroom;
      [|apply Hsame].
    destruct (truthy (Room.password room) && _); [apply Hsame|].
    destruct (get (JoinData.roomId data) (members st)); simpl;
      [|apply Hsame].
    intros H. eapply rooms_from_set; eauto using sameIdentity_memberCount.
  - apply Hsame.
  - unfold on_play_seek, relay.
    destruct (get socket (socketToRoom st)); apply Hsame.
  - unfold on_play_play, relay.
    destruct (get socket (socketToRoom st)); apply Hsame.
  - unfold on_play_pause, relay.
    destruct (get socket (socketToRoom st)); apply Hsame.
  - unfold on_chat_message.
    destruct (get socket (socketToRoom st)); apply Hsame.
  - unfold on_voice_offer, signal.
    destruct (get socket (socketToRoom st)); apply Hsame.
  - unfold on_voice_answer, signal.
    destruct (get socket (socketToRoom st)); apply Hsame.
  - unfold on_voice_ice, signal.
    destruct (get socket (socketToRoom st)); apply Hsame.
  - unfold on_state_clear.
    destruct (get socket (socketToRoom st)) as [info|]; [|apply Hsame].
    destruct (negb (RoomMemberInfo.isOwner info)); [apply Hsame|].
    destruct (get (RoomMemberInfo.roomId info) (rooms st)) as [room|]
      eqn:Hroom; [|apply Hsame].
    simpl. intros H.
    eapply rooms_from_set; eauto using sameIdentity_currentState.
  - unfold on_heartbeat.
    destruct (get socket (socketToRoom st)) as [info|]; [|apply Hsame].
    cbv zeta. unfold fst.
    set (mid := match get (RoomMemberInfo.roomId info) (members st) with
                | Some _ => _ | None => _ end).
    assert (Hmid : rooms mid = rooms st).
    { subst mid.
      destruct (get (RoomMemberInfo.roomId info) (members st)) as [ms|];
        auto.
      destruct (get (RoomMemberInfo.userId info) ms); auto. }
    destruct (RoomMemberInfo.isOwner info); [|rewrite Hmid; apply Hsame].
    rewrite Hmid.
    destruct (get (RoomMemberInfo.roomId info) (rooms st)) as [room|]
      eqn:Hroom; [|rewrite Hmid; apply Hsame].
    simpl. rewrite Hmid. intros H.
    eapply rooms_from_set; eauto using sameIdentity_lastOwnerHeartbeat.
Qed.

Lemma cleanupRoom_room_identity throws now roomId room st r found :
  get roomId (rooms st) = Some room ->
  get r (rooms (completionStore (cleanupRoom throws now roomId room st))) =
    Some found ->
  exists room0, get r (rooms st) = Some room0 /\ sameIdentity room0 found.
Proof.
  intros Hroom.
  assert (Hsame : forall x, get r (rooms st) = Some x ->
            exists room0, get r (rooms st) = Some room0 /\
                          sameIdentity room0 x)
    by (intros x Hx; eauto using sameIdentity_refl).
  unfold cleanupRoom;
    repeat match goal with
           | |- context [if ?b then _ else _] => destruct b eqn:?
           end; cbn [completionStore deleteRoom fst]; simpl; intros H;
    repeat match goal with
           | Hd : get _ (delete _ _) = Some _ |- _ =>
               apply rooms_from_delete in Hd
           end;
    try (now apply Hsame);
    eapply rooms_from_set; eauto using sameIdentity_currentState.
Qed.

Lemma cleanupTick_room_identity throws now st r found :
  wf st ->
  get r (rooms (completionStore (cleanupTick throws now st))) = Some found ->
  exists room0, get r (rooms st) = Some room0 /\ sameIdentity room0 found.
Proof.
  intros Hwf. revert r found.
  unfold cleanupTick.
  apply (forEachRoom_keeps
           (fun st1 => forall r found,
              get r (rooms st1) = Some found ->
              exists room0, get r (rooms st) = Some room0 /\
                            sameIdentity room0 found)).
  - intros roomId room st1 HP Hroom r found Hfound.
    destruct (cleanupRoom_room_identity _ _ _ _ _ _ _ Hroom Hfound)
      as (room1 & Hr1 & Hs1).
    destruct (HP _ _ Hr1) as (room0 & Hr0 & Hs0).
    exists room0. split; [exact Hr0|]. eapply sameIdentity_trans; eauto.
  - apply (wf_rooms _ Hwf).
  - intros r room. apply In_get, (wf_rooms _ Hwf).
  - intros r found H. eauto using sameIdentity_refl.
Qed.

(** X16.  Only [room:create] makes a room or rewrites what a room was
    created with.  After any other input (any other client event, the
    timer, a signal), every room in the store was already there under the
    same key with the same id, name, description, password, public flag,
    owner id, owner name, owner token and creation time. *)
Theorem room_identity_is_fixed_at_creation p i r found :
  reachable p ->
  (forall socket data r1 r2 t1 t2 t3,
     i <> FromClient socket (RoomCreate data r1 r2 t1 t2 t3)) ->
  get r (rooms (server (fst (step p i)))) = Some found ->
  exists room0,
    get r (rooms (server p)) = Some room0 /\ sameIdentity room0 found.
Proof.
  intros Hreach Hnot.
  pose proof (reachable_wf _ Hreach) as Hwf.
  assert (Hsame : get r (rooms (server p)) = Some found ->
            exists room0, get r (rooms (server p)) = Some room0 /\
                          sameIdentity room0 found)
    by (intros Hx; eauto using sameIdentity_refl).
  unfold step. destruct (lifecycle p); try exact Hsame.
  all: destruct i; simpl; try exact Hsame.
  all: try (destruct (on_connection (authKey p) socket token) as [[|] out];
            simpl; exact Hsame).
  all: try (destruct (mem socket (sockets p)); [|exact Hsame];
            assert (Hc : isRoomCreate e = false)
              by (destruct e; try reflexivity;
                  exfalso; eapply Hnot; reflexivity);
            pose proof (handle_room_identity socket e (server p) r found Hc)
              as Hh;
            destruct (handle socket e (server p)) as [st out];
            destruct (isDisconnect e); simpl in *; exact Hh).
  all: try (destruct (cleanupInterval p); [|exact Hsame];
            pose proof (cleanupTick_room_identity throws now (server p)
                          r found Hwf) as Ht;
            destruct (cleanupTick throws now (server p)); simpl in *;
            exact Ht).
Qed.

Lemma room_identity_is_fixed_at_creation_witness :
  exists room0,
    get "K3X9Q2" (rooms (server soloProcess)) = Some room0 /\
    sameIdentity room0
      (Room.mk "K3X9Q2" "Movie Night" None None true "sockA" "alice"
         "7HQ2OV" 1 None 1000 9000).
Proof.
  apply (room_identity_is_fixed_at_creation soloProcess
           (FromClient "sockA" (Heartbeat 9000 9000 9000))).
  - exists demoKey, [connectA; createA]. reflexivity.
  - discriminate.
  - reflexivity.
Defined.

(** ** Errors stay with the caller *)

Lemma no_error_app (l1 l2 : list Action) :
  existsb isErrorBroadcast (l1 ++ l2) =
  existsb isErrorBroadcast l1 || existsb isErrorBroadcast l2.
Proof. apply existsb_app. Qed.

Lemma handle_no_error_broadcast socket e st :
  existsb isErrorBroadcast (snd (handle socket e st)) = false.
Proof.
  assert (Hleave :
            existsb isErrorBroadcast (snd (handleLeaveRoom socket st)) =
            false).
  { unfold handleLeaveRoom.
    destruct (get socket (socketToRoom st)) as [info|]; [|reflexivity].
    destruct (get (RoomMemberInfo.roomId info) (members st)) as [ms|];
      [|reflexivity].
    simpl rooms.
    destruct (get (RoomMemberInfo.roomId info) (rooms st));
      destruct (size (delete (RoomMemberInfo.userId info) ms) =? 0)%nat;
      reflexivity. }
  destruct e; simpl handle; try exact Hleave; try reflexivity.
  - unfold on_room_join.
    destruct (get (JoinData.roomId data) (rooms st)) as [room|];
      [|reflexivity].
    destruct (truthy (Room.password room) && _); [reflexivity|].
    destruct (get (JoinData.roomId data) (members st)); reflexivity.
  - unfold on_play_update, owner_state_change. break_matches; reflexivity.
  - unfold on_play_seek, relay. break_matches; reflexivity.
  - unfold on_play_play, relay. break_matches; reflexivity.
  - unfold on_play_pause, relay. break_matches; reflexivity.
  - unfold on_play_change, owner_state_change. break_matches; reflexivity.
  - unfold on_live_change, owner_state_change. break_matches; reflexivity.
  - unfold on_chat_message. break_matches; reflexivity.
  - unfold on_voice_offer, signal. break_matches; reflexivity.
  - unfold on_voice_answer, signal. break_matches; reflexivity.
  - unfold on_voice_ice, signal. break_matches; reflexivity.
  - unfold on_state_clear, reply_if. break_matches; reflexivity.
  - unfold on_heartbeat.
    destruct (get socket (socketToRoom st)); reflexivity.
Qed.

Lemma cleanupRoom_no_error_broadcast throws now roomId room st :
  existsb isErrorBroadcast
    (completionOut (cleanupRoom throws now roomId room st)) = false.
Proof.
  unfold cleanupRoom;
    repeat match goal with
           | |- context [if ?b then _ else _] => destruct b eqn:?
           end; reflexivity.
Qed.

Lemma forEachRoom_no_error_broadcast throws now entries st out :
  existsb isErrorBroadcast out = false ->
  existsb isErrorBroadcast
    (completionOut (forEachRoom throws now entries st out)) = false.
Proof.
  revert st out. induction entries as [|[r room] l IH]; intros st out Hout;
    simpl; auto.
  pose proof (cleanupRoom_no_error_broadcast throws now r room st) as Hv.
  destruct (cleanupRoom throws now r room st) as [st1 out1|st1 out1];
    simpl in Hv.
  - apply IH. now rewrite no_error_app, Hout, Hv.
  - simpl. now rewrite no_error_app, Hout, Hv.
Qed.

Lemma step_no_error_broadcast p i :
  existsb isErrorBroadcast (snd (step p i)) = false.
Proof.
  unfold step. destruct (lifecycle p); try reflexivity.
  all: destruct i; simpl; try reflexivity.
  all: try (unfold on_connection;
            destruct (negb (truthy token) || _); reflexivity).
  all: try (destruct (mem socket (sockets p)); [|reflexivity];
            pose proof (handle_no_error_broadcast socket e (server p)) as Hh;
            destruct (handle socket e (server p)) as [st out];
            destruct (isDisconnect e); simpl in *; exact Hh).
  all: try (destruct (cleanupInterval p); [|reflexivity];
            pose proof (forEachRoom_no_error_broadcast throws now
                          (rooms (server p)) (server p) [] eq_refl) as Ht;
            unfold cleanupTick;
            destruct (forEachRoom throws now (rooms (server p)) (server p)
                        []);
            simpl in *; exact Ht).
  all: destruct (lifecycle p); reflexivity.
Qed.

Lemma handle_no_error_event socket e st :
  existsb emitsError (snd (handle socket e st)) = false.
Proof.
  assert (Hleave :
            existsb emitsError (snd (handleLeaveRoom socket st)) = false).
  { unfold handleLeaveRoom.
    destruct (get socket (socketToRoom st)) as [info|]; [|reflexivity].
    destruct (get (RoomMemberInfo.roomId info) (members st)) as [ms|];
      [|reflexivity].
    simpl rooms.
    destruct (get (RoomMemberInfo.roomId info) (rooms st));
      destruct (size (delete (RoomMemberInfo.userId info) ms) =? 0)%nat;
      reflexivity. }
  destruct e; simpl handle; try exact Hleave; try reflexivity.
  - unfold on_room_join.
    destruct (get (JoinData.roomId data) (rooms st)) as [room|];
      [|reflexivity].
    destruct (truthy (Room.password room) && _); [reflexivity|].
    destruct (get (JoinData.roomId data) (members st)); reflexivity.
  - unfold on_play_update, owner_state_change. break_matches; reflexivity.
  - unfold on_play_seek, relay. break_matches; reflexivity.
  - unfold on_play_play, relay. break_matches; reflexivity.
  - unfold on_play_pause, relay. break_matches; reflexivity.
  - unfold on_play_change, owner_state_change. break_matches; reflexivity.
  - unfold on_live_change, owner_state_change. break_matches; reflexivity.
  - unfold on_chat_message. break_matches; reflexivity.
  - unfold on_voice_offer, signal. break_matches; reflexivity.
  - unfold on_voice_answer, signal. break_matches; reflexivity.
  - unfold on_voice_ice, signal. break_matches; reflexivity.
  - unfold on_state_clear, reply_if. break_matches; reflexivity.
  - unfold on_heartbeat.
    destruct (get socket (socketToRoom st)); reflexivity.
Qed.

Lemma cleanupRoom_no_error_event throws now roomId room st :
  existsb emitsError
    (completionOut (cleanupRoom throws now roomId room st)) = false.
Proof.
  unfold cleanupRoom;
    repeat match goal with
           | |- context [if ?b then _ else _] => destruct b eqn:?
           end; reflexivity.
Qed.

Lemma forEachRoom_no_error_event throws now entries st out :
  existsb emitsError out = false ->
  existsb emitsError
    (completionOut (forEachRoom throws now entries st out)) = false.
Proof.
  revert st out. induction entries as [|[r room] l IH]; intros st out Hout;
    simpl; auto.
  pose proof (cleanupRoom_no_error_event throws now r room st) as Hv.
  destruct (cleanupRoom throws now r room st) as [st1 out1|st1 out1];
    simpl in Hv.
  - apply IH. now rewrite existsb_app, Hout, Hv.
  - simpl. now rewrite existsb_app, Hout, Hv.
Qed.

(** Apart from a handshake, no input makes the process emit [error]. *)
Lemma step_error_event_is_handshake p i :
  existsb emitsError (snd (step p i)) = true ->
  exists socket token, i = Connection socket token.
Proof.
  unfold step. destruct (lifecycle p); try discriminate.
  all: destruct i; simpl; try discriminate; eauto.
  all: try (destruct (mem socket (sockets p)); [|discriminate];
            pose proof (handle_no_error_event socket e (server p)) as Hh;
            destruct (handle socket e (server p)) as [st out];
            destruct (isDisconnect e); simpl in *; congruence).
  all: try (destruct (cleanupInterval p); [|discriminate];
            pose proof (forEachRoom_no_error_event throws now
                          (rooms (server p)) (server p) [] eq_refl) as Ht;
            unfold cleanupTick;
            destruct (forEachRoom throws now (rooms (server p)) (server p)
                        []);
            simpl in *; congruence).
  all: destruct (lifecycle p); discriminate.
Qed.

(** X17.  The process emits an [error] event in one situation only: to a
    connection whose handshake it refuses, as [error 'Unauthorized'] on
    that connection alone.  No input makes it send an [error] event to a
    room, by [socket.to] or by [io.to], and no client event, timer tick or
    signal makes it emit one at all.  (A failed request is answered through
    its own callback, which is a reply to the caller and not an [error]
    event.) *)
Theorem error_events_only_answer_refused_handshakes p i :
  existsb isErrorBroadcast (snd (step p i)) = false /\
  forall a,
    In a (snd (step p i)) -> emitsError a = true ->
    exists socket token,
      i = Connection socket token /\
      fst (on_connection (authKey p) socket token) = false /\
      a = SocketEmit socket (error_ "Unauthorized").
Proof.
  split; [apply step_no_error_broadcast|].
  intros a Hin Herr.
  assert (Hex : existsb emitsError (snd (step p i)) = true)
    by (apply existsb_exists; eauto).
  destruct (step_error_event_is_handshake p i Hex) as (socket & token & ->).
  exists socket, token. split; [reflexivity|].
  unfold step in Hin. unfold on_connection in *.
  destruct (lifecycle p); simpl in Hin;
    destruct (negb (truthy token) || strict_neq token (Some (authKey p)));
    simpl in Hin;
    try contradiction;
    (split; [reflexivity|]);
    destruct Hin as [<-|[<-|[]]]; try reflexivity; discriminate.
Qed.

Lemma error_events_only_answer_refused_handshakes_witness :
  exists socket token,
    Connection "sockX" (Some "guess") = Connection socket token /\
    fst (on_connection demoKey socket token) = false /\
    SocketEmit "sockX" (error_ "Unauthorized") =
      SocketEmit socket (error_ "Unauthorized").
Proof.
  destruct (error_events_only_answer_refused_handshakes demoProcess
              (Connection "sockX" (Some "guess"))) as (_ & H).
  apply (H (SocketEmit "sockX" (error_ "Unauthorized"))).
  - left. reflexivity.
  - reflexivity.
Defined.

(** ** Shutdown *)

Lemma step_after_shutdown p i :
  cleanupInterval p = false -> lifecycle p <> Running ->
  cleanupInterval (fst (step p i)) = false /\
  lifecycle (fst (step p i)) <> Running.
Proof.
  intros Ht Hl. unfold step.
  destruct (lifecycle p) eqn:El; [congruence| |];
    [|simpl; rewrite El; split; [assumption|discriminate]].
  destruct i; simpl.
  - destruct (on_connection (authKey p) socket token) as [[|] out]; simpl;
      rewrite ?El; split; auto; discriminate.
  - destruct (mem socket (sockets p)); simpl; rewrite ?El;
      [|split; [assumption|discriminate]].
    destruct (handle socket e (server p)) as [st out].
    destruct (isDisconnect e); simpl; rewrite ?El; split; auto;
      discriminate.
  - rewrite Ht. simpl. rewrite El. split; [assumption|discriminate].
  - split; [reflexivity|discriminate].
  - simpl. split; [assumption|discriminate].
  - simpl. split; [assumption|discriminate].
Qed.

(** X18.  Shutdown is final: once a signal (SIGINT or SIGTERM) has been
    handled, whatever inputs follow, the reconciliation timer stays
    cleared, so no later tick clears a state or deletes a room, and the
    process never goes back to running. *)
Theorem shutdown_is_final p inputs :
  lifecycle p = Running ->
  let p1 := fst (step p Signal) in
  let p2 := fst (run p1 inputs) in
  cleanupInterval p2 = false /\
  lifecycle p2 <> Running /\
  forall now throws, step p2 (CleanupTimer now throws) = (p2, []).
Proof.
  intros Hrun p1 p2.
  assert (H1 : cleanupInterval p1 = false /\ lifecycle p1 <> Running).
  { subst p1. unfold step. rewrite Hrun. simpl. split; [auto|discriminate]. }
  assert (H2 : cleanupInterval p2 = false /\ lifecycle p2 <> Running).
  { subst p2. clear Hrun. revert H1. generalize p1. clear p1.
    induction inputs as [|i rest IH]; intros q [Ht Hl]; simpl; auto.
    pose proof (step_after_shutdown q i Ht Hl) as Hs.
    destruct (step q i) as [q1 out1]. simpl in Hs.
    specialize (IH q1 Hs). destruct (run q1 rest) as [q2 out2]. exact IH. }
  destruct H2 as [Ht Hl]. repeat split; auto.
  intros now throws. unfold step. rewrite Ht.
  destruct (lifecycle p2); reflexivity.
Qed.

Lemma shutdown_is_final_witness :
  cleanupInterval
    (fst (run (fst (step demoProcess Signal))
            [FromClient "sockA" (Heartbeat 5000 5000 5000);
             CleanupTimer 400000 never])) = false.
Proof.
  destruct (shutdown_is_final demoProcess
              [FromClient "sockA" (Heartbeat 5000 5000 5000);
               CleanupTimer 400000 never]) as (H & _).
  - reflexivity.
  - exact H.
Defined.

(** ** Clearing the state on request *)

(** X19.  [state:clear] tells the caller which of four things happened:
    no session pointer is answered ['Not in a room'], a pointer that is not
    marked owner ['Not owner'], an owner pointer whose room is gone
    ['Room not found'], and in all three the store is unchanged and the
    room hears nothing; otherwise the room's state becomes null,
    [state:cleared] goes to the room except the caller, and the caller is
    answered success.  Without a callback the same happens with no
    answer. *)
Theorem state_clear_outcomes socket has_callback st :
  (get socket (socketToRoom st) = None ->
     on_state_clear socket has_callback st =
     (st, reply_if has_callback socket (ClearFailed NotInRoom))) /\
  (forall info,
     get socket (socketToRoom st) = Some info ->
     RoomMemberInfo.isOwner info = false ->
     on_state_clear socket has_callback st =
     (st, reply_if has_callback socket (ClearFailed NotOwner))) /\
  (forall info,
     get socket (socketToRoom st) = Some info ->
     RoomMemberInfo.isOwner info = true ->
     get (RoomMemberInfo.roomId info) (rooms st) = None ->
     on_state_clear socket has_callback st =
     (st, reply_if has_callback socket (ClearFailed ClearRoomNotFound))) /\
  (forall info room,
     get socket (socketToRoom st) = Some info ->
     RoomMemberInfo.isOwner info = true ->
     get (RoomMemberInfo.roomId info) (rooms st) = Some room ->
     let roomId := RoomMemberInfo.roomId info in
     exists st1,
       on_state_clear socket has_callback st =
         (st1, SocketTo socket roomId state_cleared
                 :: reply_if has_callback socket ClearOk) /\
       get roomId (rooms st1) = Some (Room.set_currentState None room) /\
       (forall r, r <> roomId -> get r (rooms st1) = get r (rooms st)) /\
       members st1 = members st /\
       socketToRoom st1 = socketToRoom st).
Proof.
  unfold on_state_clear. repeat split.
  - intros ->. reflexivity.
  - intros info -> ->. reflexivity.
  - intros info -> -> ->. reflexivity.
  - intros info room -> -> ->. cbv zeta. eexists. split; [reflexivity|].
    simpl. repeat split.
    + apply get_set_eq.
    + intros r Hne. apply get_set_ne. congruence.
Qed.

Lemma state_clear_outcomes_witness :
  exists st1,
    on_state_clear "sockA" true (server demoProcess) =
      (st1, [SocketTo "sockA" "K3X9Q2" state_cleared;
             Callback "sockA" ClearOk]) /\
    get "K3X9Q2" (rooms st1) = Some (Room.set_currentState None demoRoom).
Proof.
  destruct (state_clear_outcomes "sockA" true (server demoProcess))
    as (_ & _ & _ & H).
  destruct (H (RoomMemberInfo.mk "K3X9Q2" "sockA" "alice" true) demoRoom)
    as (st1 & Hrun & Hroom & _); try reflexivity.
  exists st1. split; assumption.
Defined.

(** ** Listing rooms *)

(** X20.  [room:list] answers the caller alone, leaves the store as it
    is, and lists exactly the rooms of the store whose public flag is set,
    as they are stored: a private room is never in the list, and every
    public room is. *)
Theorem room_list_is_the_public_rooms p socket :
  reachable p ->
  let st := server p in
  exists publicRooms,
    on_room_list socket st = (st, [Callback socket (RoomList publicRooms)]) /\
    forall room,
      In room publicRooms <->
      (exists roomId, get roomId (rooms st) = Some room) /\
      Room.isPublic room = true.
Proof.
  intros Hreach st. pose proof (reachable_wf _ Hreach) as Hwf. fold st in Hwf.
  unfold on_room_list. eexists. split; [reflexivity|].
  intros room. rewrite filter_In. split.
  - intros [Hin Hpub]. split; [|exact Hpub].
    apply values_get; [exact Hin | apply (wf_rooms _ Hwf)].
  - intros [(roomId & Hroom) Hpub]. split; [|exact Hpub].
    now apply (get_Some_values roomId).
Qed.

Lemma room_list_is_the_public_rooms_witness :
  exists publicRooms,
    on_room_list "sockB" (server demoProcess) =
      (server demoProcess, [Callback "sockB" (RoomList publicRooms)]) /\
    In demoRoom publicRooms.
Proof.
  destruct (room_list_is_the_public_rooms demoProcess "sockB")
    as (l & Hrun & Hiff).
  - exists demoKey, demoInputs. reflexivity.
  - exists l. split; [exact Hrun|]. apply Hiff. split; [|reflexivity].
    exists "K3X9Q2". reflexivity.
Defined.

(** ** Who a relayed message is from *)

Lemma join_sets_pointer socket data now st room :
  get (JoinData.roomId data) (rooms st) = Some room ->
  truthy (Room.password room) = false \/
    JoinData.password data = Room.password room ->
  get socket (socketToRoom (fst (on_room_join socket data now st))) =
  Some (RoomMemberInfo.mk (JoinData.roomId data) socket
          (JoinData.userName data) false).
Proof.
  intros Hroom Hpass. unfold on_room_join. rewrite Hroom.
  assert (Hcheck : truthy (Room.password room)
                   && strict_neq (Room.password room)
                        (JoinData.password data) = false).
  { destruct Hpass as [->| ->]; [reflexivity|].
    now rewrite strict_neq_refl, andb_false_r. }
  rewrite Hcheck.
  destruct (get (JoinData.roomId data) (members st)); simpl;
    apply get_set_eq.
Qed.

(** X21.  What a joined connection relays is labelled by the server, not
    by the client: after a successful join, its chat message goes to the
    whole joined room (sender included) under the connection id and the
    user name given at join, and its voice offer, answer and candidate go
    to the target named in the payload under the connection id; none of
    them changes the store. *)
Theorem relayed_messages_carry_the_session_identity
  socket data now st room chat t_id rnd t_stamp voice :
  get (JoinData.roomId data) (rooms st) = Some room ->
  truthy (Room.password room) = false \/
    JoinData.password data = Room.password room ->
  let st1 := fst (on_room_join socket data now st) in
  on_chat_message socket chat t_id rnd t_stamp st1 =
    (st1,
     [IoTo (JoinData.roomId data)
        (chat_message
           (ChatMessage.mk (generateMessageId t_id rnd) socket
              (JoinData.userName data) (ChatData.content chat)
              (ChatData.type chat) t_stamp))]) /\
  on_voice_offer socket voice st1 =
    (st1, [IoTo (VoiceData.targetUserId voice)
             (voice_offer socket (VoiceData.payload voice))]) /\
  on_voice_answer socket voice st1 =
    (st1, [IoTo (VoiceData.targetUserId voice)
             (voice_answer socket (VoiceData.payload voice))]) /\
  on_voice_ice socket voice st1 =
    (st1, [IoTo (VoiceData.targetUserId voice)
             (voice_ice socket (VoiceData.payload voice))]).
Proof.
  intros Hroom Hpass st1.
  pose proof (join_sets_pointer socket data now st room Hroom Hpass) as Hptr.
  fold st1 in Hptr.
  unfold on_chat_message, on_voice_offer, on_voice_answer, on_voice_ice,
    signal.
  rewrite Hptr. auto.
Qed.

Lemma relayed_messages_carry_the_session_identity_witness :
  on_chat_message "sockB" (ChatData.mk "hello" "text") 3000 "0.abcdefghijk"
    3001 (fst (on_room_join "sockB" joinB 2000 (server soloProcess))) =
  (fst (on_room_join "sockB" joinB 2000 (server soloProcess)),
   [IoTo "K3X9Q2"
      (chat_message
         (ChatMessage.mk "3000-abcdefg" "sockB" "bob" "hello" "text" 3001))]).
Proof.
  destruct (relayed_messages_carry_the_session_identity "sockB" joinB 2000
              (server soloProcess)
              (Room.mk "K3X9Q2" "Movie Night" None None true "sockA" "alice"
                 "7HQ2OV" 1 None 1000 1000)
              (ChatData.mk "hello" "text") 3000 "0.abcdefghijk" 3001
              (VoiceData.mk "sockA" "sdp")) as (H & _).
  - reflexivity.
  - left. reflexivity.
  - exact H.
Defined.

(** ** Create and leave *)

(** X22.  Create and leave are inverse on the store when the generated id
    is not in use: a connection that is in no room, creates a room and then
    leaves (or disconnects) leaves the store exactly as it found it, and
    the leave ends with [room:deleted]. *)
Theorem create_then_leave_restores_store p socket data r1 r2 t1 t2 t3 :
  reachable p ->
  let st := server p in
  let roomId := generateRoomId r1 in
  get roomId (rooms st) = None ->
  get socket (socketToRoom st) = None ->
  handleLeaveRoom socket (fst (on_room_create socket data r1 r2 t1 t2 t3 st)) =
  (st, [SocketTo socket roomId (room_member_left socket);
        IoTo roomId room_deleted;
        SocketLeave socket roomId]).
Proof.
  intros Hreach st roomId Hfresh Hptr.
  pose proof (reachable_wf _ Hreach) as Hwf. fold st in Hwf.
  assert (Hms : get roomId (members st) = None)
    by now apply (wf_same _ Hwf).
  unfold on_room_create, handleLeaveRoom. fold roomId.
  cbn [fst socketToRoom with_socketToRoom with_rooms with_members rooms
       members].
  rewrite get_set_eq.
  cbn [RoomMemberInfo.roomId RoomMemberInfo.userId rooms members
       socketToRoom with_socketToRoom with_rooms with_members].
  rewrite !get_set_eq. simpl delete. rewrite String.eqb_refl.
  cbn [size List.length Nat.eqb deleteRoom].
  unfold with_socketToRoom, with_rooms, with_members.
  cbn [rooms members socketToRoom app].
  rewrite !set_set, !delete_set_absent by assumption.
  now destruct st.
Qed.

Lemma create_then_leave_restores_store_witness :
  handleLeaveRoom "sockB"
    (fst (on_room_create "sockB"
            (CreateData.mk "Second" None None true "bob")
            "0.zzz999aaaa" "0.c0ffee1234" 2000 2000 2000
            (server soloProcess))) =
  (server soloProcess,
   [SocketTo "sockB" "ZZZ999" (room_member_left "sockB");
    IoTo "ZZZ999" room_deleted;
    SocketLeave "sockB" "ZZZ999"]).
Proof.
  apply (create_then_leave_restores_store soloProcess "sockB"
           (CreateData.mk "Second" None None true "bob")
           "0.zzz999aaaa" "0.c0ffee1234" 2000 2000 2000).
  - exists demoKey, [connectA; createA]. reflexivity.
  - reflexivity.
  - reflexivity.
Defined.

(** ** After the scan has deleted a room *)

(** X23.  A member of a room that the scan deletes keeps its session
    pointer.  Its later leave or disconnect then only unsubscribes it and
    removes the pointer: no [room:member-left] is sent and no room is
    touched. *)
Theorem leave_after_scan_deleted_room p socket info room now :
  reachable p ->
  let st := server p in
  let roomId := RoomMemberInfo.roomId info in
  get socket (socketToRoom st) = Some info ->
  get roomId (rooms st) = Some room ->
  (deleteTimeout < now - Room.lastOwnerHeartbeat room)%Z ->
  exists st1 out,
    cleanupTick never now st = Normal st1 out /\
    get socket (socketToRoom st1) = Some info /\
    get roomId (rooms st1) = None /\
    handleLeaveRoom socket st1 =
      (with_socketToRoom (delete socket) st1, [SocketLeave socket roomId]).
Proof.
  intros Hreach st roomId Hptr Hroom Hold.
  pose proof (reachable_wf _ Hreach) as Hwf. fold st in Hwf.
  destruct (cleanupTick_never_at now _ _ _ Hwf Hroom)
    as (st1 & out & Htick & _ & Hr & Hm).
  assert (Hdue : deleteDue now room = true)
    by (unfold deleteDue; now apply Z.gtb_lt).
  rewrite Hdue in Hr, Hm.
  pose proof (forEachRoom_sessions never now (rooms st) st []) as Hs.
  unfold cleanupTick in Htick. rewrite Htick in Hs. simpl in Hs.
  exists st1, out. split; [exact Htick|].
  split; [now rewrite Hs|]. split; [exact Hr|].
  unfold handleLeaveRoom. rewrite Hs, Hptr. fold roomId. now rewrite Hm.
Qed.

Lemma leave_after_scan_deleted_room_witness :
  exists st1 out,
    cleanupTick never 400000 (server demoProcess) = Normal st1 out /\
    get "sockB" (socketToRoom st1) =
      Some (RoomMemberInfo.mk "K3X9Q2" "sockB" "bob" false) /\
    get "K3X9Q2" (rooms st1) = None /\
    handleLeaveRoom "sockB" st1 =
      (with_socketToRoom (delete "sockB") st1,
       [SocketLeave "sockB" "K3X9Q2"]).
Proof.
  apply (leave_after_scan_deleted_room demoProcess "sockB"
           (RoomMemberInfo.mk "K3X9Q2" "sockB" "bob" false) demoRoom 400000).
  - exists demoKey, demoInputs. reflexivity.
  - reflexivity.
  - reflexivity.
  - reflexivity.
Defined.

(** ** Joining *)

Lemma size_set_absent {V : Type} k (v : V) (m : JsMap.t V) :
  get k m = None -> size (set k v m) = S (size m).
Proof.
  unfold size. induction m as [|[k' v'] m IH]; simpl; auto.
  destruct (String.eqb_spec k k'); [discriminate|].
  intros H. simpl. now rewrite IH.
Qed.

(** X24.  A join counts a connection once: a successful join by a
    connection that is not in the room's membership map raises
    [memberCount] by one, and a repeated join by one that already is there
    leaves [memberCount] as it was. *)
Theorem join_counts_each_connection_once p socket data now room roomMembers :
  reachable p ->
  let st := server p in
  let roomId := JoinData.roomId data in
  get roomId (rooms st) = Some room ->
  truthy (Room.password room) = false \/
    JoinData.password data = Room.password room ->
  get roomId (members st) = Some roomMembers ->
  exists room1,
    get roomId (rooms (fst (on_room_join socket data now st))) = Some room1 /\
    (get socket roomMembers = None ->
       Room.memberCount room1 = S (Room.memberCount room)) /\
    (get socket roomMembers <> None ->
       Room.memberCount room1 = Room.memberCount room).
Proof.
  intros Hreach st roomId Hroom Hpass Hms.
  pose proof (reachable_wf _ Hreach) as Hwf. fold st in Hwf.
  destruct (wf_room_members _ _ _ Hwf Hroom) as (ms' & Hms' & Hcount).
  assert (ms' = roomMembers) by congruence. subst ms'.
  assert (Hcheck : truthy (Room.password room)
                   && strict_neq (Room.password room)
                        (JoinData.password data) = false).
  { destruct Hpass as [->| ->]; [reflexivity|].
    now rewrite strict_neq_refl, andb_false_r. }
  unfold on_room_join. fold roomId. rewrite Hroom, Hcheck, Hms.
  eexists. split; [simpl; apply get_set_eq|]. simpl. split.
  - intros Hnew. now rewrite size_set_absent, Hcount.
  - intros Hold. destruct (get socket roomMembers) as [m|] eqn:Hm;
      [|congruence].
    now rewrite (size_set_present _ _ m), Hcount.
Qed.

Lemma join_counts_each_connection_once_witness :
  exists room1,
    get "K3X9Q2"
      (rooms (fst (on_room_join "sockB" joinB 9000 (server demoProcess)))) =
      Some room1 /\
    Room.memberCount room1 = 2.
Proof.
  destruct (join_counts_each_connection_once demoProcess "sockB" joinB 9000
              demoRoom
              [("sockA", Member.mk "sockA" "alice" true 1000);
               ("sockB", Member.mk "sockB" "bob" false 2000)])
    as (room1 & Hroom1 & _ & Hsame).
  - exists demoKey, demoInputs. reflexivity.
  - reflexivity.
  - left. reflexivity.
  - reflexivity.
  - exists room1. split; [exact Hroom1|]. apply Hsame. discriminate.
Defined.

(** X25.  Whoever joins is a guest, the room's creator included: after a
    successful join the caller's pointer is not marked owner, so its
    [play:update], [play:change] and [live:change] change nothing and are
    sent to nobody, and its [state:clear] is answered ['Not owner']. *)
Theorem joiner_is_never_owner socket data now st room state :
  get (JoinData.roomId data) (rooms st) = Some room ->
  truthy (Room.password room) = false \/
    JoinData.password data = Room.password room ->
  let st1 := fst (on_room_join socket data now st) in
  on_play_update socket state st1 = (st1, []) /\
  on_play_change socket state st1 = (st1, []) /\
  on_live_change socket state st1 = (st1, []) /\
  on_state_clear socket true st1 =
    (st1, [Callback socket (ClearFailed NotOwner)]).
Proof.
  intros Hroom Hpass st1.
  pose proof (join_sets_pointer socket data now st room Hroom Hpass) as Hptr.
  fold st1 in Hptr.
  unfold on_play_update, on_play_change, on_live_change, owner_state_change,
    on_state_clear.
  rewrite Hptr. simpl. auto.
Qed.

Lemma joiner_is_never_owner_witness :
  on_play_update "sockA" playing120
    (fst (on_room_join "sockA" (JoinData.mk "K3X9Q2" None "alice") 5000
            (server soloProcess))) =
  (fst (on_room_join "sockA" (JoinData.mk "K3X9Q2" None "alice") 5000
          (server soloProcess)), []).
Proof.
  destruct (joiner_is_never_owner "sockA" (JoinData.mk "K3X9Q2" None "alice")
              5000 (server soloProcess)
              (Room.mk "K3X9Q2" "Movie Night" None None true "sockA" "alice"
                 "7HQ2OV" 1 None 1000 1000) playing120) as (H & _).
  - reflexivity.
  - left. reflexivity.
  - exact H.
Defined.

(** ** Only authenticated connections get anywhere *)

Lemma mem_cons s x l : mem s (x :: l) = String.eqb s x || mem s l.
Proof. reflexivity. Qed.

Lemma mem_filter_out s x l :
  mem s (filter (fun y => negb (String.eqb y x)) l) = true ->
  mem s l = true.
Proof.
  unfold mem. induction l as [|y l IH]; simpl; auto.
  destruct (String.eqb y x); simpl.
  - intros H. rewrite (IH H). apply orb_true_r.
  - destruct (String.eqb s y); simpl; auto.
Qed.

Lemma mem_filter_self x l :
  mem x (filter (fun y => negb (String.eqb y x)) l) = false.
Proof.
  unfold mem. induction l as [|y l IH]; simpl; auto.
  destruct (String.eqb_spec y x) as [->|Hne]; simpl; auto.
  destruct (String.eqb_spec x y); [congruence|]. exact IH.
Qed.

Lemma step_authKey p i : authKey (fst (step p i)) = authKey p.
Proof.
  unfold step. destruct (lifecycle p); try reflexivity.
  all: destruct i; simpl; try reflexivity.
  all: try (destruct (on_connection (authKey p) socket token) as [[|] out];
            reflexivity).
  all: try (destruct (mem socket (sockets p)); [|reflexivity];
            destruct (handle socket e (server p)) as [st out];
            destruct (isDisconnect e); reflexivity).
  all: try (destruct (cleanupInterval p); [|reflexivity];
            destruct (cleanupTick throws now (server p)); reflexivity).
  all: destruct (lifecycle p); reflexivity.
Qed.

(** A connection is registered by a handshake with the key, and only so. *)
Lemma step_sockets p i s :
  mem s (sockets (fst (step p i))) = true ->
  mem s (sockets p) = true \/
  (i = Connection s (Some (authKey p)) /\ authKey p <> "").
Proof.
  unfold step. destruct (lifecycle p); try (now left).
  all: destruct i; simpl; try (now left).
  all: try (destruct (mem socket (sockets p)); [|now left];
            destruct (handle socket e (server p)) as [st out];
            destruct (isDisconnect e); simpl; [|now left];
            intros H; left; now apply (mem_filter_out s socket)).
  all: try (destruct (cleanupInterval p); [|now left];
            destruct (cleanupTick throws now (server p)); now left).
  all: try (destruct (lifecycle p); now left).
  all: unfold on_connection;
    destruct (negb (truthy token) || strict_neq token (Some (authKey p)))
      eqn:E; [now left|];
    cbn [fst sockets]; rewrite mem_cons; intros H;
    apply orb_false_iff in E; destruct E as [E1 E2];
    apply strict_neq_false_iff in E2; subst token;
    destruct (String.eqb_spec s socket) as [->|Hne]; [|now left];
    right; split; [reflexivity|];
    intros E; rewrite E in E1; discriminate.
Qed.

Lemma mem_filter_other s x l :
  s <> x -> mem s (filter (fun y => negb (String.eqb y x)) l) = mem s l.
Proof.
  intros Hne. unfold mem. induction l as [|y l IH]; simpl; auto.
  destruct (String.eqb_spec y x) as [->|Hyx]; simpl.
  - destruct (String.eqb_spec s x); [congruence|]. exact IH.
  - now rewrite IH.
Qed.

(** Every session pointer belongs to a registered connection. *)
Lemma step_pointers_registered p i :
  (forall s info, get s (socketToRoom (server p)) = Some info ->
                  mem s (sockets p) = true) ->
  forall s info,
    get s (socketToRoom (server (fst (step p i)))) = Some info ->
    mem s (sockets (fst (step p i))) = true.
Proof.
  intros HP s info.
  unfold step. destruct (lifecycle p) eqn:El; try apply HP.
  all: destruct i; simpl; try apply HP.
  all: try (destruct (on_connection (authKey p) socket token) as [[|] out];
            cbn [fst sockets server]; [|apply HP];
            intros H; rewrite mem_cons; rewrite (HP _ _ H);
            apply orb_true_r).
  all: try (destruct (cleanupInterval p); [|apply HP];
            pose proof (forEachRoom_sessions throws now (rooms (server p))
                          (server p) []) as Hs;
            unfold cleanupTick;
            destruct (forEachRoom throws now (rooms (server p)) (server p)
                        []);
            simpl in *; rewrite Hs; apply HP).
  all: try (destruct (mem socket (sockets p)) eqn:Hreg; [|apply HP];
            pose proof (handle_sessions socket e (server p)) as Hs;
            pose proof (handleLeaveRoom_pointer_gone socket (server p))
              as Hgone;
            assert (Hd : isDisconnect e = true ->
                         handle socket e (server p) =
                         handleLeaveRoom socket (server p))
              by (destruct e; try discriminate; reflexivity);
            destruct (handle socket e (server p)) as [st out] eqn:Hh;
            simpl in Hs;
            destruct (string_dec s socket) as [->|Hne];
            [ destruct (isDisconnect e); simpl; [|now intros _];
              rewrite <- (Hd eq_refl) in Hgone; simpl in Hgone;
              congruence
            | assert (Hsame : get s (socketToRoom st) =
                              get s (socketToRoom (server p)))
                by (destruct Hs as [-> | [(x & ->) | ->]];
                    [ reflexivity
                    | apply get_set_ne; congruence
                    | apply get_delete_ne; congruence ]);
              destruct (isDisconnect e); simpl; rewrite Hsame;
              [ rewrite mem_filter_other by assumption; apply HP
              | apply HP ] ]).
  all: destruct (lifecycle p); apply HP.
Qed.

Lemma run_authKey inputs p : authKey (fst (run p inputs)) = authKey p.
Proof.
  revert p. induction inputs as [|i rest IH]; intros p; simpl; auto.
  pose proof (step_authKey p i) as Hk.
  destruct (step p i) as [p1 out1]. simpl in Hk.
  specialize (IH p1). destruct (run p1 rest) as [p2 out2]. simpl in *.
  congruence.
Qed.

Lemma run_pointers_registered inputs p :
  (forall s info, get s (socketToRoom (server p)) = Some info ->
                  mem s (sockets p) = true) ->
  forall s info,
    get s (socketToRoom (server (fst (run p inputs)))) = Some info ->
    mem s (sockets (fst (run p inputs))) = true.
Proof.
  revert p. induction inputs as [|i rest IH]; intros p HP; simpl; auto.
  pose proof (step_pointers_registered p i HP) as Hs.
  destruct (step p i) as [p1 out1]. simpl in Hs.
  specialize (IH p1 Hs). destruct (run p1 rest) as [p2 out2]. exact IH.
Qed.

Lemma run_sockets inputs p s :
  mem s (sockets (fst (run p inputs))) = true ->
  mem s (sockets p) = true \/
  (In (Connection s (Some (authKey p))) inputs /\ authKey p <> "").
Proof.
  revert p. induction inputs as [|i rest IH]; intros p; simpl; auto.
  pose proof (step_sockets p i s) as Hs.
  pose proof (step_authKey p i) as Hk.
  destruct (step p i) as [p1 out1]. simpl in Hs, Hk.
  specialize (IH p1). destruct (run p1 rest) as [p2 out2]. simpl in *.
  intros H. destruct (IH H) as [H1|[Hin Hne]].
  - destruct (Hs H1) as [H0|[-> Hne]]; auto.
  - rewrite Hk in Hin, Hne. auto.
Qed.

(** X26.  Only a connection that presented the key gets a session: if,
    after any inputs, a connection has a session pointer, then one of the
    inputs was its handshake with the configured key as token, and that key
    is not the empty string.  Requests from any other connection never
    create, join or change anything. *)
Theorem session_pointers_need_the_key key inputs socket info :
  get socket
    (socketToRoom (server (fst (run (startProcess key) inputs)))) =
    Some info ->
  In (Connection socket (Some key)) inputs /\ key <> "".
Proof.
  intros Hptr.
  assert (Hreg : mem socket
                   (sockets (fst (run (startProcess key) inputs))) = true).
  { apply (run_pointers_registered inputs (startProcess key)) with info;
      [|exact Hptr].
    intros s i H. discriminate. }
  destruct (run_sockets inputs (startProcess key) socket Hreg)
    as [H|H]; [discriminate | exact H].
Qed.

Lemma session_pointers_need_the_key_witness :
  In (Connection "sockB" (Some demoKey)) demoInputs /\ demoKey <> "".
Proof.
  apply (session_pointers_need_the_key demoKey demoInputs "sockB"
           (RoomMemberInfo.mk "K3X9Q2" "sockB" "bob" false)).
  reflexivity.
Defined.

End Further.
